(** * scout_apm_node: configuration resolver and tracing engine

    A shallow embedding of [lib/types/config.ts] (the layered configuration
    resolver) and of the [Scout] class with its module-level send helpers
    (the tracing engine), followed by the properties of both.

    Conventions of the embedding.
    - A JavaScript value is a [value]; [VUndefined] is [undefined].
    - A plain object used as a record of settings is a finite map of its own
      properties ([gmap string value]); reading a missing key gives
      [VUndefined].  Properties inherited from [Object.prototype] are not part
      of the model.
    - Code of the package that is imported but not part of the two files
      ([./enum], [./util], [../constants], the agent, the downloader, the
      request and span classes) and the Node.js runtime ([os], [path],
      [semver], [process.env]) enter through the records [Externals] and
      [Runtime], or are modelled from the specification where it fixes them.
    - A promise-returning method is run to completion: its result is the
      settled state of the promise it returns. *)

From Stdlib Require Import ZArith String Ascii List Bool Lia DecimalString.
From stdpp Require Import base option gmap strings.
Import ListNotations.

Local Open Scope string_scope.

(** ** JavaScript values *)

Inductive value : Type :=
| VUndefined
| VNull
| VBool (b : bool)
| VNum (n : Z)
| VNaN
| VStr (s : string)
| VArr (l : list string).

(** [typeof val !== "undefined"] *)
Definition is_defined (v : value) : bool :=
  match v with VUndefined => false | _ => true end.

(** ToBoolean: what [if (v)], [!v] and [||] test. *)
Definition truthy (v : value) : bool :=
  match v with
  | VUndefined | VNull | VNaN => false
  | VBool b => b
  | VNum n => negb (n =? 0)%Z
  | VStr s => negb (String.eqb s "")
  | VArr _ => true
  end.

Fixpoint join (sep : string) (l : list string) : string :=
  match l with
  | [] => ""
  | [x] => x
  | x :: rest => x +:+ sep +:+ join sep rest
  end.

(** ToString, as applied by a template literal.  Numbers are the integers
    of the safe range, printed in decimal. *)
Definition to_js_string (v : value) : string :=
  match v with
  | VUndefined => "undefined"
  | VNull => "null"
  | VBool true => "true"
  | VBool false => "false"
  | VNum n => NilEmpty.string_of_int (Z.to_int n)
  | VNaN => "NaN"
  | VStr s => s
  | VArr l => join "," l
  end.

(** Own-property read of a plain object. *)
Definition prop_of (o : gmap string value) (k : string) : value :=
  default VUndefined (o !! k).

(** ** String helpers of the runtime *)

(** [s.split(c)] for a one-character separator. *)
Fixpoint split_on (c : ascii) (s : string) : list string :=
  match s with
  | EmptyString => [""]
  | String a rest =>
      if Ascii.eqb a c then "" :: split_on c rest
      else match split_on c rest with
           | [] => [String a ""]
           | x :: xs => String a x :: xs
           end
  end.

Definition lower_ascii (a : ascii) : ascii :=
  let n := nat_of_ascii a in
  if (65 <=? n)%nat && (n <=? 90)%nat then ascii_of_nat (n + 32) else a.

Definition upper_ascii (a : ascii) : ascii :=
  let n := nat_of_ascii a in
  if (97 <=? n)%nat && (n <=? 122)%nat then ascii_of_nat (n - 32) else a.

Definition is_upper (a : ascii) : bool :=
  let n := nat_of_ascii a in (65 <=? n)%nat && (n <=? 90)%nat.

(** [s.toLowerCase()] on the ASCII letters; no other character lowers to a
    letter of ["true"], the only string the result is compared with. *)
Fixpoint toLowerCase (s : string) : string :=
  match s with
  | EmptyString => EmptyString
  | String a rest => String (lower_ascii a) (toLowerCase rest)
  end.

(** [s.indexOf(t)]: position of the first occurrence, [-1] when there is
    none. *)
Definition indexOf (s t : string) : Z :=
  match String.index 0 t s with
  | Some n => Z.of_nat n
  | None => (-1)%Z
  end.

(** [s.startsWith(t)] *)
Definition startsWith (s t : string) : bool := String.prefix t s.

(** ** Enumerations of [./enum] *)

Inductive LogLevel : Type := Debug | Info | Warn | Error.

Inductive URIReportingLevel : Type := FilteredParams | Path | NoReporting.

Inductive ConfigSourceName : Type := Env | Node | Derived | Default.

Inductive Architecture : Type := X86_64 | I686 | ArchUnknown.

Inductive Platform : Type := LinuxGNU | LinuxMusl | Darwin | PlatformUnknown.

#[global] Instance ConfigSourceName_eq_dec : EqDecision ConfigSourceName.
Proof. solve_decision. Defined.

(** Modelled from the spec: the string of each [Architecture] member, which
    [./enum] declares; the spec lists [x86_64], [i686], [unknown]. *)
Definition Architecture_str (a : Architecture) : string :=
  match a with
  | X86_64 => "x86_64"
  | I686 => "i686"
  | ArchUnknown => "unknown"
  end.

(** Modelled from the spec: the string of each [Platform] member, which
    [./enum] declares; the spec lists [darwin], [linux-gnu], [linux-musl],
    [unknown]. *)
Definition Platform_str (p : Platform) : string :=
  match p with
  | LinuxGNU => "linux-gnu"
  | LinuxMusl => "linux-musl"
  | Darwin => "darwin"
  | PlatformUnknown => "unknown"
  end.

(** [Object.values(Architecture)] and [Object.values(Platform)] *)
Definition Architecture_values : list string :=
  map Architecture_str [X86_64; I686; ArchUnknown].

Definition Platform_values : list string :=
  map Platform_str [LinuxGNU; LinuxMusl; Darwin; PlatformUnknown].

(** [arr.includes(s)] *)
Definition includes (l : list string) (s : string) : bool :=
  existsb (String.eqb s) l.

(** ** Errors *)

Inductive error : Type :=
| NotSupported (msg : string)
| NoAgentPresent
| Disconnected (msg : string)
| MonitoringDisabled
| InvalidConfiguration (msg : string)
| InstanceNotReady
| UnknownSocketType
| ConnectionFailed
| TypeError (msg : string)
| PlainError (msg : string).

(** A line handed to a log function. *)
Definition LogEntry : Type := (string * LogLevel)%type.

(** ** What the configuration module takes from outside *)

Record Externals : Type := {
  (** [convertCamelCaseToEnvVar] of [./util] *)
  convertCamelCaseToEnvVar : string -> string;
  (** [parseLogLevel] of [./enum] *)
  parseLogLevel : string -> value;
  (** [parseInt(v, radix)] *)
  parseInt : string -> Z -> value;
  (** runtime values of the members of [LogLevel] and [URIReportingLevel] *)
  LogLevel_value : LogLevel -> value;
  URIReportingLevel_value : URIReportingLevel -> value;
  (** [os.arch()], [os.platform()] and detect-libc's [isNonGlibcLinux] *)
  os_arch : string;
  os_platform : string;
  isNonGlibcLinux : bool;
  (** [process.env] *)
  process_env : gmap string string
}.

(** Modelled from the spec: [Constants.DEFAULT_SOCKET_FILE_NAME], declared in
    [../constants]; the spec gives the socket file as [core-agent.sock]. *)
Definition DEFAULT_SOCKET_FILE_NAME : string := "core-agent.sock".

(** Modelled from the spec: [Constants.DEFAULT_CORE_AGENT_NAME], declared in
    [../constants]; the spec gives the name as [scout_apm_core]. *)
Definition DEFAULT_CORE_AGENT_NAME : string := "scout_apm_core".

(** ** lib/types/config.ts *)

Module Config.

(** [DEFAULT_SCOUT_CONFIGURATION] *)
Definition DEFAULT_SCOUT_CONFIGURATION (X : Externals) : gmap string value :=
  list_to_map [
    ("key", VStr "");
    ("name", VStr "");
    ("appServer", VStr "");
    ("applicationRoot", VStr "");
    ("coreAgentDir", VStr "");
    ("coreAgentDownload", VBool true);
    ("coreAgentLaunch", VBool true);
    ("coreAgentLogLevel", LogLevel_value X Info);
    ("coreAgentPermissions", VNum 700);
    ("coreAgentVersion", VStr "v1.2.7");
    ("disabledInstruments", VArr []);
    ("downloadUrl",
      VStr "https://s3-us-west-1.amazonaws.com/scout-public-downloads/apm_core_agent/release");
    ("framework", VStr "");
    ("frameworkVersion", VStr "");
    ("hostname", VNull);
    ("monitor", VBool false);
    ("revisionSHA",
      match process_env X !! "HEROKU_SLUG_COMMIT" with
      | Some s => if String.eqb s "" then VStr "" else VStr s
      | None => VStr ""
      end);
    ("scmSubdirectory", VStr "");
    ("uriReporting", URIReportingLevel_value X FilteredParams)
  ].

(** [ENV_TRANSFORMS]: the transformation registered for an environment
    variable, if any. *)
Definition ENV_TRANSFORMS (X : Externals) (envVar : string)
  : option (string -> value) :=
  if String.eqb envVar "SCOUT_CORE_AGENT_LOG_LEVEL" then Some (parseLogLevel X)
  else if String.eqb envVar "SCOUT_LOG_LEVEL" then Some (parseLogLevel X)
  else if String.eqb envVar "SCOUT_CORE_AGENT_DOWNLOAD"
    then Some (fun v => VBool (String.eqb (toLowerCase v) "true"))
  else if String.eqb envVar "SCOUT_CORE_AGENT_LAUNCH"
    then Some (fun v => VBool (String.eqb (toLowerCase v) "true"))
  else if String.eqb envVar "SCOUT_CORE_AGENT_PERMISSIONS"
    then Some (fun v => parseInt X v 10)
  else if String.eqb envVar "SCOUT_DISABLED_INSTRUMENTS"
    then Some (fun v => VArr (split_on "," v))
  else if String.eqb envVar "SCOUT_IGNORE"
    then Some (fun v => VArr (split_on "," v))
  else if String.eqb envVar "SCOUT_MONITOR"
    then Some (fun v => VBool (String.eqb (toLowerCase v) "true"))
  else None.

(** [detectArch] *)
Definition detectArch (X : Externals) : Architecture :=
  if String.eqb (os_arch X) "x64" then X86_64
  else if String.eqb (os_arch X) "x32" then I686
  else ArchUnknown.

(** [detectPlatform] *)
Definition detectPlatform (X : Externals) : Platform :=
  if String.eqb (os_platform X) "linux"
    then (if isNonGlibcLinux X then LinuxMusl else LinuxGNU)
  else if String.eqb (os_platform X) "darwin" then Darwin
  else PlatformUnknown.

(** [generateTriple] *)
Definition generateTriple (X : Externals) : string :=
  Architecture_str (detectArch X) +:+ "-" +:+ Platform_str (detectPlatform X).

(** The computations of the module: a result or a thrown error, with the
    lines logged on the way; [None] only when the recursion budget of
    [get] below is used up. *)
Definition M (A : Type) : Type := option ((error + A) * list LogEntry).

Definition ret {A} (a : A) : M A := Some (inr a, []).

Definition throw {A} (e : error) : M A := Some (inl e, []).

Definition log (l : LogEntry) : M unit := Some (inr tt, [l]).

Definition bind {A B} (m : M A) (f : A -> M B) : M B :=
  match m with
  | None => None
  | Some (inl e, l) => Some (inl e, l)
  | Some (inr a, l) =>
      match f a with
      | None => None
      | Some (r, l') => Some (r, (l ++ l')%list)
      end
  end.

#[global] Instance M_ret : MRet M := @ret.

#[global] Instance M_bind : MBind M := fun A B f m => bind m f.

(** [isValidTriple]; a truthy value without a [split] method raises. *)
Definition isValidTriple (triple : value) : M bool :=
  if negb (truthy triple) then ret false
  else match triple with
       | VStr t =>
           match split_on "-" t with
           | [] => ret false
           | arch :: platformPieces =>
               let platform := join "-" platformPieces in
               ret (includes Architecture_values arch
                    && includes Platform_values platform)
           end
       | _ => throw (TypeError "triple.split is not a function")
       end.

(** [ScoutConfigurationProxy]: the state of its sources.  The environment
    object of the Env source, the object held by the Node source, and
    whether the Derived source was given a log function. *)
Record ScoutConfigurationProxy : Type := {
  env : gmap string string;
  config : gmap string value;
  logFn : bool
}.

Module DefaultConfigSource.
Definition getName : ConfigSourceName := Default.

Definition getConfigValue (X : Externals) (prop : string) : value :=
  prop_of (DEFAULT_SCOUT_CONFIGURATION X) prop.

Definition setConfigValue : error :=
  NotSupported "new configuration values cannot be set on the default source".
End DefaultConfigSource.

Module EnvConfigSource.
Definition getName : ConfigSourceName := Env.

Definition getConfigValue (X : Externals) (env : gmap string string)
    (prop : string) : value :=
  let envVar := convertCamelCaseToEnvVar X prop in
  match env !! envVar with
  | None => VUndefined
  | Some val =>
      match ENV_TRANSFORMS X envVar with
      | Some f => f val
      | None => VStr val
      end
  end.

Definition setConfigValue : error :=
  NotSupported "new configuration values cannot be set on the env source".
End EnvConfigSource.

Module DerivedConfigSource.
Definition getName : ConfigSourceName := Derived.

(** [p_get] is the [get] of the proxy the source is queried through. *)
Definition getConfigValue (X : Externals) (logFn : bool)
    (p_get : string -> M value) (prop : string) : M value :=
  if String.eqb prop "socketPath" then
    coreAgentDir ← p_get "coreAgentDir";
    coreAgentFullName ← p_get "coreAgentFullName";
    ret (VStr (to_js_string coreAgentDir +:+ "/"
               +:+ to_js_string coreAgentFullName +:+ "/"
               +:+ DEFAULT_SOCKET_FILE_NAME))
  else if String.eqb prop "coreAgentFullName" then
    coreAgentTriple ← p_get "coreAgentTriple";
    valid ← isValidTriple coreAgentTriple;
    _ ← (if negb valid && logFn
         then log ("Invalid value for core_agent_triple: ["
                   +:+ to_js_string coreAgentTriple +:+ "]", Warn)
         else ret tt);
    coreAgentVersion ← p_get "coreAgentVersion";
    ret (VStr (DEFAULT_CORE_AGENT_NAME +:+ "-"
               +:+ to_js_string coreAgentVersion +:+ "-"
               +:+ to_js_string coreAgentTriple))
  else if String.eqb prop "coreAgentTriple" then
    ret (VStr (generateTriple X))
  else ret VUndefined.

Definition setConfigValue : error :=
  NotSupported "new configuration values cannot be set on the derived source".
End DerivedConfigSource.

Module NodeConfigSource.
Definition getName : ConfigSourceName := Node.

Definition getConfigValue (config : gmap string value) (prop : string)
  : value := prop_of config prop.

Definition setConfigValue (config : gmap string value) (prop : string)
    (v : value) : gmap string value := <[prop := v]> config.
End NodeConfigSource.

(** [this.sources], by the name of each source. *)
Definition sources : list ConfigSourceName := [Env; Node; Derived; Default].

(** [s.getConfigValue(prop, this)] for the source named [s]. *)
Definition getConfigValue (X : Externals) (p : ScoutConfigurationProxy)
    (p_get : string -> M value) (s : ConfigSourceName) (prop : string)
  : M value :=
  match s with
  | Env => ret (EnvConfigSource.getConfigValue X (env p) prop)
  | Node => ret (NodeConfigSource.getConfigValue (config p) prop)
  | Derived => DerivedConfigSource.getConfigValue X (logFn p) p_get prop
  | Default => ret (DefaultConfigSource.getConfigValue X prop)
  end.

(** The loop of [get]: the first value that is not [undefined]. *)
Fixpoint get_loop (lookup : ConfigSourceName -> M value)
    (ss : list ConfigSourceName) : M value :=
  match ss with
  | [] => ret VUndefined
  | s :: rest =>
      val ← lookup s;
      if is_defined val then ret val else get_loop lookup rest
  end.

(** [ScoutConfigurationProxy.get].  The Derived source calls back into
    [get]; [depth] bounds the nesting of those calls. *)
Fixpoint get (X : Externals) (depth : nat) (p : ScoutConfigurationProxy)
    (prop : string) : M value :=
  match depth with
  | O => None
  | S d => get_loop (fun s => getConfigValue X p (get X d p) s prop) sources
  end.

(** [s.setConfigValue(prop, value)] for the source named [s]. *)
Definition setConfigValue (p : ScoutConfigurationProxy)
    (s : ConfigSourceName) (prop : string) (v : value)
  : error + ScoutConfigurationProxy :=
  match s with
  | Env => inl EnvConfigSource.setConfigValue
  | Node => inr {| env := env p;
                   config := NodeConfigSource.setConfigValue (config p) prop v;
                   logFn := logFn p |}
  | Derived => inl DerivedConfigSource.setConfigValue
  | Default => inl DefaultConfigSource.setConfigValue
  end.

(** [ScoutConfigurationProxy.set] *)
Definition set (p : ScoutConfigurationProxy) (prop : string) (v : value)
  : error + (bool * ScoutConfigurationProxy) :=
  match setConfigValue p Node prop v with
  | inl e => inl e
  | inr p' => inr (true, p')
  end.

(** The constructor of [ScoutConfigurationProxy]. *)
Definition new (X : Externals) (initialNodeConfig : option (gmap string value))
    (opts_env : option (gmap string string)) (opts_logFn : bool)
  : ScoutConfigurationProxy :=
  {| env := default (process_env X) opts_env;
     config := default ∅ initialNodeConfig;
     logFn := opts_logFn |}.

(** The depth at which every [get] has returned: [socketPath] asks for
    [coreAgentFullName], which asks for [coreAgentTriple]. *)
Definition full_depth : nat := 3.

(** A [Partial<ScoutConfiguration>] as the engine holds it: an object
    literal, or the [Proxy] that [buildScoutConfiguration] wraps around a
    [ScoutConfigurationProxy]. *)
Inductive Configuration : Type :=
| PlainObject (o : gmap string value)
| Proxied (p : ScoutConfigurationProxy).

(** [buildScoutConfiguration] *)
Definition buildScoutConfiguration (X : Externals)
    (initialNodeConfig : option (gmap string value))
    (opts_env : option (gmap string string)) (opts_logFn : bool)
  : Configuration :=
  Proxied (new X initialNodeConfig opts_env opts_logFn).

(** [config.prop]: the value a property read produces.  Through the proxy
    this is [get]; the lines the Derived source logs go to the log function
    of the proxy and are dropped here, and a read that raises (the Derived
    source on a [coreAgentTriple] without [split]) is not represented. *)
Definition read (X : Externals) (c : Configuration) (prop : string) : value :=
  match c with
  | PlainObject o => prop_of o prop
  | Proxied p =>
      match get X full_depth p prop with
      | Some (inr v, _) => v
      | _ => VUndefined
      end
  end.

(** [config.prop = v] *)
Definition write (c : Configuration) (prop : string) (v : value)
  : Configuration :=
  match c with
  | PlainObject o => PlainObject (<[prop := v]> o)
  | Proxied p =>
      match set p prop v with
      | inr (_, p') => Proxied p'
      | inl _ => c
      end
  end.

(** [buildDownloadOptions] *)
Definition buildDownloadOptions (X : Externals) (c : Configuration)
  : gmap string value :=
  list_to_map [
    ("coreAgentFullName", read X c "coreAgentFullName");
    ("coreAgentDir", read X c "coreAgentDir");
    ("disallowDownload", VBool (negb (truthy (read X c "coreAgentDownload"))));
    ("downloadUrl", read X c "downloadUrl")
  ].

(** [buildProcessOptions] *)
Definition buildProcessOptions (X : Externals) (c : Configuration)
  : gmap string value :=
  {[ "disallowLaunch" := VBool (negb (truthy (read X c "coreAgentLaunch"))) ]}.

End Config.

(** ** The objects the engine passes around *)

(** [ScoutRequest] of [./request], as far as the engine reads it. *)
Module ScoutRequest.
Record t : Type := {
  id : string;
  isIgnored : bool;
  getTimestamp : Z;
  getEndTime : Z
}.
End ScoutRequest.

(** [ScoutSpan] of [./span], as far as the engine reads it. *)
Module ScoutSpan.
Record t : Type := {
  id : string;
  requestId : string;
  parentId : option string;
  operation : string;
  isIgnored : bool;
  getTimestamp : Z;
  getEndTime : Z
}.
End ScoutSpan.

Inductive ApplicationEventType : Type :=
| ScoutMetadata
| MemoryUsageMB
| CPUUtilizationPercent.

(** The messages of [../protocol/v1/requests] the engine builds. *)
Inductive AgentRequest : Type :=
| V1Register (app key : string) (apiVersion : string)
| V1ApplicationEvent (source : string) (eventType : ApplicationEventType)
| V1StartRequest (requestId : string) (timestamp : Z)
| V1FinishRequest (requestId : string) (timestamp : Z)
| V1TagRequest (name : string) (val : value) (requestId : string)
| V1StartSpan (operation requestId spanId : string) (parentId : option string)
    (timestamp : Z)
| V1TagSpan (name : string) (val : value) (spanId requestId : string)
| V1StopSpan (spanId requestId : string) (timestamp : Z).

(** An [emit] of the engine: the event and its argument. *)
Inductive ScoutEvent : Type :=
| Shutdown
| RequestSent (request : ScoutRequest.t)
| IgnoredPathDetected (path : string)
| IgnoredRequestProcessingSkipped (arg : ScoutRequest.t + string).

(** The settled state of a promise; [Pending] is a promise that nothing
    settles. *)
Inductive promise (A : Type) : Type :=
| Resolved (a : A)
| Rejected (e : error)
| Pending.

Arguments Resolved {A} a.
Arguments Rejected {A} e.
Arguments Pending {A}.

(** [ProcessOptions] of [./agent]: the arguments of its constructor.  An
    [ExternalProcessAgent] is known by the options it was built from; what it
    does lives in the world of the [Runtime]. *)
Record ProcessOptions : Type := {
  po_binPath : string;
  po_uri : string;
  po_opts : gmap string value
}.

(** The [agent] field: never assigned, [null], or an agent. *)
Inductive AgentSlot : Type :=
| AgentUndefined
| AgentNull
| AgentPresent (a : ProcessOptions).

(** [AgentSocketType] *)
Inductive AgentSocketType : Type := TCP | Unix.

(** Modelled from the spec: [Constants.CORE_AGENT_TCP_SOCKET_MIN_VERSION],
    [CORE_AGENT_TCP_DEFAULT_HOST] and [CORE_AGENT_TCP_DEFAULT_PORT], declared
    in [../constants]; the spec gives version [1.3.0] and the endpoint
    [127.0.0.1:6590]. *)
Definition CORE_AGENT_TCP_SOCKET_MIN_VERSION : string := "1.3.0".

Definition CORE_AGENT_TCP_DEFAULT_HOST : string := "127.0.0.1".

Definition CORE_AGENT_TCP_DEFAULT_PORT : Z := 6590.

(** Modelled from the spec: [Constants.CORE_AGENT_BIN_FILE_NAME], declared in
    [../constants]; the spec gives the binary as [core-agent]. *)
Definition CORE_AGENT_BIN_FILE_NAME : string := "core-agent".

(** Modelled from the spec: [APIVersion.V1] of [./enum]; the spec's baseline
    scenario registers with ["1.0"]. *)
Definition APIVersion_V1 : string := "1.0".

(** The user callback of [transaction]: called with the request made for it
    (if one could be made), it throws, or returns a value or a promise.  It
    acts on the world outside the engine. *)
Definition DoneCallback (W : Type) : Type :=
  option ScoutRequest.t -> W -> (error + promise value) * W.

(** What the engine takes from outside, over a world [W] that the
    external collaborators read and change. *)
Record Runtime (W : Type) : Type := {
  (** [path.join], [path.dirname] *)
  path_join : list string -> string;
  path_dirname : string -> string;
  (** [semver.lt], which throws on a version it cannot parse *)
  semver_lt : value -> string -> error + bool;
  (** [new CoreAgentVersion(v)] of [../types]: the [raw] string of the
      version object, or the error that the constructor throws *)
  newCoreAgentVersion : value -> error + string;
  (** [isIgnoredLogMessage], [isLogLevel] of [../types] *)
  isIgnoredLogMessage : value -> LogLevel -> bool;
  isLogLevel : string -> bool;
  (** [Constants.DEFAULT_CORE_AGENT_VERSION],
      [Constants.DEFAULT_CORE_AGENT_DOWNLOAD_CACHE_DIR] *)
  DEFAULT_CORE_AGENT_VERSION : string;
  DEFAULT_CORE_AGENT_DOWNLOAD_CACHE_DIR : string;
  (** [process.pid] *)
  pid : Z;
  (** [downloader.download(version, options)] *)
  download : value -> gmap string value -> W -> promise string * W;
  (** the methods of [ExternalProcessAgent] *)
  agent_start : ProcessOptions -> W -> promise unit * W;
  agent_connect : ProcessOptions -> W -> promise unit * W;
  agent_disconnect : ProcessOptions -> W -> promise unit * W;
  agent_stopProcess : ProcessOptions -> W -> promise unit * W;
  agent_setRegistrationAndMetadata :
    ProcessOptions -> AgentRequest -> AgentRequest -> W -> (error + unit) * W;
  agent_send : ProcessOptions -> AgentRequest -> W -> promise value * W;
  agent_sendAsync : ProcessOptions -> AgentRequest -> W -> promise value * W;
  (** [pathExists] of fs-extra, [check] of tcp-port-used *)
  pathExists : value -> W -> promise bool * W;
  tcpPortUsed : value -> W -> promise bool * W;
  (** [new ScoutRequest({scoutInstance: this}).startSync()] *)
  startRequestSync : W -> (error + ScoutRequest.t) * W;
  (** [setupIntegrations], [setActiveGlobalScoutInstance] *)
  setupIntegrations : W -> (error + unit) * W;
  setActiveGlobalScoutInstance : W -> W
}.

Arguments path_join {W} _ _.
Arguments path_dirname {W} _ _.
Arguments semver_lt {W} _ _ _.
Arguments newCoreAgentVersion {W} _ _.
Arguments isIgnoredLogMessage {W} _ _ _.
Arguments isLogLevel {W} _ _.
Arguments DEFAULT_CORE_AGENT_VERSION {W} _.
Arguments DEFAULT_CORE_AGENT_DOWNLOAD_CACHE_DIR {W} _.
Arguments pid {W} _.
Arguments download {W} _ _ _ _.
Arguments agent_start {W} _ _ _.
Arguments agent_connect {W} _ _ _.
Arguments agent_disconnect {W} _ _ _.
Arguments agent_stopProcess {W} _ _ _.
Arguments agent_setRegistrationAndMetadata {W} _ _ _ _ _.
Arguments agent_send {W} _ _ _ _.
Arguments agent_sendAsync {W} _ _ _ _.
Arguments pathExists {W} _ _ _.
Arguments tcpPortUsed {W} _ _ _.
Arguments startRequestSync {W} _ _.
Arguments setupIntegrations {W} _ _.
Arguments setActiveGlobalScoutInstance {W} _ _.

(** ** lib/scout/index.ts *)

Module Engine.

(** The result of running a piece of the engine: it returned, it threw, or
    it waits on a promise that nothing settles. *)
Inductive outcome (A : Type) : Type :=
| Done (a : A)
| Fail (e : error)
| Stuck.

Arguments Done {A} a.
Arguments Fail {A} e.
Arguments Stuck {A}.

Section WithWorld.

Context {W : Type}.

(** A log function as the constructor inspects it: the [level] of its
    [logger] property, when it has both. *)
Record LogFn : Type := { logger_level : option string }.

(** The options of the constructor that the methods below read. *)
Record ScoutOptions : Type := {
  opt_logFn : option LogFn;
  opt_downloadOptions : option (gmap string value)
}.

(** An instance of [Scout].  The first ten fields are fields of the class
    ([coreAgentVersion] holds the [raw] string of the version object, [None]
    while the field is unassigned; [settingUp] holds the settled state of the
    stored promise).  The last seven record what the instance has done to its
    surroundings: whether the statistics timer runs, how many
    [uncaughtException] listeners it has on [process], the events it emitted,
    the messages it handed to the agent, the lines that reached its log
    function, the calls of user callbacks, and the world of the [Runtime].
    Fields read by none of the methods below are left out. *)
Record Scout : Type := {
  config : Config.Configuration;
  logFn : option LogFn;
  downloaderOptions : gmap string value;
  binPath : string;
  coreAgentVersion : option value;
  agent : AgentSlot;
  processOptions : option ProcessOptions;
  uncaughtExceptionListenerFn : bool;
  settingUp : option (promise unit);
  statsSendingInterval : bool;
  timerRunning : bool;
  processListeners : nat;
  emitted : list ScoutEvent;
  sent : list AgentRequest;
  logged : list LogEntry;
  called : list (option ScoutRequest.t);
  world : W
}.

Definition set_config (x : Config.Configuration) (s : Scout) : Scout :=
  {| config := x;
     logFn := logFn s;
     downloaderOptions := downloaderOptions s;
     binPath := binPath s;
     coreAgentVersion := coreAgentVersion s;
     agent := agent s;
     processOptions := processOptions s;
     uncaughtExceptionListenerFn := uncaughtExceptionListenerFn s;
     settingUp := settingUp s;
     statsSendingInterval := statsSendingInterval s;
     timerRunning := timerRunning s;
     processListeners := processListeners s;
     emitted := emitted s;
     sent := sent s;
     logged := logged s;
     called := called s;
     world := world s |}.

Definition set_logFn (x : option LogFn) (s : Scout) : Scout :=
  {| config := config s;
     logFn := x;
     downloaderOptions := downloaderOptions s;
     binPath := binPath s;
     coreAgentVersion := coreAgentVersion s;
     agent := agent s;
     processOptions := processOptions s;
     uncaughtExceptionListenerFn := uncaughtExceptionListenerFn s;
     settingUp := settingUp s;
     statsSendingInterval := statsSendingInterval s;
     timerRunning := timerRunning s;
     processListeners := processListeners s;
     emitted := emitted s;
     sent := sent s;
     logged := logged s;
     called := called s;
     world := world s |}.

Definition set_downloaderOptions (x : gmap string value) (s : Scout) : Scout :=
  {| config := config s;
     logFn := logFn s;
     downloaderOptions := x;
     binPath := binPath s;
     coreAgentVersion := coreAgentVersion s;
     agent := agent s;
     processOptions := processOptions s;
     uncaughtExceptionListenerFn := uncaughtExceptionListenerFn s;
     settingUp := settingUp s;
     statsSendingInterval := statsSendingInterval s;
     timerRunning := timerRunning s;
     processListeners := processListeners s;
     emitted := emitted s;
     sent := sent s;
     logged := logged s;
     called := called s;
     world := world s |}.

Definition set_binPath (x : string) (s : Scout) : Scout :=
  {| config := config s;
     logFn := logFn s;
     downloaderOptions := downloaderOptions s;
     binPath := x;
     coreAgentVersion := coreAgentVersion s;
     agent := agent s;
     processOptions := processOptions s;
     uncaughtExceptionListenerFn := uncaughtExceptionListenerFn s;
     settingUp := settingUp s;
     statsSendingInterval := statsSendingInterval s;
     timerRunning := timerRunning s;
     processListeners := processListeners s;
     emitted := emitted s;
     sent := sent s;
     logged := logged s;
     called := called s;
     world := world s |}.

Definition set_coreAgentVersion (x : option value) (s : Scout) : Scout :=
  {| config := config s;
     logFn := logFn s;
     downloaderOptions := downloaderOptions s;
     binPath := binPath s;
     coreAgentVersion := x;
     agent := agent s;
     processOptions := processOptions s;
     uncaughtExceptionListenerFn := uncaughtExceptionListenerFn s;
     settingUp := settingUp s;
     statsSendingInterval := statsSendingInterval s;
     timerRunning := timerRunning s;
     processListeners := processListeners s;
     emitted := emitted s;
     sent := sent s;
     logged := logged s;
     called := called s;
     world := world s |}.

Definition set_agent (x : AgentSlot) (s : Scout) : Scout :=
  {| config := config s;
     logFn := logFn s;
     downloaderOptions := downloaderOptions s;
     binPath := binPath s;
     coreAgentVersion := coreAgentVersion s;
     agent := x;
     processOptions := processOptions s;
     uncaughtExceptionListenerFn := uncaughtExceptionListenerFn s;
     settingUp := settingUp s;
     statsSendingInterval := statsSendingInterval s;
     timerRunning := timerRunning s;
     processListeners := processListeners s;
     emitted := emitted s;
     sent := sent s;
     logged := logged s;
     called := called s;
     world := world s |}.

Definition set_processOptions (x : option ProcessOptions) (s : Scout) : Scout :=
  {| config := config s;
     logFn := logFn s;
     downloaderOptions := downloaderOptions s;
     binPath := binPath s;
     coreAgentVersion := coreAgentVersion s;
     agent := agent s;
     processOptions := x;
     uncaughtExceptionListenerFn := uncaughtExceptionListenerFn s;
     settingUp := settingUp s;
     statsSendingInterval := statsSendingInterval s;
     timerRunning := timerRunning s;
     processListeners := processListeners s;
     emitted := emitted s;
     sent := sent s;
     logged := logged s;
     called := called s;
     world := world s |}.

Definition set_uncaughtExceptionListenerFn (x : bool) (s : Scout) : Scout :=
  {| config := config s;
     logFn := logFn s;
     downloaderOptions := downloaderOptions s;
     binPath := binPath s;
     coreAgentVersion := coreAgentVersion s;
     agent := agent s;
     processOptions := processOptions s;
     uncaughtExceptionListenerFn := x;
     settingUp := settingUp s;
     statsSendingInterval := statsSendingInterval s;
     timerRunning := timerRunning s;
     processListeners := processListeners s;
     emitted := emitted s;
     sent := sent s;
     logged := logged s;
     called := called s;
     world := world s |}.

Definition set_settingUp (x : option (promise unit)) (s : Scout) : Scout :=
  {| config := config s;
     logFn := logFn s;
     downloaderOptions := downloaderOptions s;
     binPath := binPath s;
     coreAgentVersion := coreAgentVersion s;
     agent := agent s;
     processOptions := processOptions s;
     uncaughtExceptionListenerFn := uncaughtExceptionListenerFn s;
     settingUp := x;
     statsSendingInterval := statsSendingInterval s;
     timerRunning := timerRunning s;
     processListeners := processListeners s;
     emitted := emitted s;
     sent := sent s;
     logged := logged s;
     called := called s;
     world := world s |}.

Definition set_statsSendingInterval (x : bool) (s : Scout) : Scout :=
  {| config := config s;
     logFn := logFn s;
     downloaderOptions := downloaderOptions s;
     binPath := binPath s;
     coreAgentVersion := coreAgentVersion s;
     agent := agent s;
     processOptions := processOptions s;
     uncaughtExceptionListenerFn := uncaughtExceptionListenerFn s;
     settingUp := settingUp s;
     statsSendingInterval := x;
     timerRunning := timerRunning s;
     processListeners := processListeners s;
     emitted := emitted s;
     sent := sent s;
     logged := logged s;
     called := called s;
     world := world s |}.

Definition set_timerRunning (x : bool) (s : Scout) : Scout :=
  {| config := config s;
     logFn := logFn s;
     downloaderOptions := downloaderOptions s;
     binPath := binPath s;
     coreAgentVersion := coreAgentVersion s;
     agent := agent s;
     processOptions := processOptions s;
     uncaughtExceptionListenerFn := uncaughtExceptionListenerFn s;
     settingUp := settingUp s;
     statsSendingInterval := statsSendingInterval s;
     timerRunning := x;
     processListeners := processListeners s;
     emitted := emitted s;
     sent := sent s;
     logged := logged s;
     called := called s;
     world := world s |}.

Definition set_processListeners (x : nat) (s : Scout) : Scout :=
  {| config := config s;
     logFn := logFn s;
     downloaderOptions := downloaderOptions s;
     binPath := binPath s;
     coreAgentVersion := coreAgentVersion s;
     agent := agent s;
     processOptions := processOptions s;
     uncaughtExceptionListenerFn := uncaughtExceptionListenerFn s;
     settingUp := settingUp s;
     statsSendingInterval := statsSendingInterval s;
     timerRunning := timerRunning s;
     processListeners := x;
     emitted := emitted s;
     sent := sent s;
     logged := logged s;
     called := called s;
     world := world s |}.

Definition set_emitted (x : list ScoutEvent) (s : Scout) : Scout :=
  {| config := config s;
     logFn := logFn s;
     downloaderOptions := downloaderOptions s;
     binPath := binPath s;
     coreAgentVersion := coreAgentVersion s;
     agent := agent s;
     processOptions := processOptions s;
     uncaughtExceptionListenerFn := uncaughtExceptionListenerFn s;
     settingUp := settingUp s;
     statsSendingInterval := statsSendingInterval s;
     timerRunning := timerRunning s;
     processListeners := processListeners s;
     emitted := x;
     sent := sent s;
     logged := logged s;
     called := called s;
     world := world s |}.

Definition set_sent (x : list AgentRequest) (s : Scout) : Scout :=
  {| config := config s;
     logFn := logFn s;
     downloaderOptions := downloaderOptions s;
     binPath := binPath s;
     coreAgentVersion := coreAgentVersion s;
     agent := agent s;
     processOptions := processOptions s;
     uncaughtExceptionListenerFn := uncaughtExceptionListenerFn s;
     settingUp := settingUp s;
     statsSendingInterval := statsSendingInterval s;
     timerRunning := timerRunning s;
     processListeners := processListeners s;
     emitted := emitted s;
     sent := x;
     logged := logged s;
     called := called s;
     world := world s |}.

Definition set_logged (x : list LogEntry) (s : Scout) : Scout :=
  {| config := config s;
     logFn := logFn s;
     downloaderOptions := downloaderOptions s;
     binPath := binPath s;
     coreAgentVersion := coreAgentVersion s;
     agent := agent s;
     processOptions := processOptions s;
     uncaughtExceptionListenerFn := uncaughtExceptionListenerFn s;
     settingUp := settingUp s;
     statsSendingInterval := statsSendingInterval s;
     timerRunning := timerRunning s;
     processListeners := processListeners s;
     emitted := emitted s;
     sent := sent s;
     logged := x;
     called := called s;
     world := world s |}.

Definition set_called (x : list (option ScoutRequest.t)) (s : Scout) : Scout :=
  {| config := config s;
     logFn := logFn s;
     downloaderOptions := downloaderOptions s;
     binPath := binPath s;
     coreAgentVersion := coreAgentVersion s;
     agent := agent s;
     processOptions := processOptions s;
     uncaughtExceptionListenerFn := uncaughtExceptionListenerFn s;
     settingUp := settingUp s;
     statsSendingInterval := statsSendingInterval s;
     timerRunning := timerRunning s;
     processListeners := processListeners s;
     emitted := emitted s;
     sent := sent s;
     logged := logged s;
     called := x;
     world := world s |}.

Definition set_world (x : W) (s : Scout) : Scout :=
  {| config := config s;
     logFn := logFn s;
     downloaderOptions := downloaderOptions s;
     binPath := binPath s;
     coreAgentVersion := coreAgentVersion s;
     agent := agent s;
     processOptions := processOptions s;
     uncaughtExceptionListenerFn := uncaughtExceptionListenerFn s;
     settingUp := settingUp s;
     statsSendingInterval := statsSendingInterval s;
     timerRunning := timerRunning s;
     processListeners := processListeners s;
     emitted := emitted s;
     sent := sent s;
     logged := logged s;
     called := called s;
     world := x |}.

Definition E (A : Type) : Type := Scout -> outcome A * Scout.

#[export] Instance E_ret : MRet E := fun A a s => (Done a, s).

#[export] Instance E_bind : MBind E := fun A B f m s =>
  match m s with
  | (Done a, s') => f a s'
  | (Fail e, s') => (Fail e, s')
  | (Stuck, s') => (Stuck, s')
  end.

Definition raise {A} (e : error) : E A := fun s => (Fail e, s).

Definition gets {A} (f : Scout -> A) : E A := fun s => (Done (f s), s).

Definition modify (f : Scout -> Scout) : E unit := fun s => (Done tt, f s).

(** A call out of the engine. *)
Definition call {A} (f : W -> A * W) : E A := fun s =>
  let '(a, w) := f (world s) in (Done a, set_world w s).

(** [try { m } catch (e) { h e }], and [.catch(h)] at the end of a chain. *)
Definition catch_ {A} (m : E A) (h : error -> E A) : E A := fun s =>
  match m s with
  | (Fail e, s') => h e s'
  | r => r
  end.

(** The promise a chain of handlers ends in. *)
Definition settle {A} (m : E A) : E (promise A) := fun s =>
  match m s with
  | (Done a, s') => (Done (Resolved a), s')
  | (Fail e, s') => (Done (Rejected e), s')
  | (Stuck, s') => (Done Pending, s')
  end.

(** Continuing after a promise: [.then] on it. *)
Definition await {A} (p : promise A) : E A :=
  match p with
  | Resolved a => mret a
  | Rejected e => raise e
  | Pending => fun s => (Stuck, s)
  end.

(** An external call that throws or returns. *)
Definition attempt {A} (r : error + A) : E A :=
  match r with
  | inl e => raise e
  | inr a => mret a
  end.

(** The text of an error inside a template literal. *)
Definition error_text (e : error) : string :=
  match e with
  | NotSupported m => "NotSupported: " +:+ m
  | NoAgentPresent => "NoAgentPresent"
  | Disconnected m => "Disconnected: " +:+ m
  | MonitoringDisabled => "MonitoringDisabled"
  | InvalidConfiguration m => "InvalidConfiguration: " +:+ m
  | InstanceNotReady => "InstanceNotReady"
  | UnknownSocketType => "UnknownSocketType"
  | ConnectionFailed => "ConnectionFailed"
  | TypeError m => "TypeError: " +:+ m
  | PlainError m => "Error: " +:+ m
  end.

Context (X : Externals) (R : Runtime W).

(** [Scout.log] *)
Definition log (message : string) (level : LogLevel) : E unit := fun s =>
  match logFn s with
  | None => (Done tt, s)
  | Some _ =>
      let logLevel := Config.read X (config s) "logLevel" in
      if negb (truthy logLevel) then (Done tt, s)
      else if isIgnoredLogMessage R logLevel level then (Done tt, s)
      else (Done tt, set_logged (logged s ++ [(message, level)])%list s)
  end.

(** [this.emit(event, arg)] *)
Definition emit (ev : ScoutEvent) : E unit :=
  modify (fun s => set_emitted (emitted s ++ [ev])%list s).

(** [Scout.getDefaultSocketFilePath] *)
Definition getDefaultSocketFilePath (s : Scout) : string :=
  path_join R [path_dirname R (binPath s); DEFAULT_SOCKET_FILE_NAME].

(** The getter [Scout.socketPath] *)
Definition socketPath : E value := fun s =>
  let configured := Config.read X (config s) "socketPath" in
  if truthy configured then (Done configured, s)
  else match coreAgentVersion s with
       | None => (Fail (TypeError "Cannot read property 'raw' of undefined"), s)
       | Some raw =>
           match semver_lt R raw CORE_AGENT_TCP_SOCKET_MIN_VERSION with
           | inl e => (Fail e, s)
           | inr true => (Done (VStr (getDefaultSocketFilePath s)), s)
           | inr false =>
               (Done (VStr ("tcp://" +:+ CORE_AGENT_TCP_DEFAULT_HOST +:+ ":"
                            +:+ to_js_string (VNum CORE_AGENT_TCP_DEFAULT_PORT))), s)
           end
       end.

(** [Scout.getSocketType] *)
Definition getSocketType : E AgentSocketType :=
  sp ← socketPath;
  match sp with
  | VStr p => if startsWith p "tcp://" then mret TCP else mret Unix
  | _ => raise (TypeError "this.socketPath.startsWith is not a function")
  end.

(** [Scout.getSocketPath] *)
Definition getSocketPath : E value :=
  ty ← getSocketType;
  sp ← socketPath;
  match ty with
  | TCP => mret sp
  | Unix => mret (VStr ("unix://" +:+ to_js_string sp))
  end.

(** [Scout.getSocketFilePath]; [VNull] is its [null]. *)
Definition getSocketFilePath : E value :=
  ty ← getSocketType;
  match ty with
  | Unix => socketPath
  | TCP => mret VNull
  end.

(** [Scout.hasAgent] *)
Definition hasAgent (s : Scout) : bool :=
  match agent s with
  | AgentPresent _ => true
  | AgentUndefined | AgentNull => false
  end.

(** [Scout.isShutdown] *)
Definition isShutdown (s : Scout) : bool :=
  match agent s with
  | AgentNull => true
  | AgentUndefined | AgentPresent _ => false
  end.

(** [Scout.getAgent] *)
Definition getAgent (s : Scout) : AgentSlot := agent s.

(** [Scout.getConfig] *)
Definition getConfig (s : Scout) : Config.Configuration := config s.

(** The constructor of [Scout], in world [w]. *)
Definition new (config : option Config.Configuration)
    (opts : option ScoutOptions) (w : W) : Scout :=
  let config0 :=
    default (Config.buildScoutConfiguration X None None false) config in
  let logFn0 := opts ≫= opt_logFn in
  let downloaderOptions0 := default ∅ (opts ≫= opt_downloadOptions) in
  let configured := Config.read X config0 "coreAgentVersion" in
  let version :=
    if truthy configured then configured
    else VStr (DEFAULT_CORE_AGENT_VERSION R) in
  let version :=
    match version with
    | VStr (String "v" rest) => VStr rest
    | VArr ("v" :: rest) => VArr rest
    | _ => version
    end in
  let triple := Config.generateTriple X in
  let binPath0 :=
    path_join R [DEFAULT_CORE_AGENT_DOWNLOAD_CACHE_DIR R;
                 "scout_apm_core-v" +:+ to_js_string version +:+ "-" +:+ triple;
                 CORE_AGENT_BIN_FILE_NAME] in
  let config1 :=
    match logFn0 ≫= logger_level with
    | Some level =>
        if negb (String.eqb level "") && isLogLevel R level
        then Config.write config0 "logLevel" (parseLogLevel X level)
        else config0
    | None => config0
    end in
  {| config := config1;
     logFn := logFn0;
     downloaderOptions := downloaderOptions0;
     binPath := binPath0;
     coreAgentVersion := None;
     agent := AgentUndefined;
     processOptions := None;
     uncaughtExceptionListenerFn := false;
     settingUp := None;
     statsSendingInterval := false;
     timerRunning := false;
     processListeners := 0;
     emitted := [];
     sent := [];
     logged := [];
     called := [];
     world := w |}.

(** [Scout.ignoresPath] *)
Definition ignoresPath (path : string) : E bool :=
  log "[scout] checking path [${path}] against ignored paths" Debug;;
  ignore ← gets (fun s => Config.read X (config s) "ignore");
  if negb (truthy ignore) then mret false
  else match ignore with
       | VArr prefixes =>
           if (length prefixes =? 0)%nat then mret false
           else
             let matchingPrefix :=
               find (fun prefix => (indexOf path prefix =? 0)%Z) prefixes in
             (match matchingPrefix with
              | Some m =>
                  if truthy (VStr m) then
                    log "[scout] ignoring path [${path}] matching prefix [${matchingPrefix}]"
                      Debug;;
                    emit (IgnoredPathDetected path)
                  else mret tt
              | None => mret tt
              end);;
             mret (bool_decide (is_Some matchingPrefix))
       | _ => raise (TypeError "this.config.ignore.find is not a function")
       end.

(** [Scout.startSendingStatistics] *)
Definition startSendingStatistics : E unit :=
  running ← gets statsSendingInterval;
  if (running : bool) then mret tt
  else
    log "[scout] Starting sending of statistics..." Info;;
    modify (fun s => set_timerRunning true (set_statsSendingInterval true s)).

(** [Scout.stopSendingStatistics] *)
Definition stopSendingStatistics : E unit :=
  running ← gets statsSendingInterval;
  if negb (running : bool) then mret tt
  else
    log "[scout] Stopping sending of statistics..." Info;;
    modify (set_timerRunning false).

(** One firing of the timer that [startSendingStatistics] sets. *)
Definition statisticsTick : E unit :=
  a ← gets agent;
  match a with
  | AgentPresent po =>
      log "`[scout] Gathering CPU & memory usage statistics..." Debug;;
      let source := "Pid: " +:+ to_js_string (VNum (pid R)) in
      modify (fun s =>
        set_sent (sent s ++ [V1ApplicationEvent source MemoryUsageMB])%list s);;
      call (agent_sendAsync R po (V1ApplicationEvent source MemoryUsageMB));;
      modify (fun s =>
        set_sent (sent s ++ [V1ApplicationEvent source CPUUtilizationPercent])%list s);;
      call (agent_sendAsync R po (V1ApplicationEvent source CPUUtilizationPercent));;
      mret tt
  | _ =>
      log "[scout] Disabling stats sending interval since agent is missing..." Debug;;
      running ← gets statsSendingInterval;
      if (running : bool) then modify (set_timerRunning false) else mret tt
  end.

(** [Scout.agentIsRunning] *)
Definition agentIsRunning (socketPath : value) : E (promise bool) :=
  socketType ← getSocketType;
  match socketType with
  | Unix => call (pathExists R socketPath)
  | TCP =>
      let pieces :=
        match socketPath with
        | VStr p => split_on ":" p
        | _ => []
        end in
      let portRaw := default "undefined" (nth_error pieces 2) in
      call (tcpPortUsed R (parseInt X portRaw 10))
  end.

(** [Scout.setupAgent]; the forwarding of the agent's events is left to the
    world. *)
Definition setupAgent (a : ProcessOptions) : E ProcessOptions :=
  modify (set_agent (AgentPresent a));;
  mret a.

(** [new ProcessOptions(this.binPath, this.getSocketPath(),
    buildProcessOptions(this.config))], stored in [this.processOptions]. *)
Definition makeProcessOptions : E ProcessOptions :=
  uri ← getSocketPath;
  s ← gets (fun s => s);
  let po := {| po_binPath := binPath s;
               po_uri := to_js_string uri;
               po_opts := Config.buildProcessOptions X (config s) |} in
  modify (set_processOptions (Some po));;
  mret po.

(** [Scout.createAgentForExistingSocket], called without argument. *)
Definition createAgentForExistingSocket : E (promise ProcessOptions) :=
  shown ← socketPath;
  log ("[scout] detected existing socket @ [" +:+ to_js_string shown
       +:+ "], skipping agent launch") Debug;;
  sp ← socketPath;
  running ← agentIsRunning sp;
  settle (
    exists_ ← await running;
    (if negb (exists_ : bool)
     then raise (InvalidConfiguration "socket @ path [${socketPath}] does not exist")
     else mret tt);;
    po ← makeProcessOptions;
    setupAgent po).

(** [Scout.downloadAndLaunchAgent]; the line that logs the process options
    stops before their JSON text. *)
Definition downloadAndLaunchAgent : E (promise ProcessOptions) :=
  log "[scout] downloading and launching agent" Debug;;
  version ← gets (fun s => Config.read X (config s) "coreAgentVersion");
  if negb (truthy version) then
    log "No core agent version specified!" Error;;
    mret (Rejected (PlainError "No core agent version specified!"))
  else
    raw ← attempt (newCoreAgentVersion R version);
    modify (set_coreAgentVersion (Some (VStr raw)));;
    modify (fun s =>
      set_downloaderOptions
        (Config.buildDownloadOptions X (config s)
         ∪ downloaderOptions s
         ∪ list_to_map [("cacheDir", VStr (path_dirname R (binPath s)));
                        ("updateCache", VBool true)]) s);;
    options ← gets downloaderOptions;
    downloaded ← call (download R (VStr raw) options);
    settle (
      bp ← await downloaded;
      modify (set_binPath bp);;
      shown ← socketPath;
      log ("[scout] using socket path [" +:+ to_js_string shown +:+ "]") Debug;;
      po ← makeProcessOptions;
      setupAgent po;;
      bin ← gets binPath;
      log ("[scout] starting process w/ bin @ path [" +:+ bin +:+ "]") Debug;;
      log "[scout] process options:" Debug;;
      a ← gets agent;
      (match a with
       | AgentPresent a' => started ← call (agent_start R a'); await started
       | _ => raise NoAgentPresent
       end);;
      log "[scout] agent successfully started" Debug;;
      a ← gets agent;
      match a with
      | AgentPresent a' => mret a'
      | _ => raise NoAgentPresent
      end).

(** [sendThroughAgent]; [async] is [opts && opts.async]. *)
Definition sendThroughAgent (msg : AgentRequest) (async : bool)
  : E (promise value) :=
  present ← gets hasAgent;
  if negb (present : bool) then
    log "No agent is present, please run .setup()" Error;;
    mret (Rejected (Disconnected "No agent is present, please run .setup()"))
  else
    a ← gets getAgent;
    config ← gets getConfig;
    match a with
    | AgentPresent a' =>
        if negb (truthy (Config.read X config "monitor")) then
          log "[scout] monitoring disabled, not sending tag request" Warn;;
          mret (Rejected MonitoringDisabled)
        else
          modify (fun s => set_sent (sent s ++ [msg])%list s);;
          if async then call (agent_sendAsync R a' msg)
          else call (agent_send R a' msg)
    | _ =>
        log "[scout] agent is missing, cannot send" Warn;;
        mret (Rejected NoAgentPresent)
    end.

(** [Scout.buildAppMetadataEvent] *)
Definition buildAppMetadataEvent : AgentRequest :=
  V1ApplicationEvent ("Pid: " +:+ to_js_string (VNum (pid R))) ScoutMetadata.

(** [config.name || ""] and the like, as the string a message carries. *)
Definition or_empty (v : value) : string :=
  if truthy v then to_js_string v else "".

(** [Scout.sendAppMetadataEvent] *)
Definition sendAppMetadataEvent : E (promise unit) :=
  sending ← sendThroughAgent buildAppMetadataEvent false;
  settle (catch_ (await sending;; mret tt)
                 (fun err => log "[scout] failed to send start request request" Error)).

(** [Scout.sendRegistrationRequest] *)
Definition sendRegistrationRequest : E (promise unit) :=
  config ← gets getConfig;
  log ("[scout] registering application ["
       +:+ or_empty (Config.read X config "name") +:+ "]") Debug;;
  sending ← sendThroughAgent
    (V1Register (or_empty (Config.read X config "name"))
                (or_empty (Config.read X config "key")) APIVersion_V1) false;
  settle (catch_ (await sending;; mret tt)
                 (fun err => log "[scout] failed to send app registration request" Error)).

(** [Scout.setup] *)
Definition setup : E (promise unit) :=
  a ← gets agent;
  match a with
  | AgentPresent _ => mret (Resolved tt)
  | _ =>
      pending ← gets settingUp;
      match pending with
      | Some p => mret p
      | None =>
          log "[scout] setting up scout..." Debug;;
          shouldLaunch ← gets (fun s => Config.read X (config s) "coreAgentLaunch");
          doLaunch ← (if truthy shouldLaunch then downloadAndLaunchAgent
                      else createAgentForExistingSocket);
          p ← settle (
            await doLaunch;;
            a ← gets agent;
            (match a with
             | AgentPresent a' => connecting ← call (agent_connect R a'); await connecting
             | _ => raise NoAgentPresent
             end);;
            log "[scout] successfully connected to agent" Debug;;
            config ← gets getConfig;
            (if negb (truthy (Config.read X config "name"))
             then log "[scout] 'name' configuration value missing" Warn
             else mret tt);;
            (if negb (truthy (Config.read X config "key"))
             then log "[scout] 'key' missing in configuration" Warn
             else mret tt);;
            a ← gets agent;
            (match a with
             | AgentPresent a' =>
                 r ← call (agent_setRegistrationAndMetadata R a'
                             (V1Register (or_empty (Config.read X config "name"))
                                         (or_empty (Config.read X config "key"))
                                         APIVersion_V1)
                             buildAppMetadataEvent);
                 attempt r
             | _ => raise NoAgentPresent
             end);;
            registering ← sendRegistrationRequest;
            await registering;;
            describing ← sendAppMetadataEvent;
            await describing;;
            integrated ← call (setupIntegrations R);
            attempt integrated;;
            modify (fun s =>
              set_processListeners (S (processListeners s))
                (set_uncaughtExceptionListenerFn true s));;
            call (fun w => (tt, setActiveGlobalScoutInstance R w));;
            startSendingStatistics;;
            mret tt);
          modify (set_settingUp (Some p));;
          mret p
      end
  end.

(** [Scout.shutdown] *)
Definition shutdown : E (promise unit) :=
  running ← gets statsSendingInterval;
  (if (running : bool) then stopSendingStatistics else mret tt);;
  a ← gets agent;
  match a with
  | AgentPresent a' =>
      listening ← gets uncaughtExceptionListenerFn;
      (if (listening : bool)
       then modify (fun s => set_processListeners (pred (processListeners s)) s)
       else mret tt);;
      disconnecting ← call (agent_disconnect R a');
      settle (
        await disconnecting;;
        allow ← gets (fun s => truthy (Config.read X (config s) "allowShutdown"));
        a ← gets agent;
        (match allow, a with
         | true, AgentPresent a'' =>
             stopping ← call (agent_stopProcess R a''); await stopping
         | _, _ => mret tt
         end);;
        modify (set_agent AgentNull);;
        emit Shutdown)
  | _ =>
      log "[scout] shutdown called but no agent to shutdown is present" Error;;
      mret (Rejected NoAgentPresent)
  end.

(** [Scout.withAsyncRequestContext].  The request is made, the callback is
    called once, and the promise takes what the callback returns; the async
    namespace is the ambient context of the callback and is not part of the
    instance. *)
Definition withAsyncRequestContext (cb : DoneCallback W) : E (promise value) :=
  log "[scout] Starting request in async namespace..." Debug;;
  started ← call (startRequestSync R);
  match started with
  | inr request =>
      log ("[scout] Request started w/ ID [" +:+ ScoutRequest.id request +:+ "]")
        Debug;;
      modify (fun s => set_called (called s ++ [Some request])%list s);;
      result ← call (cb (Some request));
      match result with
      | inr p => mret p
      | inl err =>
          log ("[scout] failed to send start request: " +:+ error_text err) Error;;
          mret (Resolved VUndefined)
      end
  | inl err =>
      modify (fun s => set_called (called s ++ [None])%list s);;
      result ← call (cb None);
      match result with
      | inr p =>
          log ("[scout] failed to send start request: " +:+ error_text err) Error;;
          mret p
      | inl _ => mret Pending
      end
  end.

(** [Scout.transaction] *)
Definition transaction (name : string) (cb : DoneCallback W)
  : E (promise value) :=
  log ("[scout] Starting transaction [" +:+ name +:+ "]") Debug;;
  ready ← setup;
  match ready with
  | Resolved _ =>
      ran ← settle (inner ← withAsyncRequestContext cb; await inner);
      match ran with
      | Rejected err =>
          log "[scout] Scout setup failed: ${err}" Error;;
          mret (Resolved VUndefined)
      | _ => mret ran
      end
  | Rejected err =>
      settle (
        log "[scout] Scout setup failed: ${err}" Error;;
        inner ← withAsyncRequestContext cb;
        await inner)
  | Pending => mret Pending
  end.

(** [sendStartRequest] *)
Definition sendStartRequest (req : ScoutRequest.t) : E (promise ScoutRequest.t) :=
  if ScoutRequest.isIgnored req then
    log ("[scout] Skipping sending StartRequest for ignored req ["
         +:+ ScoutRequest.id req +:+ "]") Warn;;
    emit (IgnoredRequestProcessingSkipped (inl req));;
    mret (Resolved req)
  else
    let startReq :=
      V1StartRequest (ScoutRequest.id req) (ScoutRequest.getTimestamp req) in
    sending ← sendThroughAgent startReq false;
    settle (catch_ (await sending;; mret req)
      (fun err =>
         log ("[scout] failed to send start request request: " +:+ error_text err)
           Error;;
         mret req)).

(** [sendStopRequest] *)
Definition sendStopRequest (req : ScoutRequest.t) : E (promise ScoutRequest.t) :=
  if ScoutRequest.isIgnored req then
    log ("[scout] Skipping sending StopRequest for ignored req ["
         +:+ ScoutRequest.id req +:+ "]") Warn;;
    emit (IgnoredRequestProcessingSkipped (inl req));;
    mret (Resolved req)
  else
    let stopReq :=
      V1FinishRequest (ScoutRequest.id req) (ScoutRequest.getEndTime req) in
    sending ← sendThroughAgent stopReq false;
    settle (catch_ (await sending;; emit (RequestSent req);; mret req)
      (fun err =>
         log "[scout] failed to send stop request request" Error;;
         mret req)).

(** [sendTagRequest] *)
Definition sendTagRequest (req : ScoutRequest.t) (name : string) (val : value)
  : E (promise unit) :=
  if ScoutRequest.isIgnored req then
    log ("[scout] Skipping sending TagRequest for ignored req ["
         +:+ ScoutRequest.id req +:+ "]") Warn;;
    emit (IgnoredRequestProcessingSkipped (inl req));;
    mret (Resolved tt)
  else
    let tagReq := V1TagRequest name val (ScoutRequest.id req) in
    sending ← sendThroughAgent tagReq false;
    settle (catch_ (await sending;; mret tt)
      (fun err => log "[scout] failed to send tag request" Error)).

(** [sendStartSpan] *)
Definition sendStartSpan (span : ScoutSpan.t) : E (promise ScoutSpan.t) :=
  if ScoutSpan.isIgnored span then
    log ("[scout] Skipping sending StartSpan for span [" +:+ ScoutSpan.id span
         +:+ "] of ignored request [" +:+ ScoutSpan.requestId span +:+ "]") Warn;;
    emit (IgnoredRequestProcessingSkipped (inr (ScoutSpan.requestId span)));;
    mret (Resolved span)
  else
    let startSpanReq :=
      V1StartSpan (ScoutSpan.operation span) (ScoutSpan.requestId span)
        (ScoutSpan.id span) (ScoutSpan.parentId span)
        (ScoutSpan.getTimestamp span) in
    sending ← sendThroughAgent startSpanReq false;
    settle (catch_ (await sending;; mret span)
      (fun err =>
         log "[scout] failed to send start span request" Error;;
         mret span)).

(** [sendTagSpan] *)
Definition sendTagSpan (span : ScoutSpan.t) (name : string) (val : value)
  : E (promise unit) :=
  if ScoutSpan.isIgnored span then
    log ("[scout] Skipping sending TagSpan for span [" +:+ ScoutSpan.id span
         +:+ "] of ignored request [" +:+ ScoutSpan.requestId span +:+ "]") Warn;;
    emit (IgnoredRequestProcessingSkipped (inr (ScoutSpan.requestId span)));;
    mret (Resolved tt)
  else
    let tagSpanReq :=
      V1TagSpan name val (ScoutSpan.id span) (ScoutSpan.requestId span) in
    sending ← sendThroughAgent tagSpanReq false;
    settle (catch_ (await sending;; mret tt)
      (fun err =>
         log "[scout] failed to send tag span request" Error;;
         mret tt)).

(** [sendStopSpan] *)
Definition sendStopSpan (span : ScoutSpan.t) : E (promise ScoutSpan.t) :=
  if ScoutSpan.isIgnored span then
    log ("[scout] Skipping sending StartSpan for span [" +:+ ScoutSpan.id span
         +:+ "] of ignored request [" +:+ ScoutSpan.requestId span +:+ "]") Warn;;
    emit (IgnoredRequestProcessingSkipped (inr (ScoutSpan.requestId span)));;
    mret (Resolved span)
  else
    let stopSpanReq :=
      V1StopSpan (ScoutSpan.id span) (ScoutSpan.requestId span)
        (ScoutSpan.getEndTime span) in
    sending ← sendThroughAgent stopSpanReq false;
    settle (catch_ (await sending;; mret span)
      (fun err =>
         log "[scout] failed to send stop span request" Error;;
         mret span)).

(** The calls a program can make on an instance, and the timer. *)
Inductive operation : Type :=
| OpLog (message : string) (level : LogLevel)
| OpGetSocketType
| OpGetSocketPath
| OpGetSocketFilePath
| OpSetup
| OpShutdown
| OpIgnoresPath (path : string)
| OpTransaction (name : string) (cb : DoneCallback W)
| OpStatisticsTick
| OpSendStartRequest (req : ScoutRequest.t)
| OpSendStopRequest (req : ScoutRequest.t)
| OpSendTagRequest (req : ScoutRequest.t) (name : string) (val : value)
| OpSendStartSpan (span : ScoutSpan.t)
| OpSendTagSpan (span : ScoutSpan.t) (name : string) (val : value)
| OpSendStopSpan (span : ScoutSpan.t).

(** The instance after a call, whatever the call returned. *)
Definition after (op : operation) (s : Scout) : Scout :=
  match op with
  | OpLog m l => snd (log m l s)
  | OpGetSocketType => snd (getSocketType s)
  | OpGetSocketPath => snd (getSocketPath s)
  | OpGetSocketFilePath => snd (getSocketFilePath s)
  | OpSetup => snd (setup s)
  | OpShutdown => snd (shutdown s)
  | OpIgnoresPath p => snd (ignoresPath p s)
  | OpTransaction n cb => snd (transaction n cb s)
  | OpStatisticsTick => snd (statisticsTick s)
  | OpSendStartRequest r => snd (sendStartRequest r s)
  | OpSendStopRequest r => snd (sendStopRequest r s)
  | OpSendTagRequest r n v => snd (sendTagRequest r n v s)
  | OpSendStartSpan sp => snd (sendStartSpan sp s)
  | OpSendTagSpan sp n v => snd (sendTagSpan sp n v s)
  | OpSendStopSpan sp => snd (sendStopSpan sp s)
  end.

(** The instances a program can reach from a freshly constructed one. *)
Inductive reachable (config : option Config.Configuration)
    (opts : option ScoutOptions) (w : W) : Scout -> Prop :=
| reachable_new : reachable config opts w (new config opts w)
| reachable_after s op :
    reachable config opts w s -> reachable config opts w (after op s).

End WithWorld.

End Engine.

Arguments Engine.log {W} X R message level s : simpl never.

(** ** The contract of [semver.lt] on plain versions *)

(** A numeric component of a version: digits without a leading zero, within
    the safe integers. *)
Definition plain_number (s : string) : option Z :=
  match s with
  | EmptyString => None
  | String "0" (String _ _) => None
  | _ =>
      match NilEmpty.uint_of_string s with
      | Some u =>
          let n := Z.of_uint u in
          if (n <=? 9007199254740991)%Z then Some n else None
      | None => None
      end
  end.

(** [MAJOR.MINOR.PATCH], with or without a leading [v]. *)
Definition plain_version (s : string) : option (Z * Z * Z) :=
  let body := match s with String "v" rest => rest | _ => s end in
  match split_on "." body with
  | [a; b; c] =>
      match plain_number a, plain_number b, plain_number c with
      | Some x, Some y, Some z => Some (x, y, z)
      | _, _, _ => None
      end
  | _ => None
  end.

(** The order of versions without pre-release tags. *)
Definition version_ltb (u v : Z * Z * Z) : bool :=
  let '(a1, b1, c1) := u in
  let '(a2, b2, c2) := v in
  ((a1 <? a2) || ((a1 =? a2) && ((b1 <? b2) || ((b1 =? b2) && (c1 <? c2)))))%Z.

(** What is assumed of [semver.lt]: on two plain versions it is
    [version_ltb]. *)
Definition semver_lt_on_plain (lt : value -> string -> error + bool) : Prop :=
  forall raw min u v,
    plain_version raw = Some u -> plain_version min = Some v ->
    lt (VStr raw) min = inr (version_ltb u v).

(** ** A sample host, for running the definitions *)

Module Sample.

(** camelCase to UPPER_SNAKE: an underscore before each capital. *)
Fixpoint upper_snake (s : string) : string :=
  match s with
  | EmptyString => EmptyString
  | String a rest =>
      if is_upper a then String "_" (String a (upper_snake rest))
      else String (upper_ascii a) (upper_snake rest)
  end.

(** Modelled from the spec: [convertCamelCaseToEnvVar] of [./util]; the spec
    has the name of the variable as the property name turned from camelCase
    into UPPER_SNAKE and prefixed with [SCOUT_]. *)
Definition convertCamelCaseToEnvVar (prop : string) : string :=
  "SCOUT_" +:+ upper_snake prop.

(** [parseInt] on strings of decimal digits. *)
Definition parseInt (s : string) (radix : Z) : value :=
  match s with
  | EmptyString => VNaN
  | _ =>
      match NilEmpty.uint_of_string s with
      | Some u => VNum (Z.of_uint u)
      | None => VNaN
      end
  end.

Definition LogLevel_value (l : LogLevel) : value :=
  match l with
  | Debug => VStr "debug"
  | Info => VStr "info"
  | Warn => VStr "warn"
  | Error => VStr "error"
  end.

Definition URIReportingLevel_value (u : URIReportingLevel) : value :=
  match u with
  | FilteredParams => VStr "filtered-params"
  | Path => VStr "path"
  | NoReporting => VStr "none"
  end.

(** A 64-bit glibc Linux host with an empty environment. *)
Definition host : Externals :=
  Build_Externals
    convertCamelCaseToEnvVar
    (fun s => VStr (toLowerCase s))
    parseInt
    LogLevel_value
    URIReportingLevel_value
    "x64" "linux" false
    ∅.

(** [path.dirname] and [path.join] on paths that need no normalising. *)
Fixpoint dirname_pieces (l : list string) : list string :=
  match l with
  | [] | [_] => []
  | x :: rest => x :: dirname_pieces rest
  end.

Definition path_dirname (p : string) : string :=
  join "/" (dirname_pieces (split_on "/" p)).

Definition path_join (l : list string) : string := join "/" l.

(** [semver.lt] on plain versions; anything else is refused. *)
Definition semver_lt (raw : value) (min : string) : error + bool :=
  match raw with
  | VStr r =>
      match plain_version r, plain_version min with
      | Some u, Some v => inr (version_ltb u v)
      | _, _ => inl (TypeError "Invalid Version")
      end
  | _ => inl (TypeError "Invalid Version")
  end.

(** [new CoreAgentVersion(v)] on plain versions: the version without its
    leading [v]; anything else is refused. *)
Definition newCoreAgentVersion (v : value) : error + string :=
  match v with
  | VStr r =>
      match plain_version r with
      | Some _ => inr (match r with String "v" rest => rest | _ => r end)
      | None => inl (PlainError ("Invalid version [" +:+ r +:+ "]"))
      end
  | _ => inl (PlainError ("Invalid version [" +:+ to_js_string v +:+ "]"))
  end.

Definition request1 : ScoutRequest.t :=
  {| ScoutRequest.id := "req-1";
     ScoutRequest.isIgnored := false;
     ScoutRequest.getTimestamp := 1000;
     ScoutRequest.getEndTime := 2000 |}.

Definition ignored_request : ScoutRequest.t :=
  {| ScoutRequest.id := "req-2";
     ScoutRequest.isIgnored := true;
     ScoutRequest.getTimestamp := 1000;
     ScoutRequest.getEndTime := 2000 |}.

Definition ignored_span : ScoutSpan.t :=
  {| ScoutSpan.id := "span-1";
     ScoutSpan.requestId := "req-2";
     ScoutSpan.parentId := None;
     ScoutSpan.operation := "Controller/index";
     ScoutSpan.isIgnored := true;
     ScoutSpan.getTimestamp := 1100;
     ScoutSpan.getEndTime := 1900 |}.

(** A world that counts the calls made into it.  The download succeeds or
    not as [download_ok] says; every other call succeeds, every line is
    logged, and [startRequestSync] makes [request1]. *)
Definition runtime (download_ok : bool) : Runtime nat :=
  Build_Runtime nat
    path_join
    path_dirname
    semver_lt
    newCoreAgentVersion
    (fun _ _ => false)
    (fun _ => true)
    "v1.2.7"
    "/tmp/scout_apm_core"
    4242
    (fun _ _ w =>
       (if download_ok
        then Resolved "/tmp/scout_apm_core/scout_apm_core-v1.2.7-x86_64-linux-gnu/core-agent"
        else Rejected (PlainError "download failed"), S w))
    (fun _ w => (Resolved tt, S w))
    (fun _ w => (Resolved tt, S w))
    (fun _ w => (Resolved tt, S w))
    (fun _ w => (Resolved tt, S w))
    (fun _ _ _ w => (inr tt, S w))
    (fun _ _ w => (Resolved VUndefined, S w))
    (fun _ _ w => (Resolved VUndefined, S w))
    (fun _ w => (Resolved true, S w))
    (fun _ w => (Resolved true, S w))
    (fun w => (inr request1, S w))
    (fun w => (inr tt, S w))
    (fun w => S w).

(** A user callback that resolves with ["done"]. *)
Definition callback : DoneCallback nat :=
  fun _ w => (inr (Resolved (VStr "done")), S w).

(** An engine on an object literal, with a log function. *)
Definition engine (o : gmap string value) : Engine.Scout :=
  Engine.new host (runtime true) (Some (Config.PlainObject o))
    (Some {| Engine.opt_logFn := Some {| Engine.logger_level := None |};
             Engine.opt_downloadOptions := None |}) 0.

(** The settings of an engine that launches agent 1.2.7 and monitors. *)
Definition launch_config : gmap string value :=
  list_to_map [("coreAgentVersion", VStr "v1.2.7");
               ("coreAgentLaunch", VBool true);
               ("monitor", VBool true);
               ("logLevel", VStr "debug")].

(** That engine after a [setup] that went through, after a [setup] whose
    download failed, and after a [setup] and a [shutdown]. *)
Definition launched : Engine.Scout :=
  snd (Engine.setup host (runtime true) (engine launch_config)).

Definition failed : Engine.Scout :=
  snd (Engine.setup host (runtime false) (engine launch_config)).

Definition stopped : Engine.Scout :=
  snd (Engine.shutdown host (runtime true) launched).

End Sample.

(** ** Notions used in the statements *)

(** The name of the agent as the specification words it: the version loses
    a leading [v]. *)
Definition strip_leading_v (version : string) : string :=
  match version with
  | String "v" rest => rest
  | _ => version
  end.

Definition spec_coreAgentFullName (version triple : string) : string :=
  "scout_apm_core-" +:+ strip_leading_v version +:+ "-" +:+ triple.

(** The keys of [DEFAULT_SCOUT_CONFIGURATION]. *)
Definition default_keys : list string :=
  ["key"; "name"; "appServer"; "applicationRoot"; "coreAgentDir";
   "coreAgentDownload"; "coreAgentLaunch"; "coreAgentLogLevel";
   "coreAgentPermissions"; "coreAgentVersion"; "disabledInstruments";
   "downloadUrl"; "framework"; "frameworkVersion"; "hostname"; "monitor";
   "revisionSHA"; "scmSubdirectory"; "uriReporting"].

(** What a skipped send comes to: the promise is resolved with [a], nothing
    was handed to the agent, the world was not called, and [ev] is the one
    event emitted. *)
Definition skipped {W A : Type} (m : @Engine.E W A) (a : A) (ev : ScoutEvent)
    (s : Engine.Scout) : Prop :=
  exists s',
    m s = (Engine.Done a, s') /\
    Engine.sent s' = Engine.sent s /\
    Engine.world s' = Engine.world s /\
    Engine.emitted s' = (Engine.emitted s ++ [ev])%list.

(** The first entry of the list that is a prefix of the path, as [find]
    returns it. *)
Definition first_matching (path : string) (prefixes : list string)
  : option string :=
  find (fun prefix => String.prefix prefix path) prefixes.

(** What C6 claims of one call: the result is [true] exactly when some entry
    is a prefix of the path, and the event is emitted exactly when the
    result is [true]. *)
Definition ignoresPath_as_claimed {W : Type} (X : Externals) (R : Runtime W)
    (s : Engine.Scout) (path : string) (prefixes : list string) : Prop :=
  exists b s',
    Engine.ignoresPath X R path s = (Engine.Done b, s') /\
    (b = true <->
     exists prefix, In prefix prefixes /\ String.prefix prefix path = true) /\
    (b = true <->
     Engine.emitted s' = (Engine.emitted s ++ [IgnoredPathDetected path])%list).

(** What a transaction comes to when its request is started with result
    [started] and its callback ends with [result]: the promise the callback
    returned; [undefined] if the callback threw after its request was made;
    a promise that is never settled if it threw without one. *)
Definition transaction_result (started : error + ScoutRequest.t)
    (result : error + promise value) : promise value :=
  match started, result with
  | _, inr p => p
  | inr _, inl _ => Resolved VUndefined
  | inl _, inl _ => Pending
  end.

(** The request handed to the callback. *)
Definition request_of (started : error + ScoutRequest.t)
  : option ScoutRequest.t :=
  match started with
  | inr request => Some request
  | inl _ => None
  end.

(** From [s] to [s'] the agent field is not cleared: if it is [null]
    after, it was [null] before. *)
Definition calm {W : Type} (s s' : @Engine.Scout W) : Prop :=
  Engine.agent s' = AgentNull -> Engine.agent s = AgentNull.

(** A piece of the engine that never clears the agent field. *)
Definition keeps {W A : Type} (m : @Engine.E W A) : Prop :=
  forall s, calm s (snd (m s)).

(** Whether the character occurs in the string. *)
Fixpoint has_char (c : ascii) (s : string) : bool :=
  match s with
  | EmptyString => false
  | String a rest => Ascii.eqb a c || has_char c rest
  end.

(** The strings of the triples built from the two enumerations. *)
Definition enumerated_triples : list string :=
  a ← [X86_64; I686; ArchUnknown];
  p ← [LinuxGNU; LinuxMusl; Darwin; PlatformUnknown];
  [Architecture_str a +:+ "-" +:+ Platform_str p].

(** A piece of the engine all of whose runs are steps of the relation. *)
Definition respects {W A : Type} (rel : @Engine.Scout W -> @Engine.Scout W -> Prop)
    (m : @Engine.E W A) : Prop :=
  forall s, rel s (snd (m s)).


(** What a send helper may return: a promise resolved with [a], or one that
    an agent that never answers leaves unsettled. *)
Definition resolves_or_waits {A : Type} (o : Engine.outcome (promise A)) (a : A)
  : Prop :=
  o = Engine.Done (Resolved a) \/ o = Engine.Done Pending.

(** A send that came to nothing: the promise is resolved with [a], no
    message was handed to the agent, the world was not called and no event
    was emitted. *)
Definition unsent {W A : Type} (m : @Engine.E W (promise A)) (a : A)
    (s : Engine.Scout) : Prop :=
  fst (m s) = Engine.Done (Resolved a) /\
  Engine.sent (snd (m s)) = Engine.sent s /\
  Engine.world (snd (m s)) = Engine.world s /\
  Engine.emitted (snd (m s)) = Engine.emitted s.

(** A send that handed [msg], and nothing else, to the agent. *)
Definition hands_over {W A : Type} (m : @Engine.E W A) (msg : AgentRequest)
    (s : Engine.Scout) : Prop :=
  Engine.sent (snd (m s)) = (Engine.sent s ++ [msg])%list.

(** More of the sample host: a span that is not ignored. *)
Module Fixtures.

Definition span1 : ScoutSpan.t :=
  {| ScoutSpan.id := "span-2";
     ScoutSpan.requestId := "req-1";
     ScoutSpan.parentId := Some "span-1";
     ScoutSpan.operation := "SQL/Query";
     ScoutSpan.isIgnored := false;
     ScoutSpan.getTimestamp := 1200;
     ScoutSpan.getEndTime := 1300 |}.

(** The sample world, with an agent that gives [answer] to [connect]. *)
Definition runtime_connecting (answer : promise unit) : Runtime nat :=
  let r := Sample.runtime true in
  Build_Runtime nat
    (path_join r) (path_dirname r) (semver_lt r) (newCoreAgentVersion r)
    (isIgnoredLogMessage r) (isLogLevel r)
    (DEFAULT_CORE_AGENT_VERSION r) (DEFAULT_CORE_AGENT_DOWNLOAD_CACHE_DIR r)
    (pid r) (download r) (agent_start r)
    (fun _ w => (answer, S w))
    (agent_disconnect r) (agent_stopProcess r)
    (agent_setRegistrationAndMetadata r) (agent_send r) (agent_sendAsync r)
    (pathExists r) (tcpPortUsed r) (startRequestSync r) (setupIntegrations r)
    (setActiveGlobalScoutInstance r).

End Fixtures.

(** From [s] to [s'] the stored promise of [setup] is not replaced: it is
    set once, while there is none. *)
Definition memo {W : Type} (s s' : @Engine.Scout W) : Prop :=
  Engine.settingUp s = None \/ Engine.settingUp s' = Engine.settingUp s.

(** From [s] to [s'] the agent field is the same. *)
Definition same_agent {W : Type} (s s' : @Engine.Scout W) : Prop :=
  Engine.agent s' = Engine.agent s.

(** From [s] to [s'] no user callback was called. *)
Definition same_called {W : Type} (s s' : @Engine.Scout W) : Prop :=
  Engine.called s' = Engine.called s.

(** From [s] to [s'] nothing has changed but the log, the world, and what a
    launch sets: the agent, its options, the path of the binary, the stored
    version and the download options. *)
Definition launching {W : Type} (s s' : @Engine.Scout W) : Prop :=
  Engine.config s' = Engine.config s /\
  Engine.sent s' = Engine.sent s /\
  Engine.emitted s' = Engine.emitted s /\
  Engine.uncaughtExceptionListenerFn s' = Engine.uncaughtExceptionListenerFn s /\
  Engine.processListeners s' = Engine.processListeners s /\
  Engine.statsSendingInterval s' = Engine.statsSendingInterval s /\
  Engine.timerRunning s' = Engine.timerRunning s.

(** The same, without the messages handed to the agent, and with the agent
    field kept. *)
Definition registering {W : Type} (s s' : @Engine.Scout W) : Prop :=
  Engine.config s' = Engine.config s /\
  Engine.agent s' = Engine.agent s /\
  Engine.emitted s' = Engine.emitted s /\
  Engine.uncaughtExceptionListenerFn s' = Engine.uncaughtExceptionListenerFn s /\
  Engine.processListeners s' = Engine.processListeners s /\
  Engine.statsSendingInterval s' = Engine.statsSendingInterval s /\
  Engine.timerRunning s' = Engine.timerRunning s.

(** The messages of a registration: the application, then its metadata. *)
Definition registration_messages {W : Type} (X : Externals) (R : Runtime W)
    (c : Config.Configuration) : list AgentRequest :=
  [V1Register (Engine.or_empty (Config.read X c "name"))
     (Engine.or_empty (Config.read X c "key")) APIVersion_V1;
   Engine.buildAppMetadataEvent R].

(** From [s] to [s'] nothing has changed but the log and the world. *)
Definition idle {W : Type} (s s' : @Engine.Scout W) : Prop :=
  registering s s' /\ Engine.sent s' = Engine.sent s.

(** From [s] to [s'] the hooks of the instance are as they were: the stored
    uncaught-exception listener, the listeners on [process], the statistics
    interval and its timer. *)
Definition unhooked {W : Type} (s s' : @Engine.Scout W) : Prop :=
  Engine.uncaughtExceptionListenerFn s' = Engine.uncaughtExceptionListenerFn s /\
  Engine.processListeners s' = Engine.processListeners s /\
  Engine.statsSendingInterval s' = Engine.statsSendingInterval s /\
  Engine.timerRunning s' = Engine.timerRunning s.

(** With the statistics interval set and its timer stopped in [s], both are
    so in [s']. *)
Definition timer_stays_off {W : Type} (s s' : @Engine.Scout W) : Prop :=
  Engine.statsSendingInterval s = true -> Engine.timerRunning s = false ->
  Engine.statsSendingInterval s' = true /\ Engine.timerRunning s' = false.

(** The instance after a sequence of calls. *)
Definition after_all {W : Type} (X : Externals) (R : Runtime W)
    (ops : list (@Engine.operation W)) (s : Engine.Scout) : Engine.Scout :=
  fold_left (fun s op => Engine.after X R op s) ops s.


(** [m] keeps the hooks whenever it does not return. *)
Definition quiet_unless_done {W A : Type} (m : @Engine.E W A) : Prop :=
  forall s, match m s with
            | (Engine.Done _, _) => True
            | (_, s') => unhooked s s'
            end.

(** [m] keeps the hooks unless its result is [ok]. *)
Definition quiet_unless {W A : Type} (ok : Engine.outcome A -> Prop)
    (m : @Engine.E W A) : Prop :=
  forall s, ok (fst (m s)) \/ unhooked s (snd (m s)).

(** The options of the download, as [downloadAndLaunchAgent] merges them:
    the entries built from the configuration, then the options given to the
    constructor, then the defaults. *)
Definition merged_download_options {W : Type} (X : Externals) (R : Runtime W)
    (s : @Engine.Scout W) : gmap string value :=
  Config.buildDownloadOptions X (Engine.config s)
  ∪ Engine.downloaderOptions s
  ∪ list_to_map [("cacheDir", VStr (path_dirname R (Engine.binPath s)));
                 ("updateCache", VBool true)].

(** From [s] to [s'] the stored version and download options are kept. *)
Definition same_download {W : Type} (s s' : @Engine.Scout W) : Prop :=
  Engine.coreAgentVersion s' = Engine.coreAgentVersion s /\
  Engine.downloaderOptions s' = Engine.downloaderOptions s.

(** From [s] to [s'] the agent, the stored promise of [setup], the listeners
    and the statistics interval are the same, and the timer is as it was or
    has been stopped. *)
Definition settled {W : Type} (s s' : @Engine.Scout W) : Prop :=
  Engine.processListeners s' = Engine.processListeners s /\
  Engine.settingUp s' = Engine.settingUp s /\
  Engine.agent s' = Engine.agent s /\
  Engine.statsSendingInterval s' = Engine.statsSendingInterval s /\
  (Engine.timerRunning s' = Engine.timerRunning s \/
   Engine.timerRunning s' = false).

(** An instance that holds no more than one listener on the process, none
    before [setup] has stored its promise, and whose statistics timer runs
    only with the interval field set and an agent present. *)
Definition tidy {W : Type} (s : @Engine.Scout W) : Prop :=
  Engine.processListeners s <= 1 /\
  (Engine.settingUp s = None -> Engine.processListeners s = 0) /\
  (Engine.timerRunning s = true ->
   Engine.statsSendingInterval s = true /\ Engine.hasAgent s = true).


(** [m] keeps an instance tidy. *)
Definition keeps_tidy {W A : Type} (m : @Engine.E W A) : Prop :=
  forall s, tidy s -> tidy (snd (m s)).

(** What C5 claims of an instance: a defined [socketPath] is used as it is;
    without one, the configured core agent version decides, a Unix socket
    below 1.3.0 and [tcp://127.0.0.1:6590] from 1.3.0 on. *)
Definition socket_selection_as_claimed {W : Type} (X : Externals) (R : Runtime W)
    (s : @Engine.Scout W) : Prop :=
  let configured := Config.read X (Engine.config s) "socketPath" in
  (is_defined configured = true ->
   fst (Engine.socketPath X R s) = Engine.Done configured) /\
  (is_defined configured = false ->
   forall raw v,
     Config.read X (Engine.config s) "coreAgentVersion" = VStr raw ->
     plain_version raw = Some v ->
     if version_ltb v (1, 3, 0)%Z
     then fst (Engine.getSocketType X R s) = Engine.Done Unix
     else fst (Engine.socketPath X R s) = Engine.Done (VStr "tcp://127.0.0.1:6590") /\
          fst (Engine.getSocketType X R s) = Engine.Done TCP).

(** From [s] to [s'] an agent that is present stays the agent. *)
Definition holds_agent {W : Type} (s s' : @Engine.Scout W) : Prop :=
  Engine.hasAgent s = true -> Engine.agent s' = Engine.agent s.

Section LaunchOfSetup.

Context {W : Type} (X : Externals) (R : Runtime W).

Import Engine.

(** The head of [setup], up to the promise of the launch ([doLaunch]). *)
Definition launch_of_setup : @Engine.E W (promise ProcessOptions) :=
  log X R "[scout] setting up scout..." Debug;;
  shouldLaunch ← gets (fun s => Config.read X (config s) "coreAgentLaunch");
  if truthy shouldLaunch then downloadAndLaunchAgent X R
  else createAgentForExistingSocket X R.

End LaunchOfSetup.

(** * Properties *)

(** ** The configuration resolver *)

Section ConfigFacts.

Context (X : Externals).

Lemma bind_is_Some {A B} (m : Config.M A) (f : A -> Config.M B) :
  is_Some m -> (forall a, is_Some (f a)) -> is_Some (m ≫= f).
Proof.
  intros [[[e | a] l] ->] Hf; cbn.
  - eauto.
  - destruct (Hf a) as [[r l'] ->]. eauto.
Qed.

Lemma isValidTriple_is_Some (v : value) : is_Some (Config.isValidTriple v).
Proof.
  unfold Config.isValidTriple.
  destruct (negb (truthy v)); [cbn; eauto |].
  destruct v; cbn; eauto.
  destruct (split_on "-" s); cbn; eauto.
Qed.

Lemma get_loop_is_Some (lookup : ConfigSourceName -> Config.M value) ss :
  (forall s, is_Some (lookup s)) -> is_Some (Config.get_loop lookup ss).
Proof.
  intros Hl. induction ss as [| s ss IH]; cbn; [eauto |].
  apply bind_is_Some; [apply Hl |].
  intros v. destruct (is_defined v); [cbn; eauto | exact IH].
Qed.

(** The Derived source returns once the reads it makes through the proxy
    return. *)
Lemma derived_is_Some logFn (p_get : string -> Config.M value) prop :
  (prop = "socketPath" ->
     is_Some (p_get "coreAgentDir") /\ is_Some (p_get "coreAgentFullName")) ->
  (prop = "coreAgentFullName" ->
     is_Some (p_get "coreAgentTriple") /\ is_Some (p_get "coreAgentVersion")) ->
  is_Some (Config.DerivedConfigSource.getConfigValue X logFn p_get prop).
Proof.
  intros Hs Hf. unfold Config.DerivedConfigSource.getConfigValue.
  destruct (String.eqb_spec prop "socketPath") as [-> | _].
  { destruct Hs as [H1 H2]; [reflexivity |].
    apply bind_is_Some; [exact H1 | intros ?].
    apply bind_is_Some; [exact H2 | intros ?]. cbn; eauto. }
  destruct (String.eqb_spec prop "coreAgentFullName") as [-> | _].
  { destruct Hf as [H1 H2]; [reflexivity |].
    apply bind_is_Some; [exact H1 | intros t].
    apply bind_is_Some; [apply isValidTriple_is_Some | intros valid].
    apply bind_is_Some; [destruct (negb valid && logFn); cbn; eauto | intros _].
    apply bind_is_Some; [exact H2 | intros ?]. cbn; eauto. }
  destruct (String.eqb prop "coreAgentTriple"); cbn; eauto.
Qed.

Lemma lookup_is_Some p (p_get : string -> Config.M value) s prop :
  (prop = "socketPath" ->
     is_Some (p_get "coreAgentDir") /\ is_Some (p_get "coreAgentFullName")) ->
  (prop = "coreAgentFullName" ->
     is_Some (p_get "coreAgentTriple") /\ is_Some (p_get "coreAgentVersion")) ->
  is_Some (Config.getConfigValue X p p_get s prop).
Proof.
  intros Hs Hf. destruct s; cbn; eauto. by apply derived_is_Some.
Qed.

(** Properties that no derived rule builds are read at depth one. *)
Lemma get_is_Some_1 p k prop :
  prop <> "socketPath" -> prop <> "coreAgentFullName" ->
  is_Some (Config.get X (1 + k) p prop).
Proof.
  intros H1 H2. change (1 + k) with (S k).
  cbn [Config.get]. apply get_loop_is_Some. intros s.
  apply lookup_is_Some; intros ->; congruence.
Qed.

Lemma get_is_Some_2 p k prop :
  prop <> "socketPath" -> is_Some (Config.get X (2 + k) p prop).
Proof.
  intros H1. change (2 + k) with (S (1 + k)).
  cbn [Config.get]. apply get_loop_is_Some. intros s.
  apply lookup_is_Some; [intros ->; congruence |].
  intros _. split; apply get_is_Some_1; discriminate.
Qed.

(** Every read through the proxy returns at [Config.full_depth]. *)
Lemma get_is_Some_3 p k prop : is_Some (Config.get X (3 + k) p prop).
Proof.
  change (3 + k) with (S (2 + k)).
  cbn [Config.get]. apply get_loop_is_Some. intros s.
  apply lookup_is_Some; intros _; split;
    first [apply get_is_Some_2; discriminate | apply get_is_Some_1; discriminate].
Qed.

(** The loop stops at the first source whose value is defined. *)
Lemma get_loop_first (lookup : ConfigSourceName -> Config.M value)
    pre s post v logs :
  (forall s', In s' pre -> exists l, lookup s' = Some (inr VUndefined, l)) ->
  lookup s = Some (inr v, logs) -> v <> VUndefined ->
  exists logs', Config.get_loop lookup (pre ++ s :: post) = Some (inr v, logs').
Proof.
  intros Hpre Hs Hv. induction pre as [| s0 pre IH]; cbn.
  - rewrite Hs. cbn. destruct v; try congruence; cbn; eauto.
  - destruct (Hpre s0) as [l Hl]; [by left |]. rewrite Hl. cbn.
    destruct IH as [logs' ->]; [intros; apply Hpre; by right |]. eauto.
Qed.

Lemma get_loop_none (lookup : ConfigSourceName -> Config.M value) ss :
  (forall s, In s ss -> exists l, lookup s = Some (inr VUndefined, l)) ->
  exists logs, Config.get_loop lookup ss = Some (inr VUndefined, logs).
Proof.
  intros Hss. induction ss as [| s ss IH]; cbn; [eauto |].
  destruct (Hss s) as [l Hl]; [by left |]. rewrite Hl. cbn.
  destruct IH as [logs ->]; [intros; apply Hss; by right |]. eauto.
Qed.

(** A thrown error ends the loop where it is thrown. *)
Lemma get_loop_throws (lookup : ConfigSourceName -> Config.M value)
    pre s post e logs :
  (forall s', In s' pre -> exists l, lookup s' = Some (inr VUndefined, l)) ->
  lookup s = Some (inl e, logs) ->
  exists logs', Config.get_loop lookup (pre ++ s :: post) = Some (inl e, logs').
Proof.
  intros Hpre Hs. induction pre as [| s0 pre IH]; cbn.
  - rewrite Hs. cbn. eauto.
  - destruct (Hpre s0) as [l Hl]; [by left |]. rewrite Hl. cbn.
    destruct IH as [logs' ->]; [intros; apply Hpre; by right |]. eauto.
Qed.

End ConfigFacts.

(** C1.  [get(p)] goes through the sources in the order Env, Node, Derived,
    Default.  Every lookup returns.  The value of the first source whose
    lookup is not [undefined] is the value of [get(p)], and when the lookup
    of every source is [undefined], so is [get(p)]. *)
Theorem C1_get_returns_first_defined (X : Externals)
    (p : Config.ScoutConfigurationProxy) (prop : string) (k : nat) :
  let lookup := fun s =>
    Config.getConfigValue X p (Config.get X (2 + k) p) s prop in
  Config.sources = [Env; Node; Derived; Default] /\
  (forall s, is_Some (lookup s)) /\
  is_Some (Config.get X (3 + k) p prop) /\
  (forall pre s post v logs,
     Config.sources = (pre ++ s :: post)%list ->
     (forall s', In s' pre -> exists l, lookup s' = Some (inr VUndefined, l)) ->
     lookup s = Some (inr v, logs) -> v <> VUndefined ->
     exists logs', Config.get X (3 + k) p prop = Some (inr v, logs')) /\
  ((forall s, In s Config.sources ->
      exists l, lookup s = Some (inr VUndefined, l)) ->
   exists logs, Config.get X (3 + k) p prop = Some (inr VUndefined, logs)).
Proof.
  intros lookup. split; [reflexivity |]. split; [| split; [| split]].
  - intros s. apply lookup_is_Some; intros _; split;
      first [apply (get_is_Some_2 X p k); discriminate
            | apply (get_is_Some_1 X p (1 + k)); discriminate].
  - apply get_is_Some_3.
  - intros pre s post v logs Hsrc Hpre Hs Hv.
    change (3 + k) with (S (2 + k)). cbn [Config.get]. rewrite Hsrc.
    by apply get_loop_first with (logs := logs).
  - intros Hall. change (3 + k) with (S (2 + k)). cbn [Config.get].
    by apply get_loop_none.
Qed.

(** C2.  [set(p, v)] returns [true] after writing [v] under [p] in the object
    of the Node source: the Node source then yields [v] for [p], the
    environment of the Env source and the Derived source's log function are
    as before, and the Env and Default sources answer every read as before.
    A write addressed to the Env, Derived or Default source throws
    [NotSupported]. *)
Theorem C2_set_writes_node_only (X : Externals)
    (p : Config.ScoutConfigurationProxy) (prop : string) (v : value) :
  (exists p',
     Config.set p prop v = inr (true, p') /\
     Config.config p' = <[prop := v]> (Config.config p) /\
     Config.NodeConfigSource.getConfigValue (Config.config p') prop = v /\
     Config.env p' = Config.env p /\
     Config.logFn p' = Config.logFn p /\
     (forall q p_get,
        Config.getConfigValue X p' p_get Env q = Config.getConfigValue X p p_get Env q /\
        Config.getConfigValue X p' p_get Default q
          = Config.getConfigValue X p p_get Default q)) /\
  (forall s, s <> Node ->
     exists msg, Config.setConfigValue p s prop v = inl (NotSupported msg)).
Proof.
  split.
  - eexists. split; [reflexivity |]. cbn. repeat split.
    unfold Config.NodeConfigSource.getConfigValue,
      Config.NodeConfigSource.setConfigValue, prop_of.
    by rewrite lookup_insert_eq.
  - intros [] Hs; cbn; eauto. congruence.
Qed.

(** C3, as stated, fails.  On the sample host with nothing configured the
    version resolves to [v1.2.7] and the triple to [x86_64-linux-gnu]; the
    Derived source gives a name that keeps the [v].  And with a triple that
    is not valid and a Derived source without log function, nothing is
    logged. *)
Lemma C3_counterexample_version_keeps_v :
  let p := Config.new Sample.host None None false in
  let q := Config.new Sample.host
             (Some {[ "coreAgentTriple" := VStr "arm64-linux-gnu" ]}) None false in
  (Config.get Sample.host 3 p "coreAgentVersion"
     = Some (inr (VStr "v1.2.7"), []) /\
   Config.get Sample.host 3 p "coreAgentTriple"
     = Some (inr (VStr "x86_64-linux-gnu"), []) /\
   Config.getConfigValue Sample.host p (Config.get Sample.host 2 p) Derived
       "coreAgentFullName"
     = Some (inr (VStr "scout_apm_core-v1.2.7-x86_64-linux-gnu"), []) /\
   Config.getConfigValue Sample.host p (Config.get Sample.host 2 p) Derived
       "coreAgentFullName"
     <> Some (inr (VStr (spec_coreAgentFullName "v1.2.7" "x86_64-linux-gnu")), [])) /\
  (Config.isValidTriple (VStr "arm64-linux-gnu") = Some (inr false, []) /\
   Config.getConfigValue Sample.host q (Config.get Sample.host 2 q) Derived
       "coreAgentFullName"
     = Some (inr (VStr "scout_apm_core-v1.2.7-arm64-linux-gnu"), [])).
Proof.
  cbv zeta. split.
  - split; [vm_compute; reflexivity |].
    split; [vm_compute; reflexivity |].
    split; [vm_compute; reflexivity |].
    vm_compute. intros H. discriminate H.
  - split; vm_compute; reflexivity.
Qed.

(** C3, amended.  When the proxy resolves [coreAgentTriple] to the string
    [triple] and [coreAgentVersion] to the string [version], the Derived
    source gives [coreAgentFullName] as
    [scout_apm_core-{version}-{triple}], with the version as it is.  When the
    triple is not valid, a warning is logged if the source has a log
    function, and the same string is produced. *)
Theorem C3_derived_coreAgentFullName (X : Externals)
    (p : Config.ScoutConfigurationProxy) (k : nat)
    (version triple : string) (l1 l2 : list LogEntry) :
  Config.get X (S k) p "coreAgentTriple" = Some (inr (VStr triple), l1) ->
  Config.get X (S k) p "coreAgentVersion" = Some (inr (VStr version), l2) ->
  exists valid,
    Config.isValidTriple (VStr triple) = Some (inr valid, []) /\
    Config.getConfigValue X p (Config.get X (S k) p) Derived "coreAgentFullName"
      = Some (inr (VStr ("scout_apm_core-" +:+ version +:+ "-" +:+ triple)),
              (l1 ++ (if negb valid && Config.logFn p
                      then [("Invalid value for core_agent_triple: ["
                             +:+ triple +:+ "]", Warn)]
                      else []) ++ l2)%list).
Proof.
  intros Ht Hv.
  assert (exists valid, Config.isValidTriple (VStr triple) = Some (inr valid, []))
    as [valid Hvalid].
  { unfold Config.isValidTriple.
    destruct (negb (truthy (VStr triple))); [cbn; eauto |].
    destruct (split_on "-" triple); cbn; eauto. }
  exists valid. split; [exact Hvalid |].
  cbn [Config.getConfigValue].
  unfold Config.DerivedConfigSource.getConfigValue.
  change (String.eqb "coreAgentFullName" "socketPath") with false.
  change (String.eqb "coreAgentFullName" "coreAgentFullName") with true.
  cbv iota. rewrite Ht. cbn -[Config.isValidTriple Config.get String.append].
  rewrite Hvalid. cbn -[Config.get String.append].
  destruct (negb valid && Config.logFn p);
    cbn -[Config.get String.append]; rewrite Hv;
    cbn -[String.append]; rewrite ?app_nil_r; reflexivity.
Qed.

Lemma C3_derived_coreAgentFullName_witness :
  exists valid,
    Config.isValidTriple (VStr "x86_64-linux-gnu") = Some (inr valid, []) /\
    Config.getConfigValue Sample.host (Config.new Sample.host None None true)
        (Config.get Sample.host 2 (Config.new Sample.host None None true))
        Derived "coreAgentFullName"
      = Some (inr (VStr ("scout_apm_core-" +:+ "v1.2.7" +:+ "-"
                         +:+ "x86_64-linux-gnu")),
              ([] ++ (if negb valid
                         && Config.logFn (Config.new Sample.host None None true)
                      then [("Invalid value for core_agent_triple: ["
                             +:+ "x86_64-linux-gnu" +:+ "]", Warn)]
                      else []) ++ [])%list).
Proof.
  apply (C3_derived_coreAgentFullName Sample.host
           (Config.new Sample.host None None true) 1
           "v1.2.7" "x86_64-linux-gnu" [] []);
    vm_compute; reflexivity.
Defined.

(** An invalid triple still gives a name, and the warning when there is a
    log function. *)
Example derived_full_name_invalid_triple :
  let p := Config.new Sample.host (Some {[ "coreAgentTriple" := VStr "arm64-linux-gnu" ]})
             None true in
  Config.get Sample.host 3 p "coreAgentFullName"
  = Some (inr (VStr "scout_apm_core-v1.2.7-arm64-linux-gnu"),
          [("Invalid value for core_agent_triple: [arm64-linux-gnu]", Warn)]).
Proof. vm_compute. reflexivity. Qed.

(** C4, as stated, fails: the default of [coreAgentPermissions] is the
    number 700, not octal 0700, which is 448. *)
Lemma C4_counterexample_permissions_decimal :
  Config.DefaultConfigSource.getConfigValue Sample.host "coreAgentPermissions"
    = VNum 700 /\
  Config.DefaultConfigSource.getConfigValue Sample.host "coreAgentPermissions"
    <> VNum (7 * 8 * 8 + 0 * 8 + 0).
Proof.
  split; [vm_compute; reflexivity |]. vm_compute. intros H. discriminate H.
Qed.

(** C4, amended.  The Default source holds these values:
    [coreAgentDownload] and [coreAgentLaunch] are [true], [coreAgentLogLevel]
    is [Info], [coreAgentPermissions] is the number 700 (written in decimal),
    [coreAgentVersion] is ["v1.2.7"], [downloadUrl] is the release URL,
    [uriReporting] is [FilteredParams], [monitor] is [false], [revisionSHA]
    is the value of [HEROKU_SLUG_COMMIT] or [""]; the remaining keys of the
    table are empty strings, an empty list and [null], and every other
    property is [undefined]. *)
Theorem C4_default_values (X : Externals) :
  let d := Config.DefaultConfigSource.getConfigValue X in
  d "coreAgentDownload" = VBool true /\
  d "coreAgentLaunch" = VBool true /\
  d "coreAgentLogLevel" = LogLevel_value X Info /\
  d "coreAgentPermissions" = VNum 700 /\
  d "coreAgentVersion" = VStr "v1.2.7" /\
  d "downloadUrl"
    = VStr "https://s3-us-west-1.amazonaws.com/scout-public-downloads/apm_core_agent/release" /\
  d "uriReporting" = URIReportingLevel_value X FilteredParams /\
  d "monitor" = VBool false /\
  d "revisionSHA" = VStr (default "" (process_env X !! "HEROKU_SLUG_COMMIT")) /\
  (forall k, In k ["key"; "name"; "appServer"; "applicationRoot"; "coreAgentDir";
                   "framework"; "frameworkVersion"; "scmSubdirectory"] ->
             d k = VStr "") /\
  d "disabledInstruments" = VArr [] /\
  d "hostname" = VNull /\
  (forall k, ~ In k default_keys -> d k = VUndefined).
Proof.
  intros d. unfold d, Config.DefaultConfigSource.getConfigValue, prop_of.
  repeat match goal with
         | |- _ /\ _ => split
         end; try reflexivity.
  - unfold Config.DEFAULT_SCOUT_CONFIGURATION.
    destruct (process_env X !! "HEROKU_SLUG_COMMIT") as [sha |] eqn:Hsha.
    + destruct (String.eqb_spec sha "") as [-> | _]; reflexivity.
    + reflexivity.
  - intros k Hk. cbn in Hk.
    repeat (destruct Hk as [<- | Hk]; [reflexivity |]). destruct Hk.
  - intros k Hk.
    assert (Config.DEFAULT_SCOUT_CONFIGURATION X !! k = None) as ->; [| reflexivity].
    apply not_elem_of_list_to_map_1. rewrite list_elem_of_In. exact Hk.
Qed.

(** ** String facts *)

Lemma prefix_empty (s : string) : String.prefix "" s = true.
Proof. destruct s; reflexivity. Qed.

(** [path.indexOf(prefix) === 0] says that [prefix] is a prefix of [path]. *)
Lemma indexOf_zero_iff_prefix (path prefix : string) :
  (indexOf path prefix =? 0)%Z = String.prefix prefix path.
Proof.
  unfold indexOf. destruct path as [| a path]; cbn [String.index].
  - destruct prefix; reflexivity.
  - destruct (String.prefix prefix (String a path)); [reflexivity |].
    destruct (String.index 0 prefix path); [| reflexivity].
    apply Z.eqb_neq. lia.
Qed.

(** ** The engine *)

Section EngineFacts.

Context {W : Type} (X : Externals) (R : Runtime W).

Import Engine.

Abbreviation Scout := (@Engine.Scout W).

Lemma set_logged_same (s : Scout) : set_logged (logged s) s = s.
Proof. destruct s; reflexivity. Qed.

(** [log] returns, and changes nothing but the lines logged. *)
Lemma log_run (message : string) (level : LogLevel) (s : Scout) :
  exists ls, log X R message level s = (Done tt, set_logged ls s).
Proof.
  unfold log. destruct (logFn s).
  - destruct (negb _); [exists (logged s); by rewrite set_logged_same |].
    destruct (isIgnoredLogMessage _ _ _);
      [exists (logged s); by rewrite set_logged_same | eauto].
  - exists (logged s). by rewrite set_logged_same.
Qed.

End EngineFacts.

(** C7.  For a request and a span that are ignored, each of the six send
    helpers returns a resolved promise, hands no message to the agent, makes
    no call into the world, and emits one [IgnoredRequestProcessingSkipped]
    event; the event carries the request for the request helpers and the
    request id for the span helpers. *)
Theorem C7_ignored_sends_are_skipped {W : Type} (X : Externals) (R : Runtime W)
    (s : Engine.Scout) (req : ScoutRequest.t) (span : ScoutSpan.t)
    (name : string) (val : value) :
  ScoutRequest.isIgnored req = true ->
  ScoutSpan.isIgnored span = true ->
  skipped (Engine.sendStartRequest X R req) (Resolved req)
    (IgnoredRequestProcessingSkipped (inl req)) s /\
  skipped (Engine.sendStopRequest X R req) (Resolved req)
    (IgnoredRequestProcessingSkipped (inl req)) s /\
  skipped (Engine.sendTagRequest X R req name val) (Resolved tt)
    (IgnoredRequestProcessingSkipped (inl req)) s /\
  skipped (Engine.sendStartSpan X R span) (Resolved span)
    (IgnoredRequestProcessingSkipped (inr (ScoutSpan.requestId span))) s /\
  skipped (Engine.sendTagSpan X R span name val) (Resolved tt)
    (IgnoredRequestProcessingSkipped (inr (ScoutSpan.requestId span))) s /\
  skipped (Engine.sendStopSpan X R span) (Resolved span)
    (IgnoredRequestProcessingSkipped (inr (ScoutSpan.requestId span))) s.
Proof.
  intros Hreq Hspan.
  unfold skipped, Engine.sendStartRequest, Engine.sendStopRequest,
    Engine.sendTagRequest, Engine.sendStartSpan, Engine.sendTagSpan,
    Engine.sendStopSpan.
  rewrite Hreq, Hspan. unfold mbind, Engine.E_bind.
  repeat split_and;
    match goal with
    | |- context [Engine.log X R ?m ?l s] =>
        destruct (log_run X R m l s) as [ls ->]
    end;
    eexists; repeat split; reflexivity.
Qed.

Lemma C7_ignored_sends_are_skipped_witness :
  ScoutRequest.isIgnored Sample.ignored_request = true /\
  ScoutSpan.isIgnored Sample.ignored_span = true /\
  skipped (Engine.sendStartRequest Sample.host (Sample.runtime true)
             Sample.ignored_request)
    (Resolved Sample.ignored_request)
    (IgnoredRequestProcessingSkipped (inl Sample.ignored_request))
    (Sample.engine ∅).
Proof.
  split; [reflexivity |]. split; [reflexivity |].
  apply (C7_ignored_sends_are_skipped Sample.host (Sample.runtime true)
           (Sample.engine ∅) Sample.ignored_request Sample.ignored_span
           "tag" (VStr "value")); reflexivity.
Defined.

Section IgnoredPaths.

Context {W : Type} (X : Externals) (R : Runtime W).

Import Engine.

Lemma find_indexOf_prefix (path : string) (prefixes : list string) :
  find (fun prefix => (indexOf path prefix =? 0)%Z) prefixes
  = first_matching path prefixes.
Proof.
  unfold first_matching. induction prefixes as [| x l IH]; [reflexivity |].
  cbn [find]. rewrite indexOf_zero_iff_prefix, IH. reflexivity.
Qed.

Lemma first_matching_Some_iff (path : string) (prefixes : list string) :
  is_Some (first_matching path prefixes) <->
  exists prefix, In prefix prefixes /\ String.prefix prefix path = true.
Proof.
  unfold first_matching. split.
  - intros [m Hm]. apply find_some in Hm. eauto.
  - intros [prefix [Hin Hp]].
    destruct (find _ prefixes) as [m |] eqn:Hf; [eauto |].
    apply (find_none _ _ Hf) in Hin. cbn in Hin. congruence.
Qed.

(** The result of [ignoresPath] on a list of prefixes: [true] exactly when
    some entry is a prefix of the path. *)
Lemma ignoresPath_result (s : Scout) (path : string) (prefixes : list string) :
  Config.read X (config s) "ignore" = VArr prefixes ->
  exists b s',
    ignoresPath X R path s = (Done b, s') /\
    (b = true <->
     exists prefix, In prefix prefixes /\ String.prefix prefix path = true).
Proof.
  intros Hig. unfold ignoresPath, mbind, E_bind.
  destruct (log_run X R "[scout] checking path [${path}] against ignored paths"
              Debug s) as [ls ->].
  cbn. rewrite Hig. cbn.
  destruct prefixes as [| x l].
  { cbn. do 2 eexists. split; [reflexivity |].
    split; [discriminate | intros [? [[] _]]]. }
  cbn [length Nat.eqb]. rewrite find_indexOf_prefix.
  pose proof (first_matching_Some_iff path (x :: l)) as Hiff.
  destruct (first_matching path (x :: l)) as [m |].
  - assert (exists prefix, In prefix (x :: l) /\ String.prefix prefix path = true)
      as Hex by (apply Hiff; eauto).
    destruct (negb (String.eqb m "")).
    + match goal with
      | |- context [log X R ?msg ?l ?s0] =>
          destruct (log_run X R msg l s0) as [ls' ->]
      end.
      cbn. do 2 eexists. split; [reflexivity |]. split; eauto.
    + cbn. do 2 eexists. split; [reflexivity |]. split; eauto.
  - cbn. do 2 eexists. split; [reflexivity |].
    split; [discriminate |].
    intros Hex. apply Hiff in Hex. destruct Hex as [? ?]. discriminate.
Qed.

(** Without a list, or with a falsy value in its place, nothing is ignored
    and nothing is emitted. *)
Lemma ignoresPath_without_list (s : Scout) (path : string) :
  truthy (Config.read X (config s) "ignore") = false ->
  exists s',
    ignoresPath X R path s = (Done false, s') /\ emitted s' = emitted s.
Proof.
  intros Hig. unfold ignoresPath, mbind, E_bind.
  destruct (log_run X R "[scout] checking path [${path}] against ignored paths"
              Debug s) as [ls ->].
  cbn. rewrite Hig. cbn. eauto.
Qed.

(** The event goes out when the first matching entry is a non-empty string,
    and only then. *)
Lemma ignoresPath_event (s : Scout) (path : string) (prefixes : list string) :
  Config.read X (config s) "ignore" = VArr prefixes ->
  exists b s',
    ignoresPath X R path s = (Done b, s') /\
    emitted s' =
      match first_matching path prefixes with
      | Some (String _ _) => (emitted s ++ [IgnoredPathDetected path])%list
      | Some EmptyString | None => emitted s
      end.
Proof.
  intros Hig. unfold ignoresPath, mbind, E_bind.
  destruct (log_run X R "[scout] checking path [${path}] against ignored paths"
              Debug s) as [ls ->].
  cbn. rewrite Hig. cbn.
  destruct prefixes as [| x l]; [cbn; eauto |].
  cbn [length Nat.eqb]. rewrite find_indexOf_prefix.
  destruct (first_matching path (x :: l)) as [[| a m] |]; cbn; eauto.
  match goal with
  | |- context [log X R ?msg ?l ?s0] =>
      destruct (log_run X R msg l s0) as [ls' ->]
  end.
  cbn. eauto.
Qed.

End IgnoredPaths.

(** C6: the code at the failing input.  The list of prefixes holds one
    empty string.  [ignoresPath("/api")] returns [true], as the empty string
    is a prefix of every path, and emits nothing; so what C6 claims does not
    hold of this call. *)
Theorem C6_empty_prefix_ignored_without_event :
  let s := Sample.engine {[ "ignore" := VArr [""] ]} in
  Config.read Sample.host (Engine.config s) "ignore" = VArr [""] /\
  String.prefix "" "/api" = true /\
  fst (Engine.ignoresPath Sample.host (Sample.runtime true) "/api" s)
    = Engine.Done true /\
  Engine.emitted (snd (Engine.ignoresPath Sample.host (Sample.runtime true) "/api" s))
    = [] /\
  ~ ignoresPath_as_claimed Sample.host (Sample.runtime true) s "/api" [""].
Proof.
  cbv zeta. split; [vm_compute; reflexivity |].
  split; [reflexivity |].
  split; [vm_compute; reflexivity |].
  split; [vm_compute; reflexivity |].
  intros (b & s' & Hrun & Hb & Hev).
  assert (b = true) as ->.
  { apply Hb. exists "". split; [by left | reflexivity]. }
  assert (Engine.emitted s' = []) as He.
  { apply (f_equal snd) in Hrun. cbn [snd] in Hrun. rewrite <- Hrun.
    vm_compute. reflexivity. }
  destruct Hev as [Hev _]. specialize (Hev eq_refl).
  rewrite He in Hev. vm_compute in Hev. discriminate Hev.
Qed.

(** Such a list is what the Env source makes of an empty [SCOUT_IGNORE], and
    of a doubled or trailing comma; the engine on the proxy then ignores
    every path without an event. *)
Example ignore_from_environment :
  let config env := Config.buildScoutConfiguration Sample.host None (Some env) false in
  let s := Engine.new Sample.host (Sample.runtime true)
             (Some (config {[ "SCOUT_IGNORE" := "" ]})) None 0 in
  Config.read Sample.host (config {[ "SCOUT_IGNORE" := "" ]}) "ignore"
    = VArr [""] /\
  Config.read Sample.host (config {[ "SCOUT_IGNORE" := "/health,,/ping" ]}) "ignore"
    = VArr ["/health"; ""; "/ping"] /\
  fst (Engine.ignoresPath Sample.host (Sample.runtime true) "/api" s)
    = Engine.Done true /\
  Engine.emitted (snd (Engine.ignoresPath Sample.host (Sample.runtime true) "/api" s))
    = [].
Proof. vm_compute. repeat split; reflexivity. Qed.

(** The scenario of the specification: [/health] is ignored, with the
    event; [/api] is not. *)
Example ignoresPath_health :
  let s := Sample.engine {[ "ignore" := VArr ["/health"] ]} in
  let r1 := Engine.ignoresPath Sample.host (Sample.runtime true) "/health/live" s in
  let r2 := Engine.ignoresPath Sample.host (Sample.runtime true) "/api" s in
  fst r1 = Engine.Done true /\
  Engine.emitted (snd r1) = [IgnoredPathDetected "/health/live"] /\
  fst r2 = Engine.Done false /\
  Engine.emitted (snd r2) = [].
Proof. vm_compute. repeat split; reflexivity. Qed.

(** ** The socket *)

Lemma Sample_semver_lt_on_plain : semver_lt_on_plain Sample.semver_lt.
Proof.
  intros raw min u v Hu Hv. unfold Sample.semver_lt. by rewrite Hu, Hv.
Qed.

(** The selection, once the instance holds a version.  Let [semver.lt]
    order plain versions as [version_ltb].  If [config.socketPath] is truthy,
    the engine uses it as it is, and a string is a TCP socket when it starts
    with [tcp://], a Unix socket otherwise.  If it is not, and the instance
    holds the [raw] string of a plain version: below 1.3.0 the socket is the
    file [core-agent.sock] in the directory of the agent binary, a Unix
    socket; from 1.3.0 on it is [tcp://127.0.0.1:6590], a TCP socket.
    Nothing in the instance changes. *)
Lemma socket_selection_with_stored_version {W : Type} (X : Externals) (R : Runtime W)
    (s : Engine.Scout) :
  semver_lt_on_plain (semver_lt R) ->
  let configured := Config.read X (Engine.config s) "socketPath" in
  (truthy configured = true ->
   Engine.socketPath X R s = (Engine.Done configured, s) /\
   forall p, configured = VStr p ->
     Engine.getSocketType X R s
     = (Engine.Done (if startsWith p "tcp://" then TCP else Unix), s)) /\
  (truthy configured = false ->
   forall raw v,
     Engine.coreAgentVersion s = Some (VStr raw) ->
     plain_version raw = Some v ->
     (version_ltb v (1, 3, 0)%Z = true ->
      Engine.socketPath X R s
        = (Engine.Done (VStr (path_join R [path_dirname R (Engine.binPath s);
                                           "core-agent.sock"])), s) /\
      (startsWith (path_join R [path_dirname R (Engine.binPath s);
                                "core-agent.sock"]) "tcp://" = false ->
       Engine.getSocketType X R s = (Engine.Done Unix, s))) /\
     (version_ltb v (1, 3, 0)%Z = false ->
      Engine.socketPath X R s = (Engine.Done (VStr "tcp://127.0.0.1:6590"), s) /\
      Engine.getSocketType X R s = (Engine.Done TCP, s))).
Proof.
  intros Hsemver configured. split.
  - intros Ht.
    assert (Engine.socketPath X R s = (Engine.Done configured, s)) as Hsp.
    { unfold Engine.socketPath. fold configured. by rewrite Ht. }
    split; [exact Hsp |].
    intros p Hp. unfold Engine.getSocketType, mbind, Engine.E_bind.
    rewrite Hsp, Hp. by destruct (startsWith p "tcp://").
  - intros Hf raw v Hraw Hv.
    assert (semver_lt R (VStr raw) CORE_AGENT_TCP_SOCKET_MIN_VERSION
            = inr (version_ltb v (1, 3, 0)%Z)) as Hlt.
    { by apply Hsemver. }
    split; intros Hcmp.
    + assert (Engine.socketPath X R s
              = (Engine.Done (VStr (Engine.getDefaultSocketFilePath R s)), s))
        as Hsp.
      { unfold Engine.socketPath. fold configured.
        by rewrite Hf, Hraw, Hlt, Hcmp. }
      split; [exact Hsp |].
      intros Hunix. unfold Engine.getSocketType, mbind, Engine.E_bind.
      rewrite Hsp. unfold Engine.getDefaultSocketFilePath.
      change DEFAULT_SOCKET_FILE_NAME with "core-agent.sock".
      by rewrite Hunix.
    + assert (Engine.socketPath X R s
              = (Engine.Done (VStr "tcp://127.0.0.1:6590"), s)) as Hsp.
      { unfold Engine.socketPath. fold configured.
        by rewrite Hf, Hraw, Hlt, Hcmp. }
      split; [exact Hsp |].
      unfold Engine.getSocketType, mbind, Engine.E_bind. by rewrite Hsp.
Qed.

(** Before [downloadAndLaunchAgent] has stored the version, an instance
    without a truthy [socketPath] has no socket: the getter throws.  A fresh
    instance is in that state. *)
Lemma socketPath_without_version {W : Type} (X : Externals) (R : Runtime W)
    (s : Engine.Scout) :
  truthy (Config.read X (Engine.config s) "socketPath") = false ->
  Engine.coreAgentVersion s = None ->
  Engine.socketPath X R s
  = (Engine.Fail (TypeError "Cannot read property 'raw' of undefined"), s).
Proof. intros Hf Hv. unfold Engine.socketPath. by rewrite Hf, Hv. Qed.

Lemma new_without_version {W : Type} (X : Externals) (R : Runtime W)
    config opts (w : W) :
  Engine.coreAgentVersion (Engine.new X R config opts w) = None.
Proof. reflexivity. Qed.

(** After a setup that launched agent 1.2.7 the instance holds the version,
    and the socket is the file next to the binary; an empty string for
    [socketPath] is not used. *)
Example socket_selection_on_launched :
  let launched :=
    snd (Engine.setup Sample.host (Sample.runtime true)
           (Sample.engine (list_to_map [("socketPath", VStr "");
                                        ("coreAgentVersion", VStr "v1.2.7");
                                        ("coreAgentLaunch", VBool true)]))) in
  Engine.coreAgentVersion launched = Some (VStr "1.2.7") /\
  fst (Engine.socketPath Sample.host (Sample.runtime true) launched)
  = Engine.Done
      (VStr "/tmp/scout_apm_core/scout_apm_core-v1.2.7-x86_64-linux-gnu/core-agent.sock") /\
  fst (Engine.getSocketType Sample.host (Sample.runtime true) launched)
  = Engine.Done Unix.
Proof. vm_compute. repeat split; reflexivity. Qed.

(** C5: the code at the failing input.  The engine is configured with core
    agent version 1.2.7, below 1.3.0, with no [socketPath], and is to attach
    to a running agent ([coreAgentLaunch] false).  C5 has it use a Unix
    socket.  The socket getter reads the version from the field of the
    instance, which only [downloadAndLaunchAgent] assigns: on this engine the
    field is unassigned, every socket getter throws a [TypeError], and so
    does [setup], before it has made an agent.  The same holds of a freshly
    constructed engine configured with version 1.3.0, for which C5 has
    [tcp://127.0.0.1:6590]. *)
Theorem C5_socket_getter_throws_without_stored_version :
  let attach :=
    Sample.engine (list_to_map [("coreAgentVersion", VStr "v1.2.7");
                                ("coreAgentLaunch", VBool false)]) in
  let newer := Sample.engine (list_to_map [("coreAgentVersion", VStr "v1.3.0")]) in
  let thrown : Engine.outcome value :=
    Engine.Fail (TypeError "Cannot read property 'raw' of undefined") in
  (Config.read Sample.host (Engine.config attach) "socketPath" = VUndefined /\
   Config.read Sample.host (Engine.config attach) "coreAgentVersion" = VStr "v1.2.7" /\
   plain_version "v1.2.7" = Some (1, 2, 7)%Z /\
   version_ltb (1, 2, 7)%Z (1, 3, 0)%Z = true /\
   Engine.coreAgentVersion attach = None) /\
  (fst (Engine.socketPath Sample.host (Sample.runtime true) attach) = thrown /\
   fst (Engine.getSocketType Sample.host (Sample.runtime true) attach)
   = Engine.Fail (TypeError "Cannot read property 'raw' of undefined") /\
   fst (Engine.getSocketPath Sample.host (Sample.runtime true) attach) = thrown /\
   fst (Engine.getSocketFilePath Sample.host (Sample.runtime true) attach) = thrown) /\
  (fst (Engine.setup Sample.host (Sample.runtime true) attach)
   = Engine.Fail (TypeError "Cannot read property 'raw' of undefined") /\
   Engine.hasAgent (snd (Engine.setup Sample.host (Sample.runtime true) attach))
   = false) /\
  (Config.read Sample.host (Engine.config newer) "socketPath" = VUndefined /\
   plain_version "v1.3.0" = Some (1, 3, 0)%Z /\
   version_ltb (1, 3, 0)%Z (1, 3, 0)%Z = false /\
   fst (Engine.socketPath Sample.host (Sample.runtime true) newer) = thrown) /\
  ~ socket_selection_as_claimed Sample.host (Sample.runtime true) attach /\
  ~ socket_selection_as_claimed Sample.host (Sample.runtime true) newer.
Proof.
  cbv zeta.
  split; [repeat split; vm_compute; reflexivity |].
  split; [repeat split; vm_compute; reflexivity |].
  split; [split; vm_compute; reflexivity |].
  split; [repeat split; vm_compute; reflexivity |].
  split.
  - intros [_ Hclaimed].
    specialize (Hclaimed ltac:(vm_compute; reflexivity) "v1.2.7" (1, 2, 7)%Z
                  ltac:(vm_compute; reflexivity) ltac:(vm_compute; reflexivity)).
    vm_compute in Hclaimed. discriminate Hclaimed.
  - intros [_ Hclaimed].
    specialize (Hclaimed ltac:(vm_compute; reflexivity) "v1.3.0" (1, 3, 0)%Z
                  ltac:(vm_compute; reflexivity) ltac:(vm_compute; reflexivity)).
    vm_compute in Hclaimed. destruct Hclaimed as [Hclaimed _].
    discriminate Hclaimed.
Qed.

(** ** Shutdown *)

Section Lifecycle.

Context {W : Type} (X : Externals) (R : Runtime W).

Import Engine.

Ltac run_log :=
  match goal with
  | |- context [log X R ?m ?l ?s] =>
      let ls := fresh "ls" in
      destruct (log_run X R m l s) as [ls ->]; cbn
  end.

(** Without an agent, [shutdown] rejects with [NoAgentPresent]; it leaves the
    agent field, the events, the messages and the world as they were. *)
Lemma shutdown_without_agent (s : Scout) :
  hasAgent s = false ->
  exists s',
    shutdown X R s = (Done (Rejected NoAgentPresent), s') /\
    agent s' = agent s /\
    emitted s' = emitted s /\
    world s' = world s /\
    sent s' = sent s.
Proof.
  intros Hno. unfold shutdown, stopSendingStatistics, mbind, E_bind. cbn.
  unfold hasAgent in Hno.
  destruct (statsSendingInterval s) eqn:Hst; cbn; rewrite ?Hst; cbn.
  - run_log. destruct (agent s) eqn:Ha; try discriminate;
      run_log; (eexists; split; [reflexivity |]); cbn; by rewrite Ha.
  - destruct (agent s) eqn:Ha; try discriminate;
      run_log; (eexists; split; [reflexivity |]); cbn; by rewrite Ha.
Qed.

(** A [shutdown] that resolves has cleared the agent and emitted
    [Shutdown]. *)
Lemma shutdown_resolved (s s1 : Scout) :
  shutdown X R s = (Done (Resolved tt), s1) ->
  isShutdown s1 = true /\ In Shutdown (emitted s1).
Proof.
  unfold shutdown, stopSendingStatistics, mbind, E_bind. cbn.
  destruct (statsSendingInterval s) eqn:Hst; cbn; rewrite ?Hst; cbn;
    try run_log;
    (destruct (agent s) as [| | a] eqn:Ha;
     [run_log; intros H; discriminate H
     | run_log; intros H; discriminate H |]);
    unfold call, settle, await, mbind, E_bind; cbn;
    destruct (uncaughtExceptionListenerFn s); cbn;
    destruct (agent_disconnect R a _) as [[[] | e |] w]; cbn; rewrite ?Ha; cbn;
    try (intros H; discriminate H);
    destruct (truthy _); cbn;
    try destruct (agent_stopProcess R a w) as [[[] | e |] w']; cbn;
    intros H; inversion H; subst; cbn;
    (split; [reflexivity | apply in_or_app; right; by left]).
Qed.

End Lifecycle.

(** C8, as stated, fails.  On the sample engine a first [shutdown] resolves
    and leaves [isShutdown()] true; the second [shutdown] does not return
    successfully, it rejects with [NoAgentPresent]. *)
Lemma C8_counterexample_second_shutdown_rejects :
  fst (Engine.shutdown Sample.host (Sample.runtime true) Sample.launched)
    = Engine.Done (Resolved tt) /\
  Engine.isShutdown Sample.stopped = true /\
  fst (Engine.shutdown Sample.host (Sample.runtime true) Sample.stopped)
    = Engine.Done (Rejected NoAgentPresent) /\
  fst (Engine.shutdown Sample.host (Sample.runtime true) Sample.stopped)
    <> Engine.Done (Resolved tt).
Proof.
  split; [vm_compute; reflexivity |]. split; [vm_compute; reflexivity |].
  split; [vm_compute; reflexivity |]. vm_compute. intros H. discriminate H.
Qed.

(** C8, amended.  After one [shutdown()] has completed, [isShutdown()] is
    true, and every later [shutdown()] rejects with [NoAgentPresent]: it
    leaves [isShutdown()] true, emits nothing, sends nothing and makes no
    call into the world. *)
Theorem C8_shutdown_after_shutdown {W : Type} (X : Externals) (R : Runtime W)
    (s s1 : Engine.Scout) :
  Engine.shutdown X R s = (Engine.Done (Resolved tt), s1) ->
  Engine.isShutdown s1 = true /\
  exists s2,
    Engine.shutdown X R s1 = (Engine.Done (Rejected NoAgentPresent), s2) /\
    Engine.isShutdown s2 = true /\
    Engine.emitted s2 = Engine.emitted s1 /\
    Engine.sent s2 = Engine.sent s1 /\
    Engine.world s2 = Engine.world s1.
Proof.
  intros Hfirst. destruct (shutdown_resolved X R s s1 Hfirst) as [Hdown _].
  split; [exact Hdown |].
  destruct (shutdown_without_agent X R s1) as (s2 & Hrun & Ha & He & Hw & Hs).
  { unfold Engine.isShutdown in Hdown. unfold Engine.hasAgent.
    by destruct (Engine.agent s1). }
  exists s2. repeat split; try assumption.
  unfold Engine.isShutdown in *. by rewrite Ha.
Qed.

Lemma C8_shutdown_after_shutdown_witness :
  Engine.shutdown Sample.host (Sample.runtime true) Sample.launched
    = (Engine.Done (Resolved tt), Sample.stopped) /\
  Engine.isShutdown Sample.stopped = true /\
  exists s2,
    Engine.shutdown Sample.host (Sample.runtime true) Sample.stopped
      = (Engine.Done (Rejected NoAgentPresent), s2) /\
    Engine.isShutdown s2 = true /\
    Engine.emitted s2 = Engine.emitted Sample.stopped /\
    Engine.sent s2 = Engine.sent Sample.stopped /\
    Engine.world s2 = Engine.world Sample.stopped.
Proof.
  split; [vm_compute; reflexivity |].
  apply (C8_shutdown_after_shutdown Sample.host (Sample.runtime true)
           Sample.launched Sample.stopped).
  vm_compute; reflexivity.
Defined.

(** ** Transactions after a failed setup *)

(** C9, as stated, fails.  On the sample engine the download fails, so
    [setup()] rejects and no agent is present.  A transaction started then
    does not reject: it runs the callback, once, with a request, and
    resolves with what the callback resolved with. *)
Lemma C9_counterexample_transaction_runs_callback :
  fst (Engine.setup Sample.host (Sample.runtime false)
         (Sample.engine Sample.launch_config))
    = Engine.Done (Rejected (PlainError "download failed")) /\
  Engine.hasAgent Sample.failed = false /\
  fst (Engine.transaction Sample.host (Sample.runtime false) "T"
         Sample.callback Sample.failed)
    = Engine.Done (Resolved (VStr "done")) /\
  Engine.called (snd (Engine.transaction Sample.host (Sample.runtime false) "T"
                        Sample.callback Sample.failed))
    = [Some Sample.request1] /\
  fst (Engine.transaction Sample.host (Sample.runtime false) "T"
         Sample.callback Sample.failed)
    <> Engine.Done (Rejected NoAgentPresent).
Proof.
  split; [vm_compute; reflexivity |]. split; [vm_compute; reflexivity |].
  split; [vm_compute; reflexivity |]. split; [vm_compute; reflexivity |].
  vm_compute. intros H. discriminate H.
Qed.

(** C9, amended.  When [setup()] has rejected and no agent is present, a
    later [transaction] takes that rejection from [setup()], and goes on: it
    makes a request and calls the user callback, once, with that request (or
    with none if the request could not be made).  Its promise is settled as
    the callback's result is; no message is handed to the agent, and the
    agent field stays as it was. *)
Theorem C9_transaction_after_failed_setup {W : Type} (X : Externals)
    (R : Runtime W) (s : Engine.Scout) (name : string) (cb : DoneCallback W)
    (e : error) :
  Engine.hasAgent s = false ->
  Engine.settingUp s = Some (Rejected e) ->
  let started := fst (startRequestSync R (Engine.world s)) in
  let w1 := snd (startRequestSync R (Engine.world s)) in
  let result := fst (cb (request_of started) w1) in
  let w2 := snd (cb (request_of started) w1) in
  exists s',
    Engine.transaction X R name cb s
      = (Engine.Done (transaction_result started result), s') /\
    Engine.called s' = (Engine.called s ++ [request_of started])%list /\
    Engine.world s' = w2 /\
    Engine.sent s' = Engine.sent s /\
    Engine.agent s' = Engine.agent s.
Proof.
  intros Hno Hset. cbv zeta.
  unfold Engine.transaction, Engine.setup, Engine.withAsyncRequestContext,
    Engine.settle, Engine.await, Engine.call, mbind, Engine.E_bind.
  destruct (log_run X R ("[scout] Starting transaction [" +:+ name +:+ "]")
              Debug s) as [ls ->].
  cbn. unfold Engine.hasAgent in Hno.
  destruct (Engine.agent s) eqn:Ha; try discriminate; cbn;
    rewrite Hset; cbn;
    repeat match goal with
           | |- context [Engine.log X R ?m ?l ?s0] =>
               destruct (log_run X R m l s0) as [? ->]; cbn
           end;
    destruct (startRequestSync R (Engine.world s)) as [[err | request] w1];
    cbn;
    repeat match goal with
           | |- context [Engine.log X R ?m ?l ?s0] =>
               destruct (log_run X R m l s0) as [? ->]; cbn
           end;
    match goal with
    | |- context [cb ?r w1] => destruct (cb r w1) as [[err' | p] w2]
    end;
    cbn;
    repeat match goal with
           | |- context [Engine.log X R ?m ?l ?s0] =>
               destruct (log_run X R m l s0) as [? ->]; cbn
           end;
    try destruct p; cbn;
    (eexists; split; [reflexivity |]); cbn; rewrite ?Ha; repeat split.
Qed.

Lemma C9_transaction_after_failed_setup_witness :
  Engine.hasAgent Sample.failed = false /\
  Engine.settingUp Sample.failed = Some (Rejected (PlainError "download failed")) /\
  exists s',
    Engine.transaction Sample.host (Sample.runtime false) "T" Sample.callback
      Sample.failed
      = (Engine.Done (Resolved (VStr "done")), s') /\
    Engine.called s' = [Some Sample.request1] /\
    Engine.world s' = 3 /\
    Engine.sent s' = [] /\
    Engine.agent s' = AgentUndefined.
Proof.
  split; [vm_compute; reflexivity |]. split; [vm_compute; reflexivity |].
  apply (C9_transaction_after_failed_setup Sample.host (Sample.runtime false)
           Sample.failed "T" Sample.callback (PlainError "download failed"));
    vm_compute; reflexivity.
Defined.

(** ** The agent field over the life of an instance *)

Section AgentField.

Context {W : Type} (X : Externals) (R : Runtime W).

Import Engine.

#[local] Abbreviation Scout := (@Engine.Scout W).
#[local] Abbreviation E := (@Engine.E W).

Lemma calm_refl (s : Scout) : calm s s.
Proof. intros H. exact H. Qed.

Lemma calm_trans (s1 s2 s3 : Scout) : calm s1 s2 -> calm s2 s3 -> calm s1 s3.
Proof. unfold calm. auto. Qed.

Lemma keeps_ret {A} (a : A) : keeps (mret a : E A).
Proof. intros s. apply calm_refl. Qed.

Lemma keeps_raise {A} (e : error) : keeps (@raise W A e).
Proof. intros s. apply calm_refl. Qed.

Lemma keeps_gets {A} (f : Scout -> A) : keeps (gets f).
Proof. intros s. apply calm_refl. Qed.

Lemma keeps_bind {A B} (m : E A) (f : A -> E B) :
  keeps m -> (forall a, keeps (f a)) -> keeps (m ≫= f).
Proof.
  intros Hm Hf s. unfold mbind, E_bind. specialize (Hm s).
  destruct (m s) as [[a | e |] s1]; cbn in *; [| assumption | assumption].
  eapply calm_trans; [exact Hm | apply Hf].
Qed.

Lemma keeps_call {A} (f : W -> A * W) : keeps (call f).
Proof.
  intros s. unfold call. destruct (f (world s)) as [a w]. by unfold calm.
Qed.

Lemma keeps_log (message : string) (level : LogLevel) :
  keeps (log X R message level).
Proof.
  intros s. destruct (log_run X R message level s) as [ls ->]. by unfold calm.
Qed.

Lemma keeps_emit (ev : ScoutEvent) : keeps (emit ev : E unit).
Proof. intros s. by unfold calm. Qed.

Lemma keeps_catch {A} (m : E A) (h : error -> E A) :
  keeps m -> (forall e, keeps (h e)) -> keeps (catch_ m h).
Proof.
  intros Hm Hh s. unfold catch_. specialize (Hm s).
  destruct (m s) as [[a | e |] s1]; cbn in *; [assumption | | assumption].
  eapply calm_trans; [exact Hm | apply Hh].
Qed.

Lemma keeps_settle {A} (m : E A) : keeps m -> keeps (settle m).
Proof.
  intros Hm s. unfold settle. specialize (Hm s).
  by destruct (m s) as [[a | e |] s1].
Qed.

Lemma keeps_await {A} (p : promise A) : keeps (await p : E A).
Proof. intros s. destruct p; apply calm_refl. Qed.

Lemma keeps_attempt {A} (r : error + A) : keeps (attempt r : E A).
Proof. intros s. destruct r; apply calm_refl. Qed.

(** A change of fields that does not clear the agent. *)
Lemma keeps_modify (f : Scout -> Scout) :
  (forall s, agent (f s) = agent s \/ exists a, agent (f s) = AgentPresent a) ->
  keeps (modify f).
Proof.
  intros Ha s. cbn. intros Hnull.
  destruct (Ha s) as [H | [a H]]; rewrite H in Hnull; [assumption | discriminate].
Qed.

Ltac keeps_step :=
  lazymatch goal with
  | |- keeps (_ ≫= _) => apply keeps_bind; [| intros ?]
  | |- keeps (mret _) => apply keeps_ret
  | |- keeps (raise _) => apply keeps_raise
  | |- keeps (gets _) => apply keeps_gets
  | |- keeps (call _) => apply keeps_call
  | |- keeps (log _ _ _ _) => apply keeps_log
  | |- keeps (emit _) => apply keeps_emit
  | |- keeps (catch_ _ _) => apply keeps_catch; [| intros ?]
  | |- keeps (settle _) => apply keeps_settle
  | |- keeps (await _) => apply keeps_await
  | |- keeps (attempt _) => apply keeps_attempt
  | |- keeps (modify _) =>
      apply keeps_modify; intros ?; cbn; eauto
  | |- keeps (if ?b then _ else _) => destruct b
  | |- keeps (match ?x with _ => _ end) => destruct x
  | |- keeps (fun s => _) => fail "not a step"
  end.

Ltac keeps_all := repeat keeps_step.

Lemma keeps_socketPath : keeps (socketPath X R).
Proof.
  intros s. unfold socketPath.
  destruct (truthy _); [apply calm_refl |].
  destruct (coreAgentVersion s); [| apply calm_refl].
  destruct (semver_lt R _ _) as [e | []]; apply calm_refl.
Qed.

Lemma keeps_getSocketType : keeps (getSocketType X R).
Proof.
  unfold getSocketType. apply keeps_bind; [apply keeps_socketPath | intros ?].
  keeps_all.
Qed.

Lemma keeps_getSocketPath : keeps (getSocketPath X R).
Proof.
  unfold getSocketPath.
  apply keeps_bind; [apply keeps_getSocketType | intros ?].
  apply keeps_bind; [apply keeps_socketPath | intros ?].
  keeps_all.
Qed.

Lemma keeps_getSocketFilePath : keeps (getSocketFilePath X R).
Proof.
  unfold getSocketFilePath.
  apply keeps_bind; [apply keeps_getSocketType | intros ?].
  destruct a; [keeps_all | apply keeps_socketPath].
Qed.

Lemma keeps_ignoresPath (path : string) : keeps (ignoresPath X R path).
Proof. unfold ignoresPath. keeps_all. Qed.

Lemma keeps_startSendingStatistics : keeps (startSendingStatistics X R).
Proof. unfold startSendingStatistics. keeps_all. Qed.

Lemma keeps_stopSendingStatistics : keeps (stopSendingStatistics X R).
Proof. unfold stopSendingStatistics. keeps_all. Qed.

Lemma keeps_statisticsTick : keeps (statisticsTick X R).
Proof. unfold statisticsTick. keeps_all. Qed.

Lemma keeps_agentIsRunning (sp : value) : keeps (agentIsRunning X R sp).
Proof.
  unfold agentIsRunning.
  apply keeps_bind; [apply keeps_getSocketType | intros ?]. keeps_all.
Qed.

Lemma keeps_setupAgent (a : ProcessOptions) :
  keeps (setupAgent a : E ProcessOptions).
Proof. unfold setupAgent. keeps_all. Qed.

Lemma keeps_makeProcessOptions : keeps (makeProcessOptions X R).
Proof.
  unfold makeProcessOptions.
  apply keeps_bind; [apply keeps_getSocketPath | intros ?]. keeps_all.
Qed.

Create HintDb keeps.

#[local] Hint Resolve keeps_socketPath keeps_getSocketType keeps_getSocketPath
  keeps_getSocketFilePath keeps_ignoresPath keeps_startSendingStatistics
  keeps_stopSendingStatistics keeps_statisticsTick keeps_agentIsRunning
  keeps_setupAgent keeps_makeProcessOptions : keeps.

Ltac keeps_known := first [solve [auto with keeps nocore] | keeps_step].

Ltac keeps_auto := repeat keeps_known.

Lemma keeps_createAgentForExistingSocket :
  keeps (createAgentForExistingSocket X R).
Proof. unfold createAgentForExistingSocket. keeps_auto. Qed.

Lemma keeps_downloadAndLaunchAgent : keeps (downloadAndLaunchAgent X R).
Proof. unfold downloadAndLaunchAgent. keeps_auto. Qed.

Lemma keeps_sendThroughAgent (msg : AgentRequest) (async : bool) :
  keeps (sendThroughAgent X R msg async).
Proof. unfold sendThroughAgent. keeps_auto. Qed.

#[local] Hint Resolve keeps_createAgentForExistingSocket
  keeps_downloadAndLaunchAgent keeps_sendThroughAgent : keeps.

Lemma keeps_sendAppMetadataEvent : keeps (sendAppMetadataEvent X R).
Proof. unfold sendAppMetadataEvent. keeps_auto. Qed.

Lemma keeps_sendRegistrationRequest : keeps (sendRegistrationRequest X R).
Proof. unfold sendRegistrationRequest. keeps_auto. Qed.

#[local] Hint Resolve keeps_sendAppMetadataEvent
  keeps_sendRegistrationRequest : keeps.

Lemma keeps_setup : keeps (setup X R).
Proof. unfold setup. keeps_auto. Qed.

Lemma keeps_withAsyncRequestContext (cb : DoneCallback W) :
  keeps (withAsyncRequestContext X R cb).
Proof. unfold withAsyncRequestContext. keeps_auto. Qed.

#[local] Hint Resolve keeps_setup keeps_withAsyncRequestContext : keeps.

Lemma keeps_transaction (name : string) (cb : DoneCallback W) :
  keeps (transaction X R name cb).
Proof. unfold transaction. keeps_auto. Qed.

Lemma keeps_sendStartRequest req : keeps (sendStartRequest X R req).
Proof. unfold sendStartRequest. keeps_auto. Qed.

Lemma keeps_sendStopRequest req : keeps (sendStopRequest X R req).
Proof. unfold sendStopRequest. keeps_auto. Qed.

Lemma keeps_sendTagRequest req name val :
  keeps (sendTagRequest X R req name val).
Proof. unfold sendTagRequest. keeps_auto. Qed.

Lemma keeps_sendStartSpan span : keeps (sendStartSpan X R span).
Proof. unfold sendStartSpan. keeps_auto. Qed.

Lemma keeps_sendTagSpan span name val : keeps (sendTagSpan X R span name val).
Proof. unfold sendTagSpan. keeps_auto. Qed.

Lemma keeps_sendStopSpan span : keeps (sendStopSpan X R span).
Proof. unfold sendStopSpan. keeps_auto. Qed.

(** A [shutdown] that clears the agent field is one whose promise
    resolves. *)
Lemma shutdown_clears_when_resolved (s : Scout) :
  agent (snd (shutdown X R s)) = AgentNull ->
  agent s = AgentNull \/ fst (shutdown X R s) = Done (Resolved tt).
Proof.
  unfold shutdown, stopSendingStatistics, mbind, E_bind. cbn.
  destruct (statsSendingInterval s) eqn:Hst; cbn; rewrite ?Hst; cbn;
    try match goal with
        | |- context [log X R ?m ?l ?s0] =>
            destruct (log_run X R m l s0) as [? ->]; cbn
        end;
    (destruct (agent s) as [| | a] eqn:Ha;
     [match goal with
      | |- context [log X R ?m ?l ?s0] =>
          destruct (log_run X R m l s0) as [? ->]; cbn
      end; rewrite Ha; intros H; discriminate H
     | by left |]);
    unfold call, settle, await, mbind, E_bind; cbn;
    destruct (uncaughtExceptionListenerFn s); cbn;
    destruct (agent_disconnect R a _) as [[[] | e |] w]; cbn; rewrite ?Ha; cbn;
    try (intros H; discriminate H);
    destruct (truthy _); cbn;
    try destruct (agent_stopProcess R a w) as [[[] | e |] w']; cbn;
    rewrite ?Ha; first [by right | intros H; discriminate H].
Qed.

(** The agent field is cleared by no call but a [shutdown] whose promise
    resolves. *)
Lemma agent_cleared_only_by_shutdown (op : operation) (s : Scout) :
  agent (after X R op s) = AgentNull ->
  agent s = AgentNull \/
  (op = OpShutdown /\ fst (shutdown X R s) = Done (Resolved tt)).
Proof.
  destruct op; cbn [after]; intros Hnull;
    try (left; revert Hnull;
         first [ apply keeps_log | apply keeps_getSocketType
               | apply keeps_getSocketPath | apply keeps_getSocketFilePath
               | apply keeps_setup | apply keeps_ignoresPath
               | apply keeps_transaction | apply keeps_statisticsTick
               | apply keeps_sendStartRequest | apply keeps_sendStopRequest
               | apply keeps_sendTagRequest | apply keeps_sendStartSpan
               | apply keeps_sendTagSpan | apply keeps_sendStopSpan ]).
  destruct (shutdown_clears_when_resolved s Hnull); auto.
Qed.

(** On every instance a program can reach with a [null] agent field, an
    instance with an agent was reached before and a [shutdown] on it
    resolved, leaving the field [null]. *)
Lemma reachable_null_agent config opts w (s : Scout) :
  reachable X R config opts w s ->
  agent s = AgentNull ->
  exists s0,
    reachable X R config opts w s0 /\
    hasAgent s0 = true /\
    fst (shutdown X R s0) = Done (Resolved tt) /\
    agent (snd (shutdown X R s0)) = AgentNull.
Proof.
  induction 1 as [| s op Hreach IH]; [discriminate |].
  intros Hnull.
  destruct (agent_cleared_only_by_shutdown op s Hnull) as [Hbefore | [-> Hres]].
  - by apply IH.
  - exists s. split; [exact Hreach |]. split; [| by split].
    destruct (hasAgent s) eqn:Hhas; [reflexivity |].
    destruct (shutdown_without_agent X R s Hhas) as (s' & Hrun & _).
    rewrite Hrun in Hres. discriminate Hres.
Qed.

End AgentField.

Lemma isShutdown_iff_null {W : Type} (s : @Engine.Scout W) :
  Engine.isShutdown s = true <-> Engine.agent s = AgentNull.
Proof.
  unfold Engine.isShutdown. destruct (Engine.agent s); split; congruence.
Qed.

(** The sample engine before [setup], after a [setup] that failed, after one
    that went through, and after [shutdown]. *)
Example agent_field_of_sample_engine :
  let fresh := Sample.engine Sample.launch_config in
  (Engine.hasAgent fresh, Engine.isShutdown fresh) = (false, false) /\
  (Engine.hasAgent Sample.failed, Engine.isShutdown Sample.failed)
    = (false, false) /\
  (Engine.hasAgent Sample.launched, Engine.isShutdown Sample.launched)
    = (true, false) /\
  (Engine.hasAgent Sample.stopped, Engine.isShutdown Sample.stopped)
    = (false, true).
Proof. vm_compute. repeat split; reflexivity. Qed.

(** The precedence scenario of the specification: with
    [SCOUT_CORE_AGENT_VERSION] in the environment the Env source wins over
    the value set on the Node source; without it the Node value is read. *)
Example get_precedence :
  let node := Some {[ "coreAgentVersion" := VStr "v1.9.0" ]} in
  let with_env :=
    Config.new Sample.host node
      (Some {[ "SCOUT_CORE_AGENT_VERSION" := "v2.0.0" ]}) false in
  let without_env := Config.new Sample.host node (Some ∅) false in
  Config.get Sample.host 3 with_env "coreAgentVersion"
    = Some (inr (VStr "v2.0.0"), []) /\
  Config.get Sample.host 3 without_env "coreAgentVersion"
    = Some (inr (VStr "v1.9.0"), []).
Proof. vm_compute. split; reflexivity. Qed.

(** * Further properties of the configuration resolver *)

Section ResolverFacts.

Context (X : Externals).

Lemma bind_Some_mono {A B} (m m' : Config.M A) (f f' : A -> Config.M B) r :
  (forall x, m = Some x -> m' = Some x) ->
  (forall a x, f a = Some x -> f' a = Some x) ->
  m ≫= f = Some r -> m' ≫= f' = Some r.
Proof.
  intros Hm Hf. unfold mbind, Config.M_bind, Config.bind.
  destruct m as [[[e | a] l] |]; [| | discriminate].
  - rewrite (Hm _ eq_refl). auto.
  - rewrite (Hm _ eq_refl). destruct (f a) as [[r' l'] |] eqn:Hfa; [| discriminate].
    by rewrite (Hf _ _ Hfa).
Qed.

Lemma get_loop_mono (lookup lookup' : ConfigSourceName -> Config.M value) ss r :
  (forall s x, lookup s = Some x -> lookup' s = Some x) ->
  Config.get_loop lookup ss = Some r -> Config.get_loop lookup' ss = Some r.
Proof.
  intros Hl. revert r. induction ss as [| s ss IH]; intros r; cbn; [auto |].
  apply bind_Some_mono; [apply Hl |].
  intros v x. destruct (is_defined v); auto.
Qed.

Lemma derived_mono logFn (p_get p_get' : string -> Config.M value) prop r :
  (forall q x, p_get q = Some x -> p_get' q = Some x) ->
  Config.DerivedConfigSource.getConfigValue X logFn p_get prop = Some r ->
  Config.DerivedConfigSource.getConfigValue X logFn p_get' prop = Some r.
Proof.
  intros Hp. unfold Config.DerivedConfigSource.getConfigValue.
  destruct (String.eqb prop "socketPath").
  { apply bind_Some_mono; [apply Hp | intros ? ?].
    apply bind_Some_mono; [apply Hp | auto]. }
  destruct (String.eqb prop "coreAgentFullName"); [| auto].
  apply bind_Some_mono; [apply Hp | intros ? ?].
  apply bind_Some_mono; [auto | intros ? ?].
  apply bind_Some_mono; [auto | intros ? ?].
  apply bind_Some_mono; [apply Hp | auto].
Qed.

(** A read that has returned at some depth returns the same at every
    greater depth. *)
Lemma get_mono p d prop r :
  Config.get X d p prop = Some r -> Config.get X (S d) p prop = Some r.
Proof.
  revert prop r. induction d as [| d IH]; intros prop r; [discriminate |].
  cbn [Config.get]. apply get_loop_mono. intros [] x; cbn; auto.
  apply derived_mono. intros q y. apply IH.
Qed.

End ResolverFacts.

(** X1.  The reads of the Derived source through the proxy never nest more
    than three deep: what [get] gives with room for three nested reads is
    what it gives with room for any more, for every property and every
    state of the sources. *)
Theorem get_settles_at_depth_three (X : Externals)
    (p : Config.ScoutConfigurationProxy) (prop : string) (k : nat) :
  Config.get X (Config.full_depth + k) p prop = Config.get X Config.full_depth p prop /\
  is_Some (Config.get X Config.full_depth p prop).
Proof.
  split; [| apply (get_is_Some_3 X p 0)].
  destruct (get_is_Some_3 X p 0 prop) as [r Hr]. change (3 + 0) with 3 in Hr.
  unfold Config.full_depth. rewrite Hr.
  induction k as [| k IH]; [rewrite Nat.add_0_r; exact Hr |].
  replace (3 + S k) with (S (3 + k)) by lia. by apply get_mono.
Qed.

(** X2.  A value written with [set] is read back by [get], unless the
    environment defines the property: then [get] gives the value from the
    environment, before and after the write. *)
Theorem set_then_get (X : Externals) (p p' : Config.ScoutConfigurationProxy)
    (prop : string) (v : value) (k : nat) :
  v <> VUndefined ->
  Config.set p prop v = inr (true, p') ->
  let from_env := Config.EnvConfigSource.getConfigValue X (Config.env p) prop in
  Config.get X (S k) p' prop
  = Some (inr (if is_defined from_env then from_env else v), []).
Proof.
  intros Hv Hset. cbv zeta. cbn in Hset. inversion Hset; subst p'; clear Hset.
  cbn [Config.get Config.sources Config.get_loop Config.getConfigValue
       Config.env Config.config].
  unfold mbind, Config.M_bind, Config.bind, Config.ret.
  destruct (is_defined (Config.EnvConfigSource.getConfigValue X (Config.env p) prop));
    [reflexivity |].
  unfold Config.NodeConfigSource.getConfigValue,
    Config.NodeConfigSource.setConfigValue, prop_of.
  rewrite lookup_insert_eq. cbn.
  destruct v; try congruence; reflexivity.
Qed.

Lemma set_then_get_witness :
  VStr "v1.9.0" <> VUndefined /\
  Config.get Sample.host 1
    {| Config.env := ∅;
       Config.config := <["coreAgentVersion" := VStr "v1.9.0"]> ∅;
       Config.logFn := false |}
    "coreAgentVersion"
  = Some (inr (VStr "v1.9.0"), []).
Proof.
  split; [discriminate |].
  pose proof (set_then_get Sample.host
                (Config.new Sample.host None (Some ∅) false)
                {| Config.env := ∅;
                   Config.config := <["coreAgentVersion" := VStr "v1.9.0"]> ∅;
                   Config.logFn := false |}
                "coreAgentVersion" (VStr "v1.9.0") 0
                ltac:(discriminate) eq_refl) as H.
  exact H.
Defined.

Section ResolverFrame.

Context (X : Externals).

Lemma get_loop_ext (lookup lookup' : ConfigSourceName -> Config.M value) ss :
  (forall s, lookup s = lookup' s) ->
  Config.get_loop lookup ss = Config.get_loop lookup' ss.
Proof.
  intros Hl. induction ss as [| s ss IH]; cbn; [reflexivity |].
  by rewrite Hl, IH.
Qed.

(** The Derived source asks the proxy for four properties only. *)
Lemma derived_ext logFn (p_get p_get' : string -> Config.M value) prop :
  (forall q, In q ["coreAgentDir"; "coreAgentFullName"; "coreAgentTriple";
                   "coreAgentVersion"] -> p_get q = p_get' q) ->
  Config.DerivedConfigSource.getConfigValue X logFn p_get prop
  = Config.DerivedConfigSource.getConfigValue X logFn p_get' prop.
Proof.
  intros Hq. unfold Config.DerivedConfigSource.getConfigValue.
  rewrite !Hq by (cbn; auto). reflexivity.
Qed.

(** A read without a value from the Derived source logs nothing and throws
    nothing. *)
Lemma get_plain p k prop :
  prop <> "socketPath" -> prop <> "coreAgentFullName" ->
  exists v, Config.get X (S k) p prop = Some (inr v, []).
Proof.
  intros H1 H2. cbn [Config.get Config.sources Config.get_loop Config.getConfigValue].
  unfold mbind, Config.M_bind, Config.bind, Config.ret.
  destruct (is_defined (Config.EnvConfigSource.getConfigValue _ _ _)); [eauto |].
  destruct (is_defined (Config.NodeConfigSource.getConfigValue _ _)); [eauto |].
  unfold Config.DerivedConfigSource.getConfigValue.
  destruct (String.eqb_spec prop "socketPath"); [congruence |].
  destruct (String.eqb_spec prop "coreAgentFullName"); [congruence |].
  destruct (String.eqb prop "coreAgentTriple"); cbn; [eauto |].
  destruct (is_defined (Config.DefaultConfigSource.getConfigValue X prop)); eauto.
Qed.

End ResolverFrame.

(** X3.  A write with [set] to a property that no derived rule uses leaves
    what [get] gives for every other property as it was. *)
Theorem set_leaves_other_properties (X : Externals)
    (p p' : Config.ScoutConfigurationProxy) (prop q : string) (v : value)
    (d : nat) :
  Config.set p prop v = inr (true, p') ->
  ~ In prop ["coreAgentDir"; "coreAgentFullName"; "coreAgentTriple";
             "coreAgentVersion"] ->
  q <> prop ->
  Config.get X d p' q = Config.get X d p q.
Proof.
  intros Hset Hdeps. cbn in Hset. inversion Hset; subst p'; clear Hset.
  revert q. induction d as [| d IH]; intros q Hq; [reflexivity |].
  cbn [Config.get]. apply get_loop_ext. intros []; cbn.
  - reflexivity.
  - unfold Config.NodeConfigSource.getConfigValue,
      Config.NodeConfigSource.setConfigValue, prop_of.
    by rewrite lookup_insert_ne.
  - apply derived_ext. intros dep Hdep. apply IH. intros ->. by apply Hdeps.
  - reflexivity.
Qed.

Lemma set_leaves_other_properties_witness :
  let p := Config.new Sample.host None (Some ∅) false in
  let p' := {| Config.env := ∅;
               Config.config := <["monitor" := VBool true]> ∅;
               Config.logFn := false |} in
  Config.get Sample.host 3 p' "socketPath" = Config.get Sample.host 3 p "socketPath".
Proof.
  apply (set_leaves_other_properties Sample.host
           (Config.new Sample.host None (Some ∅) false) _
           "monitor" "socketPath" (VBool true) 3).
  - reflexivity.
  - cbn. intros [H | [H | [H | [H | []]]]]; discriminate H.
  - discriminate.
Defined.

(** X4.  When the environment holds the variable of one of the three boolean
    settings, [get] gives a boolean, whatever the Node source and the
    defaults hold: [true] if the variable is ["true"] in any letter case,
    [false] for every other text. *)
Theorem env_boolean_overrides (X : Externals)
    (p : Config.ScoutConfigurationProxy) (prop text : string) (k : nat) :
  In (convertCamelCaseToEnvVar X prop)
     ["SCOUT_CORE_AGENT_DOWNLOAD"; "SCOUT_CORE_AGENT_LAUNCH"; "SCOUT_MONITOR"] ->
  Config.env p !! convertCamelCaseToEnvVar X prop = Some text ->
  Config.get X (S k) p prop
  = Some (inr (VBool (String.eqb (toLowerCase text) "true")), []).
Proof.
  intros Hvar Henv.
  cbn [Config.get Config.sources Config.get_loop Config.getConfigValue].
  unfold Config.EnvConfigSource.getConfigValue. rewrite Henv.
  cbn in Hvar. destruct Hvar as [<- | [<- | [<- | []]]]; reflexivity.
Qed.

Lemma env_boolean_overrides_witness :
  Config.get Sample.host 1
    (Config.new Sample.host (Some {[ "monitor" := VBool true ]})
       (Some {[ "SCOUT_MONITOR" := "yes" ]}) false)
    "monitor"
  = Some (inr (VBool false), []).
Proof.
  apply (env_boolean_overrides Sample.host
           (Config.new Sample.host (Some {[ "monitor" := VBool true ]})
              (Some {[ "SCOUT_MONITOR" := "yes" ]}) false)
           "monitor" "yes" 0).
  - vm_compute. auto.
  - vm_compute. reflexivity.
Defined.

(** ** Lists from the environment, and triples *)

Lemma split_on_not_nil (c : ascii) (s : string) : split_on c s <> [].
Proof.
  induction s as [| a s IH]; cbn; [discriminate |].
  destruct (Ascii.eqb a c); [discriminate |].
  by destruct (split_on c s).
Qed.

(** Joining the pieces of a split with the separator gives the string
    back. *)
Lemma join_split_on (c : ascii) (s : string) :
  join (String c "") (split_on c s) = s.
Proof.
  induction s as [| a s IH]; [reflexivity |].
  cbn [split_on]. destruct (Ascii.eqb_spec a c) as [-> | Hne].
  - pose proof (split_on_not_nil c s) as Hnil.
    destruct (split_on c s) as [| x l]; [congruence |].
    cbn [join]. cbn [join] in IH. by rewrite IH.
  - pose proof (split_on_not_nil c s) as Hnil.
    destruct (split_on c s) as [| x l]; [congruence |].
    destruct l as [| y l]; cbn [join] in *; by rewrite <- IH.
Qed.

Lemma split_on_pieces (c : ascii) (s : string) :
  Forall (fun piece => has_char c piece = false) (split_on c s).
Proof.
  induction s as [| a s IH]; cbn; [by repeat constructor |].
  destruct (Ascii.eqb a c) eqn:Hac; [by constructor |].
  destruct (split_on c s) as [| x l].
  - constructor; [cbn; by rewrite Hac | constructor].
  - inversion IH; subst. constructor; [| assumption]. cbn. by rewrite Hac.
Qed.

(** X5.  The list that the environment gives for [ignore] and for
    [disabledInstruments] is the text of the variable cut at its commas:
    it is never empty, no entry holds a comma, nothing is trimmed or dropped
    (joined with commas the entries spell the text again), and it wins over
    the Node source. *)
Theorem env_list_is_split (X : Externals)
    (p : Config.ScoutConfigurationProxy) (prop text : string) (k : nat) :
  In (convertCamelCaseToEnvVar X prop) ["SCOUT_IGNORE"; "SCOUT_DISABLED_INSTRUMENTS"] ->
  Config.env p !! convertCamelCaseToEnvVar X prop = Some text ->
  exists entries,
    Config.get X (S k) p prop = Some (inr (VArr entries), []) /\
    entries <> [] /\
    Forall (fun entry => has_char "," entry = false) entries /\
    join "," entries = text.
Proof.
  intros Hvar Henv. exists (split_on "," text).
  split; [| split; [apply split_on_not_nil | split;
                    [apply split_on_pieces | apply join_split_on]]].
  cbn [Config.get Config.sources Config.get_loop Config.getConfigValue].
  unfold Config.EnvConfigSource.getConfigValue. rewrite Henv.
  cbn in Hvar. destruct Hvar as [<- | [<- | []]]; reflexivity.
Qed.

Lemma env_list_is_split_witness :
  exists entries,
    Config.get Sample.host 1
      (Config.new Sample.host None (Some {[ "SCOUT_IGNORE" := "/health, /ping," ]}) false)
      "ignore" = Some (inr (VArr entries), []) /\
    entries <> [] /\
    Forall (fun entry => has_char "," entry = false) entries /\
    join "," entries = "/health, /ping,".
Proof.
  apply (env_list_is_split Sample.host
           (Config.new Sample.host None (Some {[ "SCOUT_IGNORE" := "/health, /ping," ]}) false)
           "ignore" "/health, /ping," 0).
  - vm_compute. auto.
  - vm_compute. reflexivity.
Defined.

Lemma join_cons_cons (sep x y : string) (l : list string) :
  join sep (x :: y :: l) = x +:+ sep +:+ join sep (y :: l).
Proof. reflexivity. Qed.

(** [isValidTriple] on a string. *)
Lemma isValidTriple_string (triple : string) :
  Config.isValidTriple (VStr triple)
  = Some (inr (bool_decide (triple ∈ enumerated_triples)), []).
Proof.
  destruct (decide (triple ∈ enumerated_triples)) as [Hin | Hnot].
  { rewrite bool_decide_eq_true_2 by exact Hin. vm_compute in Hin.
    repeat (apply elem_of_cons in Hin as [-> | Hin]; [vm_compute; reflexivity |]).
    by apply elem_of_nil in Hin. }
  rewrite bool_decide_eq_false_2 by exact Hnot.
  unfold Config.isValidTriple.
  destruct (negb (truthy (VStr triple))); [reflexivity |].
  pose proof (join_split_on "-" triple) as Hjoin.
  destruct (split_on "-" triple) as [| arch pieces]; [reflexivity |].
  unfold Config.ret. do 3 f_equal.
  apply not_true_is_false. intros Hinc. apply Hnot.
  apply andb_prop in Hinc as [Ha Hp].
  destruct pieces as [| y l]; [cbn in Hp; discriminate Hp |].
  rewrite join_cons_cons in Hjoin. subst triple.
  unfold includes, Architecture_values, Platform_values in Ha, Hp.
  cbn [map existsb Architecture_str Platform_str] in Ha, Hp.
  repeat match goal with
         | H : (_ || _)%bool = true |- _ => apply orb_prop in H as [H | H]
         | H : String.eqb _ _ = true |- _ => apply String.eqb_eq in H; rewrite H
         | H : false = true |- _ => discriminate H
         end; vm_compute; set_solver.
Qed.

(** X6.  [isValidTriple] accepts exactly the strings made of a member of
    [Architecture], a dash, and a member of [Platform]; the empty string and
    [undefined] are refused. *)
Theorem isValidTriple_exactly_enumerated (triple : string) :
  Config.isValidTriple (VStr triple)
    = Some (inr (bool_decide (triple ∈ enumerated_triples)), []) /\
  Config.isValidTriple (VStr "") = Some (inr false, []) /\
  Config.isValidTriple VUndefined = Some (inr false, []).
Proof. split; [apply isValidTriple_string | split; reflexivity]. Qed.

Lemma generateTriple_enumerated (X : Externals) :
  Config.generateTriple X ∈ enumerated_triples.
Proof.
  unfold Config.generateTriple, Config.detectArch, Config.detectPlatform.
  destruct (String.eqb (os_arch X) "x64"), (String.eqb (os_arch X) "x32"),
    (String.eqb (os_platform X) "linux"), (String.eqb (os_platform X) "darwin"),
    (isNonGlibcLinux X); vm_compute; set_solver.
Qed.

(** X7.  On every host the detected triple is one that [isValidTriple]
    accepts.  So when neither the environment nor the Node source gives
    [coreAgentTriple], reading [coreAgentFullName] neither logs the warning
    nor throws. *)
Theorem detected_triple_is_valid (X : Externals)
    (p : Config.ScoutConfigurationProxy) (k : nat) :
  Config.EnvConfigSource.getConfigValue X (Config.env p) "coreAgentTriple"
    = VUndefined ->
  Config.NodeConfigSource.getConfigValue (Config.config p) "coreAgentTriple"
    = VUndefined ->
  Config.isValidTriple (VStr (Config.generateTriple X)) = Some (inr true, []) /\
  Config.get X (1 + k) p "coreAgentTriple"
    = Some (inr (VStr (Config.generateTriple X)), []) /\
  exists name, Config.get X (2 + k) p "coreAgentFullName" = Some (inr name, []).
Proof.
  intros Henv Hnode.
  assert (Config.isValidTriple (VStr (Config.generateTriple X))
          = Some (inr true, [])) as Hvalid.
  { rewrite isValidTriple_string.
    rewrite bool_decide_eq_true_2; [reflexivity | apply generateTriple_enumerated]. }
  assert (forall j, Config.get X (S j) p "coreAgentTriple"
                    = Some (inr (VStr (Config.generateTriple X)), [])) as Htriple.
  { intros j.
    cbn [Config.get Config.sources Config.get_loop Config.getConfigValue].
    rewrite Henv, Hnode. reflexivity. }
  split; [exact Hvalid |]. split; [apply Htriple |].
  change (Config.get X (2 + k) p "coreAgentFullName")
    with (Config.get_loop
            (fun s => Config.getConfigValue X p (Config.get X (S k) p) s
                        "coreAgentFullName") Config.sources).
  cbn [Config.sources Config.get_loop Config.getConfigValue].
  unfold mbind, Config.M_bind, Config.bind, Config.ret.
  destruct (is_defined (Config.EnvConfigSource.getConfigValue _ _ _)); [eauto |].
  destruct (is_defined (Config.NodeConfigSource.getConfigValue _ _)); [eauto |].
  unfold Config.DerivedConfigSource.getConfigValue.
  change (String.eqb "coreAgentFullName" "socketPath") with false.
  change (String.eqb "coreAgentFullName" "coreAgentFullName") with true.
  cbv iota. unfold mbind, Config.M_bind, Config.bind.
  rewrite (Htriple k). rewrite Hvalid.
  destruct (get_plain X p k "coreAgentVersion") as [version ->]; [discriminate.. |].
  cbn. eauto.
Qed.

Lemma detected_triple_is_valid_witness :
  Config.isValidTriple (VStr (Config.generateTriple Sample.host))
    = Some (inr true, []) /\
  Config.get Sample.host 1 (Config.new Sample.host None (Some ∅) true)
    "coreAgentTriple"
    = Some (inr (VStr (Config.generateTriple Sample.host)), []) /\
  exists name,
    Config.get Sample.host 2 (Config.new Sample.host None (Some ∅) true)
      "coreAgentFullName" = Some (inr name, []).
Proof.
  apply (detected_triple_is_valid Sample.host
           (Config.new Sample.host None (Some ∅) true) 0);
    vm_compute; reflexivity.
Defined.

(** * Further properties of the engine *)

Section Sending.

Context {W : Type} (X : Externals) (R : Runtime W).

Import Engine.

#[local] Abbreviation Scout := (@Engine.Scout W).
#[local] Abbreviation E := (@Engine.E W).

Ltac run_logs :=
  repeat match goal with
         | |- context [log X R ?m ?l ?s] =>
             let ls := fresh "ls" in
             destruct (log_run X R m l s) as [ls ->]; cbn
         end.

(** The three ways of [sendThroughAgent]. *)
Lemma sendThroughAgent_cases (msg : AgentRequest) (async : bool) (s : Scout) :
  match agent s with
  | AgentPresent a =>
      if truthy (Config.read X (config s) "monitor") then
        let call := if async then agent_sendAsync R a msg (world s)
                    else agent_send R a msg (world s) in
        sendThroughAgent X R msg async s
        = (Done (fst call),
           set_world (snd call) (set_sent (sent s ++ [msg])%list s))
      else
        exists ls, sendThroughAgent X R msg async s
                   = (Done (Rejected MonitoringDisabled), set_logged ls s)
  | _ =>
      exists ls, sendThroughAgent X R msg async s
                 = (Done (Rejected (Disconnected
                                      "No agent is present, please run .setup()")),
                    set_logged ls s)
  end.
Proof.
  unfold sendThroughAgent, hasAgent, getAgent, getConfig, mbind, E_bind. cbn.
  destruct (agent s) as [| | a] eqn:Ha; cbn.
  1, 2: run_logs; eauto.
  rewrite Ha. destruct (truthy _); cbn.
  - unfold call. destruct async; cbn;
      [destruct (agent_sendAsync R a msg (world s))
      | destruct (agent_send R a msg (world s))]; reflexivity.
  - run_logs. eauto.
Qed.

End Sending.

(** X8.  [sendThroughAgent] hands the message to the agent only when an
    agent is present and [config.monitor] is truthy; its promise is then the
    agent's.  Without an agent it rejects with [Disconnected], and with
    monitoring off with [MonitoringDisabled]; in both cases no message is
    handed over and no call leaves the engine. *)
Theorem sendThroughAgent_gates {W : Type} (X : Externals) (R : Runtime W)
    (msg : AgentRequest) (async : bool) (s : Engine.Scout) :
  let r := Engine.sendThroughAgent X R msg async s in
  (Engine.hasAgent s = false ->
   fst r = Engine.Done (Rejected (Disconnected
                                    "No agent is present, please run .setup()")) /\
   Engine.sent (snd r) = Engine.sent s /\ Engine.world (snd r) = Engine.world s) /\
  (Engine.hasAgent s = true ->
   truthy (Config.read X (Engine.config s) "monitor") = false ->
   fst r = Engine.Done (Rejected MonitoringDisabled) /\
   Engine.sent (snd r) = Engine.sent s /\ Engine.world (snd r) = Engine.world s) /\
  (forall a,
     Engine.agent s = AgentPresent a ->
     truthy (Config.read X (Engine.config s) "monitor") = true ->
     Engine.sent (snd r) = (Engine.sent s ++ [msg])%list /\
     (fst r, Engine.world (snd r))
     = (let '(p, w) := (if async then agent_sendAsync R a msg (Engine.world s)
                        else agent_send R a msg (Engine.world s)) in
        (Engine.Done p, w))).
Proof.
  cbv zeta. pose proof (sendThroughAgent_cases X R msg async s) as Hc.
  unfold Engine.hasAgent. split; [| split].
  - intros Hno. destruct (Engine.agent s); try discriminate;
      destruct Hc as [ls ->]; auto.
  - intros Hyes Hmon. destruct (Engine.agent s); try discriminate.
    rewrite Hmon in Hc. destruct Hc as [ls ->]. auto.
  - intros a Ha Hmon. rewrite Ha, Hmon in Hc. rewrite Hc. cbn.
    split; [reflexivity |].
    destruct async; [destruct (agent_sendAsync _ _ _ _)
                    | destruct (agent_send _ _ _ _)]; reflexivity.
Qed.

Section Helpers.

Context {W : Type} (X : Externals) (R : Runtime W).

Import Engine.

#[local] Abbreviation Scout := (@Engine.Scout W).

Ltac run_logs :=
  repeat match goal with
         | |- context [log X R ?m ?l ?s] =>
             let ls := fresh "ls" in
             destruct (log_run X R m l s) as [ls ->]; cbn
         end.

(** Takes the call of [sendThroughAgent] in the goal through its cases. *)
Ltac through_agent s :=
  match goal with
  | |- context [sendThroughAgent X R ?msg ?async s] =>
      let Hc := fresh "Hc" in
      let Ha := fresh "Ha" in
      let Hm := fresh "Hm" in
      pose proof (sendThroughAgent_cases X R msg async s) as Hc;
      destruct (agent s) as [| | ?a] eqn:Ha;
      [ destruct Hc as [? ->]
      | destruct Hc as [? ->]
      | destruct (truthy (Config.read X (config s) "monitor")) eqn:Hm;
        [ rewrite Hc; clear Hc | destruct Hc as [? ->] ] ]
  end.

Ltac helper_cases s :=
  unfold sendStartRequest, sendStopRequest, sendTagRequest, sendStartSpan,
    sendTagSpan, sendStopSpan, mbind, E_bind, settle, catch_, await;
  repeat match goal with
         | H : _ = false |- _ => rewrite H
         end;
  through_agent s; cbn;
  try match goal with
      | |- context [agent_send R ?a ?msg ?w] =>
          destruct (agent_send R a msg w) as [[? | ? |] ?]; cbn
      end;
  run_logs.

Lemma sendStartRequest_settles req (s : Scout) :
  ScoutRequest.isIgnored req = false ->
  resolves_or_waits (fst (sendStartRequest X R req s)) req.
Proof. intros Hreq. helper_cases s; unfold resolves_or_waits; auto. Qed.

Lemma sendStopRequest_settles req (s : Scout) :
  ScoutRequest.isIgnored req = false ->
  resolves_or_waits (fst (sendStopRequest X R req s)) req.
Proof. intros Hreq. helper_cases s; unfold resolves_or_waits; auto. Qed.

Lemma sendTagRequest_settles req name val (s : Scout) :
  ScoutRequest.isIgnored req = false ->
  resolves_or_waits (fst (sendTagRequest X R req name val s)) tt.
Proof. intros Hreq. helper_cases s; unfold resolves_or_waits; auto. Qed.

Lemma sendStartSpan_settles span (s : Scout) :
  ScoutSpan.isIgnored span = false ->
  resolves_or_waits (fst (sendStartSpan X R span s)) span.
Proof. intros Hspan. helper_cases s; unfold resolves_or_waits; auto. Qed.

Lemma sendTagSpan_settles span name val (s : Scout) :
  ScoutSpan.isIgnored span = false ->
  resolves_or_waits (fst (sendTagSpan X R span name val s)) tt.
Proof. intros Hspan. helper_cases s; unfold resolves_or_waits; auto. Qed.

Lemma sendStopSpan_settles span (s : Scout) :
  ScoutSpan.isIgnored span = false ->
  resolves_or_waits (fst (sendStopSpan X R span s)) span.
Proof. intros Hspan. helper_cases s; unfold resolves_or_waits; auto. Qed.

Lemma ignored_helper_settles {A} (a : A) m l ev (s : Scout) :
  resolves_or_waits
    (fst ((log X R m l;; emit ev;; mret (Resolved a)) s)) a.
Proof.
  unfold mbind, E_bind. destruct (log_run X R m l s) as [ls ->]. by left.
Qed.

Lemma unsent_helpers req span name val (s : Scout) :
  ScoutRequest.isIgnored req = false ->
  ScoutSpan.isIgnored span = false ->
  hasAgent s = false \/ truthy (Config.read X (config s) "monitor") = false ->
  unsent (sendStartRequest X R req) req s /\
  unsent (sendStopRequest X R req) req s /\
  unsent (sendTagRequest X R req name val) tt s /\
  unsent (sendStartSpan X R span) span s /\
  unsent (sendTagSpan X R span name val) tt s /\
  unsent (sendStopSpan X R span) span s.
Proof.
  intros Hreq Hspan Hoff. unfold unsent, hasAgent in *.
  repeat split_and; helper_cases s;
    try (destruct Hoff as [Hoff | Hoff]; discriminate Hoff);
    reflexivity.
Qed.

Lemma delivered_helpers req span name val a (s : Scout) :
  ScoutRequest.isIgnored req = false ->
  ScoutSpan.isIgnored span = false ->
  agent s = AgentPresent a ->
  truthy (Config.read X (config s) "monitor") = true ->
  hands_over (sendStartRequest X R req)
    (V1StartRequest (ScoutRequest.id req) (ScoutRequest.getTimestamp req)) s /\
  hands_over (sendStopRequest X R req)
    (V1FinishRequest (ScoutRequest.id req) (ScoutRequest.getEndTime req)) s /\
  hands_over (sendTagRequest X R req name val)
    (V1TagRequest name val (ScoutRequest.id req)) s /\
  hands_over (sendStartSpan X R span)
    (V1StartSpan (ScoutSpan.operation span) (ScoutSpan.requestId span)
       (ScoutSpan.id span) (ScoutSpan.parentId span)
       (ScoutSpan.getTimestamp span)) s /\
  hands_over (sendTagSpan X R span name val)
    (V1TagSpan name val (ScoutSpan.id span) (ScoutSpan.requestId span)) s /\
  hands_over (sendStopSpan X R span)
    (V1StopSpan (ScoutSpan.id span) (ScoutSpan.requestId span)
       (ScoutSpan.getEndTime span)) s.
Proof.
  intros Hreq Hspan Ha Hmon. unfold hands_over.
  repeat split_and; helper_cases s; try congruence; reflexivity.
Qed.

(** [RequestSent] follows a [FinishRequest] that the agent answered, and
    nothing else. *)
Lemma sendStopRequest_event req a (s : Scout) :
  ScoutRequest.isIgnored req = false ->
  agent s = AgentPresent a ->
  truthy (Config.read X (config s) "monitor") = true ->
  emitted (snd (sendStopRequest X R req s))
  = match fst (agent_send R a
                 (V1FinishRequest (ScoutRequest.id req) (ScoutRequest.getEndTime req))
                 (world s)) with
    | Resolved _ => (emitted s ++ [RequestSent req])%list
    | _ => emitted s
    end.
Proof.
  intros Hreq Ha Hmon.
  unfold sendStopRequest, mbind, E_bind, settle, catch_, await.
  rewrite Hreq. through_agent s; try congruence.
  inversion Ha; subst. cbn.
  destruct (agent_send R a _ (world s)) as [[? | ? |] ?]; cbn; run_logs;
    reflexivity.
Qed.

End Helpers.

(** X9.  No send helper ever rejects or throws: whatever the state of the
    engine and the answer of the agent, the promise of each of the six
    helpers is resolved with the request, the span, or nothing as its type
    says, or it is left waiting by an agent that never answers. *)
Theorem send_helpers_never_reject {W : Type} (X : Externals) (R : Runtime W)
    (s : Engine.Scout) (req : ScoutRequest.t) (span : ScoutSpan.t)
    (name : string) (val : value) :
  resolves_or_waits (fst (Engine.sendStartRequest X R req s)) req /\
  resolves_or_waits (fst (Engine.sendStopRequest X R req s)) req /\
  resolves_or_waits (fst (Engine.sendTagRequest X R req name val s)) tt /\
  resolves_or_waits (fst (Engine.sendStartSpan X R span s)) span /\
  resolves_or_waits (fst (Engine.sendTagSpan X R span name val s)) tt /\
  resolves_or_waits (fst (Engine.sendStopSpan X R span s)) span.
Proof.
  repeat split_and.
  - destruct (ScoutRequest.isIgnored req) eqn:Hreq;
      [| exact (sendStartRequest_settles X R req s Hreq)].
    unfold Engine.sendStartRequest. rewrite Hreq. apply ignored_helper_settles.
  - destruct (ScoutRequest.isIgnored req) eqn:Hreq;
      [| exact (sendStopRequest_settles X R req s Hreq)].
    unfold Engine.sendStopRequest. rewrite Hreq. apply ignored_helper_settles.
  - destruct (ScoutRequest.isIgnored req) eqn:Hreq;
      [| exact (sendTagRequest_settles X R req name val s Hreq)].
    unfold Engine.sendTagRequest. rewrite Hreq. apply ignored_helper_settles.
  - destruct (ScoutSpan.isIgnored span) eqn:Hspan;
      [| exact (sendStartSpan_settles X R span s Hspan)].
    unfold Engine.sendStartSpan. rewrite Hspan. apply ignored_helper_settles.
  - destruct (ScoutSpan.isIgnored span) eqn:Hspan;
      [| exact (sendTagSpan_settles X R span name val s Hspan)].
    unfold Engine.sendTagSpan. rewrite Hspan. apply ignored_helper_settles.
  - destruct (ScoutSpan.isIgnored span) eqn:Hspan;
      [| exact (sendStopSpan_settles X R span s Hspan)].
    unfold Engine.sendStopSpan. rewrite Hspan. apply ignored_helper_settles.
Qed.

(** X10.  While no agent is present, or while [config.monitor] is not
    truthy, a send helper for a request or span that is not ignored comes to
    nothing: its promise is resolved, no message is handed to the agent, no
    call leaves the engine and no event is emitted. *)
Theorem send_helpers_without_monitoring {W : Type} (X : Externals)
    (R : Runtime W) (s : Engine.Scout) (req : ScoutRequest.t)
    (span : ScoutSpan.t) (name : string) (val : value) :
  ScoutRequest.isIgnored req = false ->
  ScoutSpan.isIgnored span = false ->
  Engine.hasAgent s = false \/
  truthy (Config.read X (Engine.config s) "monitor") = false ->
  unsent (Engine.sendStartRequest X R req) req s /\
  unsent (Engine.sendStopRequest X R req) req s /\
  unsent (Engine.sendTagRequest X R req name val) tt s /\
  unsent (Engine.sendStartSpan X R span) span s /\
  unsent (Engine.sendTagSpan X R span name val) tt s /\
  unsent (Engine.sendStopSpan X R span) span s.
Proof. apply unsent_helpers. Qed.

(** X11.  With an agent present and [config.monitor] truthy, each send
    helper hands exactly one message to the agent: the message of its kind,
    with the ids, the operation, the tag and the time stamps of the request
    or span.  [sendStopRequest] emits [RequestSent] when the agent resolved
    that send, and not when it rejected it or never answered. *)
Theorem send_helpers_hand_over_one_message {W : Type} (X : Externals)
    (R : Runtime W) (s : Engine.Scout) (a : ProcessOptions)
    (req : ScoutRequest.t) (span : ScoutSpan.t) (name : string) (val : value) :
  ScoutRequest.isIgnored req = false ->
  ScoutSpan.isIgnored span = false ->
  Engine.agent s = AgentPresent a ->
  truthy (Config.read X (Engine.config s) "monitor") = true ->
  (hands_over (Engine.sendStartRequest X R req)
     (V1StartRequest (ScoutRequest.id req) (ScoutRequest.getTimestamp req)) s /\
   hands_over (Engine.sendStopRequest X R req)
     (V1FinishRequest (ScoutRequest.id req) (ScoutRequest.getEndTime req)) s /\
   hands_over (Engine.sendTagRequest X R req name val)
     (V1TagRequest name val (ScoutRequest.id req)) s /\
   hands_over (Engine.sendStartSpan X R span)
     (V1StartSpan (ScoutSpan.operation span) (ScoutSpan.requestId span)
        (ScoutSpan.id span) (ScoutSpan.parentId span)
        (ScoutSpan.getTimestamp span)) s /\
   hands_over (Engine.sendTagSpan X R span name val)
     (V1TagSpan name val (ScoutSpan.id span) (ScoutSpan.requestId span)) s /\
   hands_over (Engine.sendStopSpan X R span)
     (V1StopSpan (ScoutSpan.id span) (ScoutSpan.requestId span)
        (ScoutSpan.getEndTime span)) s) /\
  Engine.emitted (snd (Engine.sendStopRequest X R req s))
  = match fst (agent_send R a
                 (V1FinishRequest (ScoutRequest.id req) (ScoutRequest.getEndTime req))
                 (Engine.world s)) with
    | Resolved _ => (Engine.emitted s ++ [RequestSent req])%list
    | _ => Engine.emitted s
    end.
Proof.
  intros Hreq Hspan Ha Hmon. split.
  - by apply (delivered_helpers X R req span name val a s).
  - by apply (sendStopRequest_event X R req a s).
Qed.

Lemma send_helpers_without_monitoring_witness :
  unsent (Engine.sendStartRequest Sample.host (Sample.runtime true) Sample.request1)
    Sample.request1 (Sample.engine ∅).
Proof.
  apply (send_helpers_without_monitoring Sample.host (Sample.runtime true)
           (Sample.engine ∅) Sample.request1 Fixtures.span1 "tag" (VStr "value"));
    [reflexivity | reflexivity | left; reflexivity].
Defined.

Lemma send_helpers_hand_over_one_message_witness :
  exists a,
    Engine.agent Sample.launched = AgentPresent a /\
    hands_over (Engine.sendStartSpan Sample.host (Sample.runtime true) Fixtures.span1)
      (V1StartSpan "SQL/Query" "req-1" "span-2" (Some "span-1") 1200)
      Sample.launched.
Proof.
  eexists. split; [vm_compute; reflexivity |].
  refine (proj1 (proj2 (proj2 (proj2 (proj1
    (send_helpers_hand_over_one_message Sample.host (Sample.runtime true)
       Sample.launched _ Sample.request1 Fixtures.span1 "tag" (VStr "value")
       _ _ _ _)))))); vm_compute; reflexivity.
Defined.

(** ** Steps that keep a relation *)

Section Frames.

Context {W : Type} (X : Externals) (R : Runtime W).

Import Engine.

#[local] Abbreviation Scout := (@Engine.Scout W).
#[local] Abbreviation E := (@Engine.E W).

Variable rel : Scout -> Scout -> Prop.

Hypothesis rel_refl : forall s, rel s s.
Hypothesis rel_trans : forall s1 s2 s3, rel s1 s2 -> rel s2 s3 -> rel s1 s3.
Hypothesis rel_logged : forall s ls, rel s (set_logged ls s).
Hypothesis rel_world : forall s w, rel s (set_world w s).

Lemma respects_ret {A} (a : A) : respects rel (mret a : E A).
Proof. intros s. apply rel_refl. Qed.

Lemma respects_raise {A} (e : error) : respects rel (@raise W A e).
Proof. intros s. apply rel_refl. Qed.

Lemma respects_gets {A} (f : Scout -> A) : respects rel (gets f).
Proof. intros s. apply rel_refl. Qed.

Lemma respects_bind {A B} (m : E A) (f : A -> E B) :
  respects rel m -> (forall a, respects rel (f a)) -> respects rel (m ≫= f).
Proof.
  intros Hm Hf s. unfold mbind, E_bind. specialize (Hm s).
  destruct (m s) as [[a | e |] s1]; cbn in *; [| assumption | assumption].
  eapply rel_trans; [exact Hm | apply Hf].
Qed.

Lemma respects_call {A} (f : W -> A * W) : respects rel (call f).
Proof.
  intros s. unfold call. destruct (f (world s)) as [a w]. apply rel_world.
Qed.

Lemma respects_log (message : string) (level : LogLevel) :
  respects rel (log X R message level).
Proof.
  intros s. destruct (log_run X R message level s) as [ls ->]. apply rel_logged.
Qed.

Lemma respects_catch {A} (m : E A) (h : error -> E A) :
  respects rel m -> (forall e, respects rel (h e)) -> respects rel (catch_ m h).
Proof.
  intros Hm Hh s. unfold catch_. specialize (Hm s).
  destruct (m s) as [[a | e |] s1]; cbn in *; [assumption | | assumption].
  eapply rel_trans; [exact Hm | apply Hh].
Qed.

Lemma respects_settle {A} (m : E A) : respects rel m -> respects rel (settle m).
Proof.
  intros Hm s. unfold settle. specialize (Hm s).
  by destruct (m s) as [[a | e |] s1].
Qed.

Lemma respects_await {A} (p : promise A) : respects rel (await p : E A).
Proof. intros s. destruct p; apply rel_refl. Qed.

Lemma respects_attempt {A} (r : error + A) : respects rel (attempt r : E A).
Proof. intros s. destruct r; apply rel_refl. Qed.

Lemma respects_modify (f : Scout -> Scout) :
  (forall s, rel s (f s)) -> respects rel (modify f).
Proof. intros Hf s. apply Hf. Qed.

Lemma respects_socketPath : respects rel (socketPath X R).
Proof.
  intros s. unfold socketPath.
  destruct (truthy _); [apply rel_refl |].
  destruct (coreAgentVersion s); [| apply rel_refl].
  destruct (semver_lt R _ _) as [e | []]; apply rel_refl.
Qed.

End Frames.

(** Proves [respects rel m] for a piece [m] of the engine, from the four
    facts of the relation, lemmas already at hand, and a tactic for the
    changes of fields. *)
Ltac respects_step Hrefl Htrans Hlogged Hworld known leaf :=
  first
  [ solve [known]
  | lazymatch goal with
    | |- respects _ (_ ≫= _) => apply (respects_bind _ Htrans); [| intros ?]
    | |- respects _ (mret _) => apply (respects_ret _ Hrefl)
    | |- respects _ (Engine.raise _) => apply (respects_raise _ Hrefl)
    | |- respects _ (Engine.gets _) => apply (respects_gets _ Hrefl)
    | |- respects _ (Engine.call _) => apply (respects_call _ Hworld)
    | |- respects _ (Engine.log _ _ _ _) => apply (respects_log _ _ _ Hlogged)
    | |- respects _ (Engine.socketPath _ _) =>
        apply (respects_socketPath _ _ _ Hrefl)
    | |- respects _ (Engine.catch_ _ _) =>
        apply (respects_catch _ Htrans); [| intros ?]
    | |- respects _ (Engine.settle _) => apply respects_settle
    | |- respects _ (Engine.await _) => apply (respects_await _ Hrefl)
    | |- respects _ (Engine.attempt _) => apply (respects_attempt _ Hrefl)
    | |- respects _ (Engine.emit _) =>
        unfold Engine.emit; apply respects_modify; intros ?; leaf
    | |- respects _ (Engine.modify _) => apply respects_modify; intros ?; leaf
    | |- respects _ (if ?b then _ else _) => destruct b
    | |- respects _ (match ?x with _ => _ end) => destruct x
    end ].

(** The methods that are built from others, unfolded down to the steps. *)
Ltac unfold_engine :=
  unfold Engine.withAsyncRequestContext,
    Engine.sendRegistrationRequest, Engine.sendAppMetadataEvent,
    Engine.sendStartRequest, Engine.sendStopRequest, Engine.sendTagRequest,
    Engine.sendStartSpan, Engine.sendTagSpan, Engine.sendStopSpan,
    Engine.sendThroughAgent, Engine.downloadAndLaunchAgent,
    Engine.createAgentForExistingSocket, Engine.makeProcessOptions,
    Engine.setupAgent, Engine.agentIsRunning, Engine.statisticsTick,
    Engine.startSendingStatistics, Engine.stopSendingStatistics,
    Engine.ignoresPath, Engine.getSocketFilePath, Engine.getSocketPath,
    Engine.getSocketType.

Ltac respects_all Hrefl Htrans Hlogged Hworld known leaf :=
  unfold_engine; repeat respects_step Hrefl Htrans Hlogged Hworld known leaf.

(** ** Setup *)

Section SetupFacts.

Context {W : Type} (X : Externals) (R : Runtime W).

Import Engine.

#[local] Abbreviation Scout := (@Engine.Scout W).
#[local] Abbreviation E := (@Engine.E W).

Lemma memo_refl (s : Scout) : memo s s.
Proof. by right. Qed.

Lemma memo_trans (s1 s2 s3 : Scout) : memo s1 s2 -> memo s2 s3 -> memo s1 s3.
Proof.
  unfold memo. intros [H1 | H1] [H2 | H2]; auto.
  - left. congruence.
  - right. congruence.
Qed.

Lemma memo_logged (s : Scout) ls : memo s (set_logged ls s).
Proof. by right. Qed.

Lemma memo_world (s : Scout) w : memo s (set_world w s).
Proof. by right. Qed.

(** [setup] with a stored promise, or with an agent, does nothing. *)
Lemma setup_again (s : Scout) p :
  settingUp s = Some p ->
  setup X R s = (Done (if hasAgent s then Resolved tt else p), s).
Proof.
  intros Hp. unfold setup, hasAgent, mbind, E_bind. cbn.
  destruct (agent s); cbn; rewrite ?Hp; reflexivity.
Qed.

Lemma setup_with_agent (s : Scout) :
  hasAgent s = true -> setup X R s = (Done (Resolved tt), s).
Proof.
  unfold setup, hasAgent, mbind, E_bind. cbn.
  destruct (agent s); cbn; intros H; try discriminate H; reflexivity.
Qed.

Lemma memo_setup : respects memo (setup X R).
Proof.
  intros s. destruct (settingUp s) as [p |] eqn:Hp; [| by left].
  rewrite (setup_again s p Hp). apply memo_refl.
Qed.

Ltac memo_steps known :=
  respects_all memo_refl memo_trans memo_logged memo_world known
    ltac:(right; reflexivity).

Lemma memo_after (op : operation) (s : Scout) : memo s (after X R op s).
Proof.
  assert (forall cb, respects memo (withAsyncRequestContext X R cb)) as Hctx.
  { intros cb. memo_steps fail. }
  destruct op; cbn [after];
    match goal with
    | |- memo s (snd (?m s)) => revert s; change (respects memo m)
    end;
    try (memo_steps fail; fail).
  - apply memo_setup.
  - unfold shutdown. memo_steps fail.
  - unfold transaction.
    memo_steps ltac:(first [apply memo_setup | apply Hctx]).
Qed.

End SetupFacts.

Section Inversion.

Context {W : Type} (X : Externals) (R : Runtime W).

Import Engine.

#[local] Abbreviation Scout := (@Engine.Scout W).
#[local] Abbreviation E := (@Engine.E W).

(** A sequence that returned went through both of its parts. *)
Lemma bind_Done {A B} (m : E A) (f : A -> E B) (s s' : Scout) (b : B) :
  (m ≫= f) s = (Done b, s') ->
  exists a s0, m s = (Done a, s0) /\ f a s0 = (Done b, s').
Proof.
  unfold mbind, E_bind. destruct (m s) as [[a | e |] s0]; intros H;
    [eauto | discriminate H | discriminate H].
Qed.

Lemma settle_Resolved {A} (m : E A) (s s' : Scout) (a : A) :
  settle m s = (Done (Resolved a), s') -> m s = (Done a, s').
Proof.
  unfold settle. destruct (m s) as [[a0 | e |] s0]; intros H; inversion H.
  reflexivity.
Qed.

Lemma settle_Done {A} (m : E A) (s s' : Scout) (p : promise A) :
  settle m s = (Done p, s') -> s' = snd (m s).
Proof.
  unfold settle. destruct (m s) as [[a0 | e |] s0]; intros H; by inversion H.
Qed.

(** The first [setup] stores the promise it returns. *)
Lemma setup_stores (s s' : Scout) p :
  hasAgent s = false -> settingUp s = None ->
  setup X R s = (Done p, s') -> settingUp s' = Some p.
Proof.
  intros Hno Hnone. unfold setup, hasAgent in *.
  intros H. apply bind_Done in H as (a & s0 & Ha & H).
  inversion Ha; subst a s0; clear Ha.
  destruct (agent s); try discriminate Hno;
    apply bind_Done in H as (pending & s0 & Hp & H);
    inversion Hp; subst pending s0; clear Hp; rewrite Hnone in H;
    apply bind_Done in H as (? & s1 & _ & H);
    apply bind_Done in H as (? & s2 & _ & H);
    apply bind_Done in H as (? & s3 & _ & H);
    apply bind_Done in H as (q & s4 & _ & H);
    apply bind_Done in H as (? & s5 & Hm & H);
    inversion Hm; subst; inversion H; subst; reflexivity.
Qed.

End Inversion.

(** X12.  [setup] runs its launch sequence at most once on an instance.  The
    first call that gets to return a promise stores it; no later call of any
    method replaces the stored promise; and with a stored promise [setup]
    does nothing at all: it resolves at once if an agent is present and
    returns the stored promise otherwise, as it does after a [shutdown]. *)
Theorem setup_runs_once {W : Type} (X : Externals) (R : Runtime W) :
  (forall s s' p,
     Engine.hasAgent s = false -> Engine.settingUp s = None ->
     Engine.setup X R s = (Engine.Done p, s') ->
     Engine.settingUp s' = Some p) /\
  (forall s op p,
     Engine.settingUp s = Some p ->
     Engine.settingUp (Engine.after X R op s) = Some p) /\
  (forall s p,
     Engine.settingUp s = Some p ->
     Engine.setup X R s
     = (Engine.Done (if Engine.hasAgent s then Resolved tt else p), s)).
Proof.
  split; [| split].
  - apply setup_stores.
  - intros s op p Hp. destruct (memo_after X R op s) as [H | H]; congruence.
  - apply setup_again.
Qed.

(** On the sample engine: [setup] after [setup] and [shutdown] resolves and
    leaves the engine shut down, without an agent. *)
Example setup_after_shutdown :
  Engine.setup Sample.host (Sample.runtime true) Sample.stopped
    = (Engine.Done (Resolved tt), Sample.stopped) /\
  Engine.hasAgent Sample.stopped = false.
Proof. vm_compute. split; reflexivity. Qed.

Section SetupResolved.

Context {W : Type} (X : Externals) (R : Runtime W).

Import Engine.

#[local] Abbreviation Scout := (@Engine.Scout W).
#[local] Abbreviation E := (@Engine.E W).

Lemma launching_refl (s : Scout) : launching s s.
Proof. by repeat split. Qed.

Lemma launching_trans (s1 s2 s3 : Scout) :
  launching s1 s2 -> launching s2 s3 -> launching s1 s3.
Proof. unfold launching. intros H1 H2. intuition congruence. Qed.

Lemma registering_refl (s : Scout) : registering s s.
Proof. by repeat split. Qed.

Lemma registering_trans (s1 s2 s3 : Scout) :
  registering s1 s2 -> registering s2 s3 -> registering s1 s3.
Proof. unfold registering. intros H1 H2. intuition congruence. Qed.

Ltac launching_steps :=
  respects_all launching_refl launching_trans
    (fun (s : Scout) (ls : list LogEntry) => launching_refl (set_logged ls s))
    (fun (s : Scout) (w : W) => launching_refl (set_world w s))
    fail ltac:(by repeat split).

Ltac registering_steps :=
  respects_all registering_refl registering_trans
    (fun (s : Scout) (ls : list LogEntry) => registering_refl (set_logged ls s))
    (fun (s : Scout) (w : W) => registering_refl (set_world w s))
    fail ltac:(by repeat split).

Lemma launching_downloadAndLaunchAgent :
  respects launching (downloadAndLaunchAgent X R).
Proof. launching_steps. Qed.

Lemma launching_createAgentForExistingSocket :
  respects launching (createAgentForExistingSocket X R).
Proof. launching_steps. Qed.

Lemma registering_sendThroughAgent msg async :
  respects registering (sendThroughAgent X R msg async).
Proof. registering_steps. Qed.

Lemma registering_sendRegistrationRequest :
  respects registering (sendRegistrationRequest X R).
Proof. registering_steps. Qed.

Lemma registering_sendAppMetadataEvent :
  respects registering (sendAppMetadataEvent X R).
Proof. registering_steps. Qed.

Ltac run_logs :=
  repeat match goal with
         | |- context [log X R ?m ?l ?s] =>
             let ls := fresh "ls" in
             destruct (log_run X R m l s) as [ls ->]; cbn
         end.

(** What a send through the agent adds to the messages handed over. *)
Lemma sendThroughAgent_sent msg async (s : Scout) :
  sent (snd (sendThroughAgent X R msg async s))
  = (sent s ++ if hasAgent s && truthy (Config.read X (config s) "monitor")
               then [msg] else [])%list.
Proof.
  pose proof (sendThroughAgent_cases X R msg async s) as Hc. unfold hasAgent.
  destruct (agent s).
  1, 2: destruct Hc as [ls ->]; cbn; by rewrite app_nil_r.
  destruct (truthy _); cbn.
  - by rewrite Hc.
  - destruct Hc as [ls ->]. cbn. by rewrite app_nil_r.
Qed.

Lemma catch_sent {A} (m : E A) (h : error -> E A) (s : Scout) :
  (forall e, respects (fun s s' => sent s' = sent s) (h e)) ->
  sent (snd (catch_ m h s)) = sent (snd (m s)) .
Proof.
  intros Hh. unfold catch_. destruct (m s) as [[a | e |] s0]; cbn; auto.
  apply Hh.
Qed.

Lemma sendRegistrationRequest_sent (s : Scout) :
  sent (snd (sendRegistrationRequest X R s))
  = (sent s ++ if hasAgent s && truthy (Config.read X (config s) "monitor")
               then [V1Register (or_empty (Config.read X (config s) "name"))
                       (or_empty (Config.read X (config s) "key")) APIVersion_V1]
               else [])%list.
Proof.
  unfold sendRegistrationRequest, getConfig, mbind, E_bind. cbn.
  run_logs.
  match goal with
  | |- context [sendThroughAgent X R ?msg ?async ?s0] =>
      pose proof (sendThroughAgent_sent msg async s0) as Hs;
      destruct (sendThroughAgent X R msg async s0) as [[p | e |] s1] eqn:Hrun
  end; cbn in *; try exact Hs.
  unfold settle, catch_, await, mbind, E_bind.
  destruct p; cbn; run_logs; exact Hs.
Qed.

Lemma sendAppMetadataEvent_sent (s : Scout) :
  sent (snd (sendAppMetadataEvent X R s))
  = (sent s ++ if hasAgent s && truthy (Config.read X (config s) "monitor")
               then [buildAppMetadataEvent R] else [])%list.
Proof.
  unfold sendAppMetadataEvent, mbind, E_bind.
  match goal with
  | |- context [sendThroughAgent X R ?msg ?async ?s0] =>
      pose proof (sendThroughAgent_sent msg async s0) as Hs;
      destruct (sendThroughAgent X R msg async s0) as [[p | e |] s1] eqn:Hrun
  end; cbn in *; try exact Hs.
  unfold settle, catch_, await, mbind, E_bind.
  destruct p; cbn; run_logs; exact Hs.
Qed.

(** Takes the first step off a sequence that returned, with what the step
    keeps. *)
Ltac peel H rel lemma :=
  let a := fresh "a" in
  let s0 := fresh "s" in
  let Hm := fresh "Hm" in
  let Hr := fresh "Hr" in
  apply bind_Done in H as (a & s0 & Hm & H);
  match type of Hm with
  | ?m ?s = _ =>
      assert (rel s s0) as Hr
        by (let Hx := fresh in
            assert (respects rel m) as Hx by lemma;
            specialize (Hx s); rewrite Hm in Hx; exact Hx)
  end.

Lemma idle_refl (s : Scout) : idle s s.
Proof. by repeat split. Qed.

Lemma idle_trans (s1 s2 s3 : Scout) : idle s1 s2 -> idle s2 s3 -> idle s1 s3.
Proof. unfold idle, registering. intros H1 H2. intuition congruence. Qed.

Ltac idle_steps :=
  respects_all idle_refl idle_trans
    (fun (s : Scout) (ls : list LogEntry) => idle_refl (set_logged ls s))
    (fun (s : Scout) (w : W) => idle_refl (set_world w s))
    fail ltac:(by repeat split).

(** [startSendingStatistics] leaves the field set, and starts the timer if
    the field was not set. *)
Lemma startSendingStatistics_run (s : Scout) :
  let s' := snd (startSendingStatistics X R s) in
  statsSendingInterval s' = true /\
  (statsSendingInterval s = false -> timerRunning s' = true) /\
  agent s' = agent s /\ sent s' = sent s /\
  uncaughtExceptionListenerFn s' = uncaughtExceptionListenerFn s /\
  processListeners s' = processListeners s.
Proof.
  unfold startSendingStatistics, mbind, E_bind. cbn.
  destruct (statsSendingInterval s) eqn:Hst; cbn.
  - rewrite Hst. repeat split. discriminate.
  - run_logs. repeat split.
Qed.

Ltac launch :=
  first [ apply launching_downloadAndLaunchAgent
        | apply launching_createAgentForExistingSocket
        | launching_steps ].

Ltac register :=
  first [ apply registering_sendRegistrationRequest
        | apply registering_sendAppMetadataEvent
        | registering_steps ].

(** [setup], once it has resolved. *)
Lemma setup_resolved (s s' : Scout) :
  hasAgent s = false -> settingUp s = None ->
  setup X R s = (Done (Resolved tt), s') ->
  hasAgent s' = true /\
  uncaughtExceptionListenerFn s' = true /\
  processListeners s' = S (processListeners s) /\
  statsSendingInterval s' = true /\
  (statsSendingInterval s = false -> timerRunning s' = true) /\
  sent s' = (sent s ++ if truthy (Config.read X (config s) "monitor")
                       then registration_messages X R (config s) else [])%list.
Proof.
  intros Hno Hnone H. unfold setup, hasAgent in Hno, H.
  apply bind_Done in H as (a & s0 & Ha & H). inversion Ha; subst a s0; clear Ha.
  assert (forall k : E (promise unit),
            match agent s with AgentPresent _ => mret (Resolved tt) | _ => k end
            = k) as Hk by (intros k; destruct (agent s); [reflexivity.. | discriminate]).
  rewrite Hk in H; clear Hk.
  apply bind_Done in H as (a & s0 & Ha & H). inversion Ha; subst a s0; clear Ha.
  rewrite Hnone in H.
  assert (forall s1 s2 s3 : Scout,
            launching s1 s2 -> registering s2 s3 -> sent s3 = sent s2 ->
            launching s1 s3) as Hmix.
  { unfold launching, registering. intros. intuition congruence. }
  peel H (@launching W) launch.
  peel H (@launching W) launch.
  peel H (@launching W) launch.
  pose proof (launching_trans _ _ _ Hr (launching_trans _ _ _ Hr0 Hr1)) as Hl.
  clear Hr Hr0 Hr1 Hm Hm0 Hm1.
  apply bind_Done in H as (p & s4 & Hchain & H).
  apply bind_Done in H as (? & s5 & Hmod & H).
  inversion Hmod; subst; clear Hmod. inversion H; subst; clear H.
  apply settle_Resolved in Hchain. rename Hchain into H.
  peel H (@launching W) launch.
  peel H (@launching W) launch.
  pose proof (launching_trans _ _ _ Hl (launching_trans _ _ _ Hr Hr0)) as Hl'.
  inversion Hm0; subst. clear Hl Hr Hr0 Hm Hm0. rename Hl' into Hl.
  destruct (agent s5) as [| | ag] eqn:Hag;
    [ apply bind_Done in H as (? & ? & Hm & _); discriminate Hm
    | apply bind_Done in H as (? & ? & Hm & _); discriminate Hm |].
  peel H (@idle W) idle_steps.
  peel H (@idle W) idle_steps.
  peel H (@idle W) idle_steps. inversion Hm1; subst.
  peel H (@idle W) idle_steps.
  peel H (@idle W) idle_steps.
  peel H (@idle W) idle_steps. inversion Hm4; subst.
  pose proof (idle_trans _ _ _ Hr
                (idle_trans _ _ _ Hr0
                   (idle_trans _ _ _ Hr1 (idle_trans _ _ _ Hr2 Hr3)))) as Hi.
  clear Hr Hr0 Hr1 Hr2 Hr3 Hr4 Hm Hm0 Hm1 Hm2 Hm3 Hm4.
  peel H (@idle W) idle_steps.
  pose proof (idle_trans _ _ _ Hi Hr) as Hi'. clear Hi Hr Hm. rename Hi' into Hi.
  (* the registration *)
  peel H (@registering W) register.
  match type of Hm with
  | _ ?st = _ => pose proof (sendRegistrationRequest_sent st) as Hsent1
  end.
  rewrite Hm in Hsent1. cbn [snd] in Hsent1. clear Hm.
  peel H (@idle W) idle_steps. clear Hm.
  peel H (@registering W) register.
  match type of Hm with
  | _ ?st = _ => pose proof (sendAppMetadataEvent_sent st) as Hsent2
  end.
  rewrite Hm in Hsent2. cbn [snd] in Hsent2. clear Hm.
  peel H (@idle W) idle_steps. clear Hm.
  peel H (@idle W) idle_steps. clear Hm.
  peel H (@idle W) idle_steps. clear Hm.
  (* the hooks *)
  apply bind_Done in H as (? & ? & Hm & H). inversion Hm; subst; clear Hm.
  apply bind_Done in H as (? & ? & Hm & H). inversion Hm; subst; clear Hm.
  apply bind_Done in H as (? & ? & Hm & H). inversion H; subst; clear H.
  match type of Hm with
  | _ ?st = _ => pose proof (startSendingStatistics_run st) as Hstart
  end.
  rewrite Hm in Hstart. cbn in Hstart. clear Hm Hmix.
  unfold idle, registering, launching in *. unfold hasAgent in *.
  destruct Hl as (Hc5 & Hs5 & _ & Hu5 & Hp5 & Hi5 & _).
  destruct Hi as ((Hc8 & Ha8 & _ & _ & Hp8 & Hi8 & _) & Hs8).
  destruct Hr as (Hc10 & Ha10 & _ & _ & Hp10 & Hi10 & _).
  destruct Hr0 as ((Hc11 & Ha11 & _ & _ & Hp11 & Hi11 & _) & Hs11).
  destruct Hr1 as (Hc12 & Ha12 & _ & _ & Hp12 & Hi12 & _).
  destruct Hr2 as ((_ & Ha13 & _ & _ & Hp13 & Hi13 & _) & Hs13).
  destruct Hr3 as ((_ & Ha14 & _ & _ & Hp14 & Hi14 & _) & Hs14).
  destruct Hr4 as ((_ & Ha15 & _ & _ & Hp15 & Hi15 & _) & Hs15).
  destruct Hstart as (Hst & Htimer & Hagent & Hsent & Hunc & Hproc).
  cbn.
  rewrite Ha8, Hag in Hsent1.
  rewrite Ha11, Ha10, Ha8, Hag in Hsent2.
  rewrite Hc8, Hc5 in Hsent1. rewrite Hc11, Hc10, Hc8, Hc5 in Hsent2.
  cbn [andb] in Hsent1, Hsent2.
  split_and!.
  - by rewrite Hagent, Ha15, Ha14, Ha13, Ha12, Ha11, Ha10, Ha8, Hag.
  - done.
  - rewrite Hproc. f_equal. congruence.
  - done.
  - intros Hoff. apply Htimer. congruence.
  - rewrite Hsent, Hs15, Hs14, Hs13, Hsent2, Hs11, Hsent1, Hs8, Hs5.
    unfold registration_messages.
    destruct (truthy (Config.read X (config s) "monitor"));
      by rewrite <- ?app_assoc, ?app_nil_r.
Qed.

End SetupResolved.



(** ** Shutdown and the statistics timer *)

Section ShutdownFacts.

Context {W : Type} (X : Externals) (R : Runtime W).

Import Engine.

#[local] Abbreviation Scout := (@Engine.Scout W).
#[local] Abbreviation E := (@Engine.E W).

Ltac run_logs :=
  repeat match goal with
         | |- context [log X R ?m ?l ?s] =>
             let ls := fresh "ls" in
             destruct (log_run X R m l s) as [ls ->]; cbn
         end.

(** [shutdown] with an agent present. *)
Lemma shutdown_present (s : Scout) (a : ProcessOptions) :
  agent s = AgentPresent a ->
  exists p s',
    shutdown X R s = (Done p, s') /\
    sent s' = sent s /\
    statsSendingInterval s' = statsSendingInterval s /\
    (statsSendingInterval s = true -> timerRunning s' = false) /\
    processListeners s'
    = (if uncaughtExceptionListenerFn s then pred (processListeners s)
       else processListeners s) /\
    match p with
    | Resolved _ =>
        agent s' = AgentNull /\ emitted s' = (emitted s ++ [Shutdown])%list
    | _ => agent s' = agent s /\ emitted s' = emitted s
    end.
Proof.
  intros Ha. unfold shutdown, stopSendingStatistics, mbind, E_bind. cbn.
  destruct (statsSendingInterval s) eqn:Hst; cbn; rewrite ?Hst; cbn;
    run_logs; rewrite Ha; cbn;
    unfold call, settle, await, mbind, E_bind; cbn;
    destruct (uncaughtExceptionListenerFn s) eqn:Hl; cbn;
    destruct (agent_disconnect R a _) as [[[] | e |] w]; cbn; rewrite ?Ha; cbn;
    try destruct (truthy _); cbn;
    try destruct (agent_stopProcess R a w) as [[[] | e' |] w']; cbn;
    do 2 eexists; (split; [reflexivity |]); cbn; rewrite ?Hst, ?Hl, ?Ha;
    by repeat split.
Qed.

Lemma timer_stays_off_refl (s : Scout) : timer_stays_off s s.
Proof. by intros H1 H2. Qed.

Lemma timer_stays_off_trans (s1 s2 s3 : Scout) :
  timer_stays_off s1 s2 -> timer_stays_off s2 s3 -> timer_stays_off s1 s3.
Proof. intros H1 H2 Hi Ht. destruct (H1 Hi Ht). by apply H2. Qed.

Lemma timer_stays_off_start : respects timer_stays_off (startSendingStatistics X R).
Proof.
  intros s Hi Ht. unfold startSendingStatistics, mbind, E_bind. cbn.
  rewrite Hi. by cbn.
Qed.

Ltac timer_steps known :=
  respects_all timer_stays_off_refl timer_stays_off_trans
    (fun (s : Scout) (ls : list LogEntry) => timer_stays_off_refl (set_logged ls s))
    (fun (s : Scout) (w : W) => timer_stays_off_refl (set_world w s))
    known ltac:(by intros ? ?).

Lemma timer_stays_off_setup : respects timer_stays_off (setup X R).
Proof.
  unfold setup. timer_steps ltac:(apply timer_stays_off_start).
Qed.

Lemma timer_stays_off_after (op : operation) (s : Scout) :
  timer_stays_off s (after X R op s).
Proof.
  assert (forall cb, respects timer_stays_off (withAsyncRequestContext X R cb))
    as Hctx by (intros cb; timer_steps fail).
  destruct op; cbn [after];
    match goal with
    | |- timer_stays_off s (snd (?m s)) =>
        revert s; change (respects timer_stays_off m)
    end;
    try (timer_steps fail; fail).
  - apply timer_stays_off_setup.
  - unfold shutdown. timer_steps fail.
  - unfold transaction.
    timer_steps ltac:(first [apply timer_stays_off_setup | apply Hctx]).
Qed.

Lemma timer_stays_off_after_all (ops : list operation) (s : Scout) :
  timer_stays_off s (after_all X R ops s).
Proof.
  revert s. induction ops as [| op ops IH]; intros s; cbn.
  - apply timer_stays_off_refl.
  - eapply timer_stays_off_trans; [apply timer_stays_off_after | apply IH].
Qed.


(** One firing of the statistics timer. *)
Lemma statisticsTick_run (s : Scout) :
  exists s',
    statisticsTick X R s = (Done tt, s') /\
    agent s' = agent s /\ emitted s' = emitted s /\
    config s' = config s /\
    match agent s with
    | AgentPresent _ =>
        let source := "Pid: " +:+ to_js_string (VNum (pid R)) in
        sent s' = (sent s ++ [V1ApplicationEvent source MemoryUsageMB;
                              V1ApplicationEvent source CPUUtilizationPercent])%list /\
        timerRunning s' = timerRunning s
    | _ =>
        sent s' = sent s /\ world s' = world s /\
        (statsSendingInterval s = true -> timerRunning s' = false)
    end.
Proof.
  unfold statisticsTick, mbind, E_bind. cbn.
  destruct (agent s) as [| | a] eqn:Ha; run_logs.
  - destruct (statsSendingInterval s) eqn:Hst; cbn;
      (eexists; split; [reflexivity |]); cbn; by rewrite ?Ha.
  - destruct (statsSendingInterval s) eqn:Hst; cbn;
      (eexists; split; [reflexivity |]); cbn; by rewrite ?Ha.
  - unfold call, mbind, E_bind. cbn.
    destruct (agent_sendAsync R a _ _) as [r1 w1]. cbn.
    destruct (agent_sendAsync R a _ _) as [r2 w2]. cbn.
    eexists; split; [reflexivity |]. cbn. rewrite Ha.
    repeat split. by rewrite <- app_assoc.
Qed.


End ShutdownFacts.

(** X14.  [shutdown] on an instance that has an agent never throws.  Whatever
    its promise comes to, no message is handed to the agent, the statistics
    timer is stopped (the interval field is left set), and the stored
    uncaught-exception listener is taken off the process.  Only when the
    promise resolves is the agent cleared and [Shutdown] emitted, once; when
    the disconnect or the stop of the process fails or never answers, the
    agent stays and no event is emitted. *)
Theorem shutdown_with_agent {W : Type} (X : Externals) (R : Runtime W)
    (s : @Engine.Scout W) (a : ProcessOptions) :
  Engine.agent s = AgentPresent a ->
  exists p s',
    Engine.shutdown X R s = (Engine.Done p, s') /\
    Engine.sent s' = Engine.sent s /\
    Engine.statsSendingInterval s' = Engine.statsSendingInterval s /\
    (Engine.statsSendingInterval s = true -> Engine.timerRunning s' = false) /\
    Engine.processListeners s'
    = (if Engine.uncaughtExceptionListenerFn s
       then pred (Engine.processListeners s)
       else Engine.processListeners s) /\
    match p with
    | Resolved _ =>
        Engine.agent s' = AgentNull /\
        Engine.emitted s' = (Engine.emitted s ++ [Shutdown])%list
    | _ =>
        Engine.agent s' = Engine.agent s /\
        Engine.emitted s' = Engine.emitted s
    end.
Proof. apply shutdown_present. Qed.

Lemma shutdown_with_agent_witness :
  exists p s',
    Engine.shutdown Sample.host (Sample.runtime true) Sample.launched
    = (Engine.Done p, s') /\
    Engine.sent s' = Engine.sent Sample.launched /\
    Engine.processListeners s' = 0.
Proof.
  edestruct (shutdown_with_agent Sample.host (Sample.runtime true)
               Sample.launched) as (p & s' & H & Hs & _ & _ & Hl & _);
    [vm_compute; reflexivity |].
  exists p, s'. split; [exact H | split; [exact Hs | exact Hl]].
Defined.

(** X15.  Statistics are not resumed on an instance.  Once the interval field
    is set and the timer has been stopped (as a [shutdown] leaves them), no
    sequence of calls and timer firings clears the field or starts the timer
    again. *)
Theorem statistics_timer_stays_off {W : Type} (X : Externals) (R : Runtime W)
    (s : @Engine.Scout W) (ops : list Engine.operation) :
  Engine.statsSendingInterval s = true -> Engine.timerRunning s = false ->
  Engine.statsSendingInterval (after_all X R ops s) = true /\
  Engine.timerRunning (after_all X R ops s) = false.
Proof. apply timer_stays_off_after_all. Qed.

Lemma statistics_timer_stays_off_witness :
  Engine.statsSendingInterval
    (after_all Sample.host (Sample.runtime true)
       [Engine.OpSetup; Engine.OpTransaction "GET /" Sample.callback;
        Engine.OpStatisticsTick] Sample.stopped) = true /\
  Engine.timerRunning
    (after_all Sample.host (Sample.runtime true)
       [Engine.OpSetup; Engine.OpTransaction "GET /" Sample.callback;
        Engine.OpStatisticsTick] Sample.stopped) = false.
Proof.
  apply (statistics_timer_stays_off Sample.host (Sample.runtime true)
           Sample.stopped);
    vm_compute; reflexivity.
Defined.

(** X16.  One firing of the statistics timer never throws, emits no event
    and leaves the agent field as it is.  With an agent present it hands the
    agent exactly two application events, memory usage and then CPU
    utilisation, whether or not [config.monitor] is set (it does not go
    through [sendThroughAgent]).  Without an agent it hands over nothing,
    makes no call out of the engine, and stops the timer. *)
Theorem statisticsTick_sends_two_events {W : Type} (X : Externals)
    (R : Runtime W) (s : @Engine.Scout W) :
  exists s',
    Engine.statisticsTick X R s = (Engine.Done tt, s') /\
    Engine.agent s' = Engine.agent s /\
    Engine.emitted s' = Engine.emitted s /\
    Engine.config s' = Engine.config s /\
    match Engine.agent s with
    | AgentPresent _ =>
        let source := "Pid: " +:+ to_js_string (VNum (pid R)) in
        Engine.sent s'
        = (Engine.sent s ++ [V1ApplicationEvent source MemoryUsageMB;
                             V1ApplicationEvent source CPUUtilizationPercent])%list /\
        Engine.timerRunning s' = Engine.timerRunning s
    | _ =>
        Engine.sent s' = Engine.sent s /\
        Engine.world s' = Engine.world s /\
        (Engine.statsSendingInterval s = true -> Engine.timerRunning s' = false)
    end.
Proof. apply statisticsTick_run. Qed.

(** On the sample engine with monitoring off, a tick still hands the two
    events to the agent. *)
Example statisticsTick_without_monitoring :
  let s := snd (Engine.setup Sample.host (Sample.runtime true)
                  (Sample.engine (<["monitor" := VBool false]> Sample.launch_config))) in
  Engine.sent s = [] /\
  Engine.sent (snd (Engine.statisticsTick Sample.host (Sample.runtime true) s))
  = [V1ApplicationEvent "Pid: 4242" MemoryUsageMB;
     V1ApplicationEvent "Pid: 4242" CPUUtilizationPercent].
Proof. vm_compute. split; reflexivity. Qed.

(** ** The socket getters *)

Section SocketFacts.

Context {W : Type} (X : Externals) (R : Runtime W).

Import Engine.

#[local] Abbreviation Scout := (@Engine.Scout W).

Lemma startsWith_unix (q : string) : startsWith ("unix://" +:+ q) "unix://" = true.
Proof. unfold startsWith. cbn. by destruct q. Qed.

(** The three getters, from what the [socketPath] getter gives. *)
Lemma socket_getters (s : Scout) (q : string) :
  socketPath X R s = (Done (VStr q), s) ->
  exists uri,
    getSocketPath X R s = (Done (VStr uri), s) /\
    (if startsWith q "tcp://"
     then uri = q /\
          getSocketType X R s = (Done TCP, s) /\
          getSocketFilePath X R s = (Done VNull, s)
     else uri = "unix://" +:+ q /\
          getSocketType X R s = (Done Unix, s) /\
          getSocketFilePath X R s = (Done (VStr q), s)) /\
    (startsWith uri "tcp://" = true \/ startsWith uri "unix://" = true).
Proof.
  intros Hq.
  assert (getSocketType X R s
          = (Done (if startsWith q "tcp://" then TCP else Unix), s)) as Hty.
  { unfold getSocketType, mbind, E_bind. rewrite Hq.
    by destruct (startsWith q "tcp://"). }
  unfold getSocketPath, getSocketFilePath, mbind, E_bind.
  rewrite Hty, Hq. destruct (startsWith q "tcp://") eqn:Htcp; cbn.
  - exists q. split; [reflexivity | split; [by repeat split | by left]].
  - exists ("unix://" +:+ q).
    split; [reflexivity | split; [by repeat split |]].
    right. apply startsWith_unix.
Qed.

End SocketFacts.

(** X17.  Whenever the [socketPath] getter gives a string, [getSocketPath]
    returns a URI with a scheme: the string itself when it starts with
    [tcp://], and the string behind [unix://] otherwise.  [getSocketType] and
    [getSocketFilePath] agree with it (the file path is null exactly for a
    TCP socket), and none of the getters changes the instance. *)
Theorem socket_uri_has_scheme {W : Type} (X : Externals) (R : Runtime W)
    (s : @Engine.Scout W) (q : string) :
  Engine.socketPath X R s = (Engine.Done (VStr q), s) ->
  exists uri,
    Engine.getSocketPath X R s = (Engine.Done (VStr uri), s) /\
    (if startsWith q "tcp://"
     then uri = q /\
          Engine.getSocketType X R s = (Engine.Done TCP, s) /\
          Engine.getSocketFilePath X R s = (Engine.Done VNull, s)
     else uri = "unix://" +:+ q /\
          Engine.getSocketType X R s = (Engine.Done Unix, s) /\
          Engine.getSocketFilePath X R s = (Engine.Done (VStr q), s)) /\
    (startsWith uri "tcp://" = true \/ startsWith uri "unix://" = true).
Proof. apply socket_getters. Qed.

Lemma socket_uri_has_scheme_witness :
  exists uri,
    Engine.getSocketPath Sample.host (Sample.runtime true) Sample.launched
    = (Engine.Done (VStr uri), Sample.launched) /\
    (startsWith uri "tcp://" = true \/ startsWith uri "unix://" = true).
Proof.
  edestruct (socket_uri_has_scheme Sample.host (Sample.runtime true)
               Sample.launched) as (uri & H & _ & Hs);
    [vm_compute; reflexivity |].
  exists uri. split; [exact H | exact Hs].
Defined.

(** ** Transactions *)

Section TransactionFacts.

Context {W : Type} (X : Externals) (R : Runtime W).

Import Engine.

#[local] Abbreviation Scout := (@Engine.Scout W).
#[local] Abbreviation E := (@Engine.E W).

Ltac run_logs :=
  repeat match goal with
         | |- context [log X R ?m ?l ?s] =>
             let ls := fresh "ls" in
             destruct (log_run X R m l s) as [ls ->]; cbn
         end.

Lemma same_called_refl (s : Scout) : same_called s s.
Proof. reflexivity. Qed.

Lemma same_called_trans (s1 s2 s3 : Scout) :
  same_called s1 s2 -> same_called s2 s3 -> same_called s1 s3.
Proof. unfold same_called. congruence. Qed.

(** [setup] calls no callback of the user. *)
Lemma same_called_setup : respects same_called (setup X R).
Proof.
  unfold setup.
  respects_all same_called_refl same_called_trans
    (fun (s : Scout) (ls : list LogEntry) => same_called_refl (set_logged ls s))
    (fun (s : Scout) (w : W) => same_called_refl (set_world w s))
    fail ltac:(reflexivity).
Qed.

(** [withAsyncRequestContext] returns a promise and has called the callback
    once. *)
Lemma withAsyncRequestContext_calls_once (cb : DoneCallback W) (s : Scout) :
  exists p s' x,
    withAsyncRequestContext X R cb s = (Done p, s') /\
    called s' = (called s ++ [x])%list.
Proof.
  unfold withAsyncRequestContext, call, mbind, E_bind. run_logs.
  destruct (startRequestSync R _) as [[e | req] w]; cbn; run_logs;
    destruct (cb _ _) as [[e' | p] w']; cbn; run_logs; eauto.
Qed.

(** [transaction] and the callback. *)
Lemma transaction_calls (name : string) (cb : DoneCallback W) (s : Scout) :
  let r := transaction X R name cb s in
  (called (snd r) = called s /\ forall p, fst r = Done p -> p = Pending) \/
  (exists x p, called (snd r) = (called s ++ [x])%list /\ fst r = Done p).
Proof.
  unfold transaction, mbind, E_bind. run_logs.
  match goal with
  | |- context [setup X R ?s1] =>
      pose proof (same_called_setup s1) as Hc;
      destruct (setup X R s1) as [[[[] | e |] | e |] s2]
  end; cbn in *; unfold same_called in Hc; cbn in Hc.
  - unfold settle, mbind, E_bind.
    destruct (withAsyncRequestContext_calls_once cb s2)
      as (p & s3 & x & -> & Hx).
    right. exists x. rewrite <- Hc, <- Hx.
    destruct p as [v | e |]; cbn; run_logs; eauto.
  - unfold settle, mbind, E_bind. run_logs.
    match goal with
    | |- context [withAsyncRequestContext X R cb ?s3] =>
        destruct (withAsyncRequestContext_calls_once cb s3)
          as (p & s4 & x & -> & Hx)
    end.
    right. exists x. cbn in Hx. rewrite <- Hc, <- Hx.
    destruct p as [v | e' |]; cbn; eauto.
  - left. split; [exact Hc | intros p Hp; by inversion Hp].
  - left. split; [exact Hc | intros p Hp; discriminate Hp].
  - left. split; [exact Hc | intros p Hp; discriminate Hp].
Qed.

End TransactionFacts.

(** X18.  [transaction] calls the callback of the user at most once.  When
    the callback has not been called, the transaction threw, or hangs, or
    returned a promise that nothing settles ([setup] threw or its promise is
    still pending); otherwise [transaction] has returned a promise and the
    callback has been called exactly once, whether [setup] resolved or
    rejected. *)
Theorem transaction_calls_callback_once {W : Type} (X : Externals)
    (R : Runtime W) (name : string) (cb : DoneCallback W)
    (s : @Engine.Scout W) :
  let r := Engine.transaction X R name cb s in
  (Engine.called (snd r) = Engine.called s /\
   forall p, fst r = Engine.Done p -> p = Pending) \/
  (exists x p,
     Engine.called (snd r) = (Engine.called s ++ [x])%list /\
     fst r = Engine.Done p).
Proof. apply transaction_calls. Qed.

(** On the sample engines: after a [setup] that went through, after one that
    failed, and after a shutdown, a transaction calls the callback once, with
    the request it made. *)
Example transaction_on_samples :
  Forall (fun s =>
            Engine.called
              (snd (Engine.transaction Sample.host (Sample.runtime true)
                      "GET /" Sample.callback s))
            = [Some Sample.request1])
    [Sample.launched; Sample.failed; Sample.stopped].
Proof. repeat constructor. Qed.

(** ** A setup that does not resolve *)

Section SetupUnresolved.

Context {W : Type} (X : Externals) (R : Runtime W).

Import Engine.

#[local] Abbreviation Scout := (@Engine.Scout W).
#[local] Abbreviation E := (@Engine.E W).

Ltac run_logs :=
  repeat match goal with
         | |- context [log X R ?m ?l ?s] =>
             let ls := fresh "ls" in
             destruct (log_run X R m l s) as [ls ->]; cbn
         end.

Lemma unhooked_refl (s : Scout) : unhooked s s.
Proof. by repeat split. Qed.

Lemma unhooked_trans (s1 s2 s3 : Scout) :
  unhooked s1 s2 -> unhooked s2 s3 -> unhooked s1 s3.
Proof. unfold unhooked. intros H1 H2. intuition congruence. Qed.

Ltac unhooked_steps :=
  respects_all unhooked_refl unhooked_trans
    (fun (s : Scout) (ls : list LogEntry) => unhooked_refl (set_logged ls s))
    (fun (s : Scout) (w : W) => unhooked_refl (set_world w s))
    fail ltac:(by repeat split).

Lemma quiet_bind {A B} (m : E A) (f : A -> E B) :
  respects unhooked m -> (forall a, quiet_unless_done (f a)) ->
  quiet_unless_done (m ≫= f).
Proof.
  intros Hm Hf s. unfold mbind, E_bind. specialize (Hm s).
  destruct (m s) as [[a | e |] s1]; cbn in Hm; [| assumption | assumption].
  specialize (Hf a s1). destruct (f a s1) as [[b | e |] s2]; [done | |];
    by apply (unhooked_trans s s1 s2).
Qed.

Lemma quiet_done {A} (m : E A) :
  (forall s, exists a s', m s = (Done a, s')) -> quiet_unless_done m.
Proof. intros H s. by destruct (H s) as (a & s' & ->). Qed.

(** The chain of [setup], from the launch promise on. *)
Lemma quiet_chain (doLaunch : promise ProcessOptions) :
  quiet_unless_done (
    await doLaunch;;
    a ← gets agent;
    (match a with
     | AgentPresent a' => connecting ← call (agent_connect R a'); await connecting
     | _ => raise NoAgentPresent
     end);;
    log X R "[scout] successfully connected to agent" Debug;;
    config ← gets getConfig;
    (if negb (truthy (Config.read X config "name"))
     then log X R "[scout] 'name' configuration value missing" Warn
     else mret tt);;
    (if negb (truthy (Config.read X config "key"))
     then log X R "[scout] 'key' missing in configuration" Warn
     else mret tt);;
    a ← gets agent;
    (match a with
     | AgentPresent a' =>
         r ← call (agent_setRegistrationAndMetadata R a'
                     (V1Register (or_empty (Config.read X config "name"))
                                 (or_empty (Config.read X config "key"))
                                 APIVersion_V1)
                     (buildAppMetadataEvent R));
         attempt r
     | _ => raise NoAgentPresent
     end);;
    registering ← sendRegistrationRequest X R;
    await registering;;
    describing ← sendAppMetadataEvent X R;
    await describing;;
    integrated ← call (setupIntegrations R);
    attempt integrated;;
    modify (fun s =>
      set_processListeners (S (processListeners s))
        (set_uncaughtExceptionListenerFn true s));;
    call (fun w => (tt, setActiveGlobalScoutInstance R w));;
    startSendingStatistics X R;;
    mret tt).
Proof.
  repeat (apply quiet_bind; [by unhooked_steps | intros ?]).
  apply quiet_done. intros s.
  unfold startSendingStatistics, call, modify, mbind, E_bind. cbn.
  destruct (statsSendingInterval s); cbn; run_logs; eauto.
Qed.

Lemma quiet_unless_bind {A B} (ok : outcome B -> Prop) (m : E A) (f : A -> E B) :
  respects unhooked m -> (forall a, quiet_unless ok (f a)) ->
  quiet_unless ok (m ≫= f).
Proof.
  intros Hm Hf s. unfold mbind, E_bind. specialize (Hm s).
  destruct (m s) as [[a | e |] s1]; cbn in Hm; [| by right | by right].
  destruct (Hf a s1) as [H | H]; [by left | right].
  by apply (unhooked_trans s s1).
Qed.

(** The end of [setup]: the promise of the chain is stored and returned. *)
Lemma quiet_unless_stored (m : E unit) :
  quiet_unless_done m ->
  quiet_unless (fun o => o = Done (Resolved tt))
    (p ← settle m; modify (set_settingUp (Some p));; mret p).
Proof.
  intros Hm s. unfold settle, modify, mbind, E_bind. specialize (Hm s).
  destruct (m s) as [[[] | e |] s1]; cbn; [by left | right | right];
    destruct Hm as (? & ? & ? & ?); by repeat split.
Qed.

(** A [setup] that does anything but resolve has left the hooks alone. *)
Lemma setup_quiet : quiet_unless (fun o => o = Done (Resolved tt)) (setup X R).
Proof.
  unfold setup.
  apply quiet_unless_bind; [by unhooked_steps | intros a].
  assert (quiet_unless (fun o => o = Done (Resolved tt))
            (mret (Resolved tt) : E (promise unit))) as Hdone
    by (intros s; by left).
  destruct a; [| | exact Hdone];
    (apply quiet_unless_bind; [by unhooked_steps | intros [p |]];
     [ intros s; right; apply unhooked_refl |]);
    do 3 (apply quiet_unless_bind; [by unhooked_steps | intros ?]);
    apply quiet_unless_stored; apply quiet_chain.
Qed.

Lemma setup_unresolved (s s' : Scout) (o : outcome (promise unit)) :
  setup X R s = (o, s') -> o <> Done (Resolved tt) -> unhooked s s'.
Proof.
  intros H Ho. destruct (setup_quiet s) as [Hok | Hq]; rewrite H in *; cbn in *;
    [by destruct Ho | exact Hq].
Qed.

End SetupUnresolved.

(** X19.  A [setup] that does anything but resolve (it throws, it hangs, or
    its promise rejects or is never settled) has installed nothing: the
    stored uncaught-exception listener, the listeners on the process, the
    statistics interval and its timer are as they were before the call. *)
Theorem setup_unresolved_installs_nothing {W : Type} (X : Externals)
    (R : Runtime W) (s s' : @Engine.Scout W)
    (o : Engine.outcome (promise unit)) :
  Engine.setup X R s = (o, s') -> o <> Engine.Done (Resolved tt) ->
  unhooked s s'.
Proof. apply setup_unresolved. Qed.

Lemma setup_unresolved_installs_nothing_witness :
  unhooked (Sample.engine Sample.launch_config) Sample.failed.
Proof.
  apply (setup_unresolved_installs_nothing Sample.host (Sample.runtime false)
           (Sample.engine Sample.launch_config) Sample.failed
           (Engine.Done (Rejected (PlainError "download failed"))));
    [vm_compute; reflexivity | discriminate].
Defined.

(** ** Launching the agent *)

Section LaunchFacts.

Context {W : Type} (X : Externals) (R : Runtime W).

Import Engine.

#[local] Abbreviation Scout := (@Engine.Scout W).
#[local] Abbreviation E := (@Engine.E W).

Ltac run_logs :=
  repeat match goal with
         | |- context [log X R ?m ?l ?s] =>
             let ls := fresh "ls" in
             destruct (log_run X R m l s) as [ls ->]; cbn
         end.

Lemma same_download_refl (s : Scout) : same_download s s.
Proof. by split. Qed.

Lemma same_download_trans (s1 s2 s3 : Scout) :
  same_download s1 s2 -> same_download s2 s3 -> same_download s1 s3.
Proof. unfold same_download. intros H1 H2. intuition congruence. Qed.

Ltac same_download_steps :=
  respects_all same_download_refl same_download_trans
    (fun (s : Scout) (ls : list LogEntry) => same_download_refl (set_logged ls s))
    (fun (s : Scout) (w : W) => same_download_refl (set_world w s))
    fail ltac:(by split).

Lemma settle_run {A} (m : E A) (s : Scout) :
  exists p, settle m s = (Done p, snd (m s)) /\
            forall a, p = Resolved a -> m s = (Done a, snd (m s)).
Proof.
  unfold settle. destruct (m s) as [[a | e |] s1]; cbn; eexists;
    (split; [reflexivity |]); intros a' H; inversion H; by subst.
Qed.

(** The getters leave the instance as it is. *)
Lemma socketPath_state (s : Scout) : snd (socketPath X R s) = s.
Proof.
  unfold socketPath. destruct (truthy _); [reflexivity |].
  destruct (coreAgentVersion s); [| reflexivity].
  by destruct (semver_lt R _ _) as [e | []].
Qed.

Lemma getSocketType_state (s : Scout) : snd (getSocketType X R s) = s.
Proof.
  unfold getSocketType, mbind, E_bind.
  pose proof (socketPath_state s) as H.
  destruct (socketPath X R s) as [[v | e |] s1]; cbn in H; subst; try reflexivity.
  destruct v; try reflexivity. by destruct (startsWith _ _).
Qed.

Lemma getSocketPath_state (s : Scout) : snd (getSocketPath X R s) = s.
Proof.
  unfold getSocketPath, mbind, E_bind.
  pose proof (getSocketType_state s) as H.
  destruct (getSocketType X R s) as [[ty | e |] s1]; cbn in H; subst;
    try reflexivity.
  pose proof (socketPath_state s) as H.
  destruct (socketPath X R s) as [[v | e |] s1]; cbn in H; subst;
    try reflexivity.
  by destruct ty.
Qed.

(** The options [makeProcessOptions] builds hold the current path of the
    binary; they are stored. *)
Lemma makeProcessOptions_Done (s s' : Scout) (po : ProcessOptions) :
  makeProcessOptions X R s = (Done po, s') ->
  po_binPath po = binPath s /\ s' = set_processOptions (Some po) s.
Proof.
  unfold makeProcessOptions. intros H.
  apply bind_Done in H as (uri & s0 & Hm & H).
  pose proof (getSocketPath_state s) as Hs. rewrite Hm in Hs. cbn in Hs.
  subst s0. cbn in H. inversion H. by subst.
Qed.

Ltac step H :=
  let Hm := fresh "Hm" in
  apply bind_Done in H as (? & ? & Hm & H);
  first
    [ match type of Hm with
      | log X R ?m ?l ?s = _ =>
          let ls := fresh "ls" in
          let Hl := fresh "Hl" in
          destruct (log_run X R m l s) as [ls Hl]; rewrite Hl in Hm
      | socketPath X R ?s = _ =>
          let Hs := fresh "Hs" in
          pose proof (socketPath_state s) as Hs; rewrite Hm in Hs; cbn in Hs
      end; inversion Hm; subst; clear Hm
    | inversion Hm; subst; clear Hm ].

(** The chain of [downloadAndLaunchAgent] after the download, when it ends
    well: the agent it returns is the one stored, made for the downloaded
    binary. *)
Lemma launch_chain_resolved (bp : string) (st s' : Scout) (po : ProcessOptions) :
  (bp ← await (Resolved bp);
   modify (set_binPath bp);;
   shown ← socketPath X R;
   log X R ("[scout] using socket path [" +:+ to_js_string shown +:+ "]") Debug;;
   po ← makeProcessOptions X R;
   setupAgent po;;
   bin ← gets binPath;
   log X R ("[scout] starting process w/ bin @ path [" +:+ bin +:+ "]") Debug;;
   log X R "[scout] process options:" Debug;;
   a ← gets agent;
   (match a with
    | AgentPresent a' => started ← call (agent_start R a'); await started
    | _ => raise NoAgentPresent
    end);;
   log X R "[scout] agent successfully started" Debug;;
   a ← gets agent;
   match a with
   | AgentPresent a' => mret a'
   | _ => raise NoAgentPresent
   end) st = (Done po, s') ->
  agent s' = AgentPresent po /\ po_binPath po = bp.
Proof.
  intros H.
  do 4 step H.
  apply bind_Done in H as (po1 & s1 & Hm & H).
  apply makeProcessOptions_Done in Hm as [Hbin ->]. cbn in Hbin.
  do 5 step H. cbn in H.
  apply bind_Done in H as ([] & s2 & Hm & H).
  unfold call, mbind, E_bind in Hm. cbn in Hm.
  match type of Hm with
  | context [agent_start R ?a ?w] =>
      destruct (agent_start R a w) as [[[] | e |] w2]
  end; try discriminate Hm.
  inversion Hm; subst; clear Hm.
  do 2 step H. cbn in H. inversion H; subst. by cbn.
Qed.

(** [downloadAndLaunchAgent], by the configured version, the answer of the
    constructor of the version object and the answer of the download. *)
Lemma downloadAndLaunchAgent_run (s : Scout) :
  let version := Config.read X (config s) "coreAgentVersion" in
  let options := merged_download_options X R s in
  exists o s',
    downloadAndLaunchAgent X R s = (o, s') /\
    if truthy version then
      match newCoreAgentVersion R version with
      | inl e =>
          o = Fail e /\
          world s' = world s /\ agent s' = agent s /\
          coreAgentVersion s' = coreAgentVersion s /\
          downloaderOptions s' = downloaderOptions s
      | inr raw =>
          exists p,
            o = Done p /\
            coreAgentVersion s' = Some (VStr raw) /\
            downloaderOptions s' = options /\
            match fst (download R (VStr raw) options (world s)) with
            | Resolved bp =>
                forall po, p = Resolved po ->
                           agent s' = AgentPresent po /\ po_binPath po = bp
            | Rejected e => p = Rejected e /\ agent s' = agent s
            | Pending => p = Pending /\ agent s' = agent s
            end
      end
    else
      o = Done (Rejected (PlainError "No core agent version specified!")) /\
      world s' = world s /\ agent s' = agent s /\
      coreAgentVersion s' = coreAgentVersion s /\
      downloaderOptions s' = downloaderOptions s.
Proof.
  cbn zeta. unfold downloadAndLaunchAgent.
  match goal with
  | |- context [call _ ≫= ?k] => set (K := k)
  end.
  unfold mbind, E_bind. run_logs.
  destruct (truthy (Config.read X (config s) "coreAgentVersion")) eqn:Hv; cbn;
    rewrite ?Hv; cbn; run_logs;
    [| do 2 eexists; split; [reflexivity | by repeat split]].
  destruct (newCoreAgentVersion R _) as [e | raw]; cbn;
    [do 2 eexists; split; [reflexivity | by repeat split] |].
  unfold call. cbn.
  destruct (download R _ _ _) as [[bp | e |] w1] eqn:Hd; cbn;
    [| subst K; do 2 eexists; (split; [reflexivity |]); eexists;
       (split; [reflexivity |]); by repeat split..].
  subst K. cbn beta.
  match goal with
  | |- context [settle ?m ?st] =>
      destruct (settle_run m st) as (p & -> & Hp);
      assert (respects same_download m) as Hk by same_download_steps;
      specialize (Hk st); destruct Hk as [Hk1 Hk2]
  end.
  do 2 eexists; split; [reflexivity |]. exists p. split; [reflexivity |].
  split; [exact Hk1 | split; [exact Hk2 |]].
  intros po ->. specialize (Hp po eq_refl).
  by apply launch_chain_resolved in Hp.
Qed.

(** What the merged options hold: the entries built from the configuration
    win over the options given to the constructor, which win over the two
    defaults. *)
Lemma merged_download_options_lookups (s : Scout) :
  let o := merged_download_options X R s in
  o !! "coreAgentFullName" = Some (Config.read X (config s) "coreAgentFullName") /\
  o !! "coreAgentDir" = Some (Config.read X (config s) "coreAgentDir") /\
  o !! "disallowDownload"
  = Some (VBool (negb (truthy (Config.read X (config s) "coreAgentDownload")))) /\
  o !! "downloadUrl" = Some (Config.read X (config s) "downloadUrl") /\
  o !! "cacheDir"
  = Some (default (VStr (path_dirname R (binPath s)))
            (downloaderOptions s !! "cacheDir")) /\
  o !! "updateCache"
  = Some (default (VBool true) (downloaderOptions s !! "updateCache")).
Proof.
  cbn zeta. unfold merged_download_options, Config.buildDownloadOptions.
  rewrite !lookup_union. cbn [list_to_map foldr fst snd uncurry].
  repeat split; simplify_map_eq;
    by destruct (downloaderOptions s !! _).
Qed.


(** The socket getters read the configuration, the stored version and the
    path of the binary, and nothing else. *)
Lemma socketPath_ext (s s2 : Scout) :
  config s2 = config s -> coreAgentVersion s2 = coreAgentVersion s ->
  binPath s2 = binPath s ->
  socketPath X R s2 = (fst (socketPath X R s), s2).
Proof.
  intros Hc Hv Hb. unfold socketPath, getDefaultSocketFilePath.
  rewrite Hc, Hv, Hb. destruct (truthy _); [reflexivity |].
  destruct (coreAgentVersion s); [| reflexivity].
  by destruct (semver_lt R _ _) as [e | []].
Qed.

Lemma getSocketType_ext (s s2 : Scout) :
  config s2 = config s -> coreAgentVersion s2 = coreAgentVersion s ->
  binPath s2 = binPath s ->
  getSocketType X R s2 = (fst (getSocketType X R s), s2).
Proof.
  intros Hc Hv Hb. unfold getSocketType, mbind, E_bind.
  rewrite (socketPath_ext s s2 Hc Hv Hb).
  pose proof (socketPath_state s) as Hs.
  destruct (socketPath X R s) as [[v | e |] s1]; cbn in *; subst;
    try reflexivity.
  destruct v; try reflexivity. by destruct (startsWith _ _).
Qed.

Lemma getSocketPath_ext (s s2 : Scout) :
  config s2 = config s -> coreAgentVersion s2 = coreAgentVersion s ->
  binPath s2 = binPath s ->
  getSocketPath X R s2 = (fst (getSocketPath X R s), s2).
Proof.
  intros Hc Hv Hb. unfold getSocketPath, mbind, E_bind.
  rewrite (getSocketType_ext s s2 Hc Hv Hb).
  pose proof (getSocketType_state s) as Hs.
  destruct (getSocketType X R s) as [[ty | e |] s1]; cbn in *; subst;
    try reflexivity.
  rewrite (socketPath_ext s s2 Hc Hv Hb).
  pose proof (socketPath_state s) as Hs.
  destruct (socketPath X R s) as [[v | e |] s1]; cbn in *; subst;
    try reflexivity.
  by destruct ty.
Qed.

(** [agentIsRunning] changes the world only, and does not look at the log. *)
Lemma agentIsRunning_Done sp (s s1 : Scout) running :
  agentIsRunning X R sp s = (Done running, s1) ->
  (exists w, s1 = set_world w s) /\
  (exists ty, getSocketType X R s = (Done ty, s)) /\
  forall ls, agentIsRunning X R sp (set_logged ls s)
             = (Done running, set_logged ls s1).
Proof.
  unfold agentIsRunning, mbind, E_bind. intros H.
  assert (forall ls, getSocketType X R (set_logged ls s)
                     = (fst (getSocketType X R s), set_logged ls s)) as Hl
    by (intros ls; by apply getSocketType_ext).
  pose proof (getSocketType_state s) as Hs.
  destruct (getSocketType X R s) as [[ty | e |] s0]; cbn in *; subst;
    try discriminate H.
  unfold call in *.
  destruct ty; cbn in *.
  - destruct (tcpPortUsed R _ _) as [r w] eqn:Hp. inversion H; subst.
    split; [by eexists | split; [by eexists |]].
    intros ls. rewrite Hl. cbn. by rewrite Hp.
  - destruct (pathExists R _ _) as [r w] eqn:Hp. inversion H; subst.
    split; [by eexists | split; [by eexists |]].
    intros ls. rewrite Hl. cbn. by rewrite Hp.
Qed.

(** [createAgentForExistingSocket], by the answer of the probe. *)
Lemma createAgentForExistingSocket_run (s s1 : Scout) sp running :
  socketPath X R s = (Done sp, s) ->
  agentIsRunning X R sp s = (Done running, s1) ->
  exists p s',
    createAgentForExistingSocket X R s = (Done p, s') /\
    match running with
    | Resolved true =>
        exists po,
          p = Resolved po /\ agent s' = AgentPresent po /\
          po_binPath po = binPath s /\
          po_opts po = Config.buildProcessOptions X (config s)
    | Resolved false =>
        p = Rejected (InvalidConfiguration
                        "socket @ path [${socketPath}] does not exist") /\
        agent s' = agent s
    | Rejected e => p = Rejected e /\ agent s' = agent s
    | Pending => p = Pending /\ agent s' = agent s
    end.
Proof.
  intros Hsp Hrun. unfold createAgentForExistingSocket.
  match goal with
  | |- context [agentIsRunning X R _ ≫= ?k] => set (K := k)
  end.
  unfold mbind, E_bind. rewrite Hsp. run_logs.
  rewrite (socketPath_ext s (set_logged ls s)) by reflexivity.
  rewrite Hsp. cbn.
  destruct (agentIsRunning_Done sp s s1 running Hrun) as ([w ->] & [ty Hty] & Hl).
  rewrite Hl. subst K. cbn beta.
  unfold settle, await, makeProcessOptions, setupAgent, mbind, E_bind.
  destruct running as [[] | e |]; cbn;
    [| do 2 eexists; split; [reflexivity | by split]..].
  rewrite (getSocketPath_ext s) by reflexivity.
  assert (exists uri, getSocketPath X R s = (Done uri, s)) as [uri ->].
  { unfold getSocketPath, mbind, E_bind. rewrite Hty, Hsp.
    destruct ty; by eexists. }
  cbn. do 2 eexists; split; [reflexivity |]. by eexists.
Qed.


(** A launch that resolves has stored the agent it resolves with. *)
Lemma downloadAndLaunchAgent_resolved (s s' : Scout) (po : ProcessOptions) :
  downloadAndLaunchAgent X R s = (Done (Resolved po), s') ->
  agent s' = AgentPresent po.
Proof.
  intros H. destruct (downloadAndLaunchAgent_run s) as (o & s'' & Hrun & Hcases).
  cbn zeta in Hcases. rewrite H in Hrun. inversion Hrun; subst o s''.
  destruct (truthy _); [| destruct Hcases as [Hc _]; discriminate Hc].
  destruct (newCoreAgentVersion R _);
    [destruct Hcases as [Hc _]; discriminate Hc |].
  destruct Hcases as (p & Hp & _ & _ & Hm). inversion Hp; subst p.
  destruct (fst (download R _ _ _));
    [by apply Hm | destruct Hm as [Hc _]; discriminate Hc
    | destruct Hm as [Hc _]; discriminate Hc].
Qed.

Lemma createAgentForExistingSocket_resolved (s s' : Scout) (po : ProcessOptions) :
  createAgentForExistingSocket X R s = (Done (Resolved po), s') ->
  agent s' = AgentPresent po.
Proof.
  unfold createAgentForExistingSocket. intros H.
  do 3 step H.
  apply bind_Done in H as (running & s1 & _ & H).
  apply settle_Resolved in H.
  apply bind_Done in H as (found & s2 & _ & H).
  apply bind_Done in H as (? & s3 & _ & H).
  apply bind_Done in H as (po1 & s4 & _ & H).
  unfold setupAgent, modify, mbind, E_bind in H. cbn in H.
  inversion H; subst. reflexivity.
Qed.

End LaunchFacts.

(** X20.  [downloadAndLaunchAgent] without a configured version rejects at
    once, calling nothing and leaving the agent, the stored version and the
    download options as they were.  With one it first makes the version
    object: when the constructor throws (a version it does not accept),
    [downloadAndLaunchAgent] throws that error, before any download, and
    again nothing is called or changed.  Otherwise it returns a promise; it
    stores the [raw] version of the object, and downloads that version with
    the merged options, in which the entries built from the configuration
    win over the options given to the constructor, and these over the
    defaults of [cacheDir] and [updateCache].  When the download does not
    resolve, the promise is the download's and no agent is set; when the
    whole launch resolves, the stored agent is the one returned, made for
    the downloaded binary. *)
Theorem downloadAndLaunchAgent_outcome {W : Type} (X : Externals)
    (R : Runtime W) (s : @Engine.Scout W) :
  let version := Config.read X (Engine.config s) "coreAgentVersion" in
  let options := merged_download_options X R s in
  (exists o s',
     Engine.downloadAndLaunchAgent X R s = (o, s') /\
     if truthy version then
       match newCoreAgentVersion R version with
       | inl e =>
           o = Engine.Fail e /\
           Engine.world s' = Engine.world s /\
           Engine.agent s' = Engine.agent s /\
           Engine.coreAgentVersion s' = Engine.coreAgentVersion s /\
           Engine.downloaderOptions s' = Engine.downloaderOptions s
       | inr raw =>
           exists p,
             o = Engine.Done p /\
             Engine.coreAgentVersion s' = Some (VStr raw) /\
             Engine.downloaderOptions s' = options /\
             match fst (download R (VStr raw) options (Engine.world s)) with
             | Resolved bp =>
                 forall po, p = Resolved po ->
                            Engine.agent s' = AgentPresent po /\
                            po_binPath po = bp
             | Rejected e => p = Rejected e /\ Engine.agent s' = Engine.agent s
             | Pending => p = Pending /\ Engine.agent s' = Engine.agent s
             end
       end
     else
       o = Engine.Done (Rejected (PlainError "No core agent version specified!")) /\
       Engine.world s' = Engine.world s /\
       Engine.agent s' = Engine.agent s /\
       Engine.coreAgentVersion s' = Engine.coreAgentVersion s /\
       Engine.downloaderOptions s' = Engine.downloaderOptions s) /\
  options !! "coreAgentFullName"
  = Some (Config.read X (Engine.config s) "coreAgentFullName") /\
  options !! "coreAgentDir"
  = Some (Config.read X (Engine.config s) "coreAgentDir") /\
  options !! "disallowDownload"
  = Some (VBool (negb (truthy (Config.read X (Engine.config s)
                                 "coreAgentDownload")))) /\
  options !! "downloadUrl"
  = Some (Config.read X (Engine.config s) "downloadUrl") /\
  options !! "cacheDir"
  = Some (default (VStr (path_dirname R (Engine.binPath s)))
            (Engine.downloaderOptions s !! "cacheDir")) /\
  options !! "updateCache"
  = Some (default (VBool true) (Engine.downloaderOptions s !! "updateCache")).
Proof.
  split; [apply downloadAndLaunchAgent_run | apply merged_download_options_lookups].
Qed.

(** On the sample engine configured with version [latest], which the sample
    constructor of the version object refuses: the launch throws, and so
    does [setup], and the world has not been called. *)
Example launch_with_refused_version :
  let s := Sample.engine (<["coreAgentVersion" := VStr "latest"]> Sample.launch_config) in
  let r := Engine.downloadAndLaunchAgent Sample.host (Sample.runtime true) s in
  fst r = Engine.Fail (PlainError "Invalid version [latest]") /\
  Engine.world (snd r) = 0 /\
  fst (Engine.setup Sample.host (Sample.runtime true) s)
  = Engine.Fail (PlainError "Invalid version [latest]").
Proof. vm_compute. repeat split; reflexivity. Qed.

(** On the sample engine without a configured version: the launch rejects
    and the world has not been called. *)
Example launch_without_version :
  let s := Sample.engine (<["coreAgentVersion" := VStr ""]> Sample.launch_config) in
  let r := Engine.downloadAndLaunchAgent Sample.host (Sample.runtime true) s in
  fst r = Engine.Done (Rejected (PlainError "No core agent version specified!")) /\
  Engine.world (snd r) = 0.
Proof. vm_compute. split; reflexivity. Qed.

(** X21.  [createAgentForExistingSocket], once the socket getter has given a
    path and [agentIsRunning] has returned the promise of its probe, returns
    a promise that follows the probe.  When the probe finds the socket, the
    promise resolves with the agent that is now stored, made for the current
    path of the binary and the process options of the configuration.  When
    the probe finds nothing the promise rejects with [InvalidConfiguration];
    when the probe rejects or never answers, so does the promise; in these
    cases no agent is set. *)
Theorem attach_follows_the_probe {W : Type} (X : Externals) (R : Runtime W)
    (s s1 : @Engine.Scout W) (sp : value) (running : promise bool) :
  Engine.socketPath X R s = (Engine.Done sp, s) ->
  Engine.agentIsRunning X R sp s = (Engine.Done running, s1) ->
  exists p s',
    Engine.createAgentForExistingSocket X R s = (Engine.Done p, s') /\
    match running with
    | Resolved true =>
        exists po,
          p = Resolved po /\ Engine.agent s' = AgentPresent po /\
          po_binPath po = Engine.binPath s /\
          po_opts po = Config.buildProcessOptions X (Engine.config s)
    | Resolved false =>
        p = Rejected (InvalidConfiguration
                        "socket @ path [${socketPath}] does not exist") /\
        Engine.agent s' = Engine.agent s
    | Rejected e => p = Rejected e /\ Engine.agent s' = Engine.agent s
    | Pending => p = Pending /\ Engine.agent s' = Engine.agent s
    end.
Proof. apply createAgentForExistingSocket_run. Qed.

Lemma attach_follows_the_probe_witness :
  let s := Sample.engine (list_to_map [("socketPath", VStr "/var/run/core-agent.sock");
                                       ("coreAgentLaunch", VBool false)]) in
  exists p s',
    Engine.createAgentForExistingSocket Sample.host (Sample.runtime true) s
    = (Engine.Done p, s') /\
    exists po, p = Resolved po /\ Engine.agent s' = AgentPresent po.
Proof.
  cbn zeta.
  edestruct (attach_follows_the_probe Sample.host (Sample.runtime true)
               (Sample.engine
                  (list_to_map [("socketPath", VStr "/var/run/core-agent.sock");
                                ("coreAgentLaunch", VBool false)]))
               (snd (Engine.agentIsRunning Sample.host (Sample.runtime true)
                       (VStr "/var/run/core-agent.sock")
                       (Sample.engine
                          (list_to_map
                             [("socketPath", VStr "/var/run/core-agent.sock");
                              ("coreAgentLaunch", VBool false)]))))
               (VStr "/var/run/core-agent.sock") (Resolved true))
    as (p & s' & H & po & Hp & Ha & _);
    [vm_compute; reflexivity | vm_compute; reflexivity |].
  exists p, s'. split; [exact H | exists po; split; [exact Hp | exact Ha]].
Defined.

(** ** The socket path of a configuration behind the proxy *)

Section ProxiedSocketPath.

Context {W : Type} (X : Externals) (R : Runtime W).

Lemma append_slash_not_empty (a b : string) :
  String.eqb (a +:+ "/" +:+ b) "" = false.
Proof. by destruct a. Qed.

(** The value the Derived source gives for [socketPath]. *)
Lemma derived_socketPath (p : Config.ScoutConfigurationProxy) :
  Config.EnvConfigSource.getConfigValue X (Config.env p) "socketPath" = VUndefined ->
  Config.NodeConfigSource.getConfigValue (Config.config p) "socketPath" = VUndefined ->
  Config.read X (Config.Proxied p) "coreAgentFullName" <> VUndefined ->
  Config.read X (Config.Proxied p) "socketPath"
  = VStr (to_js_string (Config.read X (Config.Proxied p) "coreAgentDir") +:+ "/"
          +:+ to_js_string (Config.read X (Config.Proxied p) "coreAgentFullName")
          +:+ "/" +:+ DEFAULT_SOCKET_FILE_NAME).
Proof.
  intros Henv Hnode Hfull. unfold Config.read, Config.full_depth in *.
  destruct (get_plain X p 1 "coreAgentDir") as [dir Hdir]; [done.. |].
  rewrite (get_mono X p 2 _ _ Hdir).
  destruct (get_is_Some_2 X p 0 "coreAgentFullName") as [r Hr]; [done |].
  change (2 + 0) with 2 in Hr. rewrite (get_mono X p 2 _ _ Hr) in *.
  destruct r as [[e | full] l]; [done |].
  change (Config.get X 3 p "socketPath")
    with (Config.get_loop
            (fun s => Config.getConfigValue X p (Config.get X 2 p) s "socketPath")
            Config.sources).
  cbn [Config.sources Config.get_loop Config.getConfigValue].
  rewrite Henv, Hnode.
  unfold Config.DerivedConfigSource.getConfigValue.
  cbn [String.eqb Ascii.eqb Bool.eqb].
  rewrite Hdir, Hr. reflexivity.
Qed.

(** With such a configuration the socket getter never looks at the stored
    version. *)
Lemma proxied_socketPath (s : @Engine.Scout W) (p : Config.ScoutConfigurationProxy) :
  Engine.config s = Config.Proxied p ->
  Config.EnvConfigSource.getConfigValue X (Config.env p) "socketPath" = VUndefined ->
  Config.NodeConfigSource.getConfigValue (Config.config p) "socketPath" = VUndefined ->
  Config.read X (Config.Proxied p) "coreAgentFullName" <> VUndefined ->
  Engine.socketPath X R s
  = (Engine.Done
       (VStr (to_js_string (Config.read X (Config.Proxied p) "coreAgentDir") +:+ "/"
              +:+ to_js_string (Config.read X (Config.Proxied p) "coreAgentFullName")
              +:+ "/" +:+ DEFAULT_SOCKET_FILE_NAME)), s).
Proof.
  intros Hc Henv Hnode Hfull. unfold Engine.socketPath. rewrite Hc.
  rewrite (derived_socketPath p Henv Hnode Hfull).
  cbn [truthy]. by rewrite append_slash_not_empty.
Qed.

End ProxiedSocketPath.

(** X22.  With a configuration behind the proxy ([buildScoutConfiguration])
    and no [socketPath] given in the environment or on the Node source, the
    socket getter of the engine never comes to choose by the agent's
    version: whatever version the instance holds, it gives the path of the
    Derived source, [coreAgentDir/coreAgentFullName/core-agent.sock] (the
    read of [coreAgentFullName] is taken not to raise). *)
Theorem proxied_socket_path_is_derived {W : Type} (X : Externals)
    (R : Runtime W) (s : @Engine.Scout W) (p : Config.ScoutConfigurationProxy) :
  Engine.config s = Config.Proxied p ->
  Config.EnvConfigSource.getConfigValue X (Config.env p) "socketPath" = VUndefined ->
  Config.NodeConfigSource.getConfigValue (Config.config p) "socketPath" = VUndefined ->
  Config.read X (Config.Proxied p) "coreAgentFullName" <> VUndefined ->
  Engine.socketPath X R s
  = (Engine.Done
       (VStr (to_js_string (Config.read X (Config.Proxied p) "coreAgentDir") +:+ "/"
              +:+ to_js_string (Config.read X (Config.Proxied p) "coreAgentFullName")
              +:+ "/" +:+ DEFAULT_SOCKET_FILE_NAME)), s).
Proof. apply proxied_socketPath. Qed.

Lemma proxied_socket_path_is_derived_witness :
  Engine.socketPath Sample.host (Sample.runtime true)
    (Engine.new Sample.host (Sample.runtime true) None None 0)
  = (Engine.Done (VStr "/scout_apm_core-v1.2.7-x86_64-linux-gnu/core-agent.sock"),
     Engine.new Sample.host (Sample.runtime true) None None 0).
Proof.
  apply (proxied_socket_path_is_derived Sample.host (Sample.runtime true)
           (Engine.new Sample.host (Sample.runtime true) None None 0)
           (Config.new Sample.host None None false));
    [vm_compute; reflexivity | vm_compute; reflexivity | vm_compute; reflexivity
    | vm_compute; discriminate].
Defined.

(** ** The constructor *)

Section ConstructorFacts.

Context {W : Type} (X : Externals) (R : Runtime W).

Import Engine.

(** A property written on a configuration is read back, unless the
    environment of the proxy defines it. *)
Lemma write_then_read (c : Config.Configuration) (prop : string) (v : value) :
  v <> VUndefined ->
  match c with
  | Config.PlainObject _ => True
  | Config.Proxied p =>
      Config.EnvConfigSource.getConfigValue X (Config.env p) prop = VUndefined
  end ->
  Config.read X (Config.write c prop v) prop = v.
Proof.
  intros Hv Henv. destruct c as [o | p]; cbn [Config.write Config.read].
  - unfold prop_of. by rewrite lookup_insert_eq.
  - cbn. unfold Config.full_depth.
    cbn [Config.get Config.sources Config.get_loop Config.getConfigValue
         Config.env Config.config].
    rewrite Henv. unfold mbind, Config.M_bind, Config.bind, Config.ret. cbn.
    unfold Config.NodeConfigSource.getConfigValue,
      Config.NodeConfigSource.setConfigValue, prop_of.
    rewrite lookup_insert_eq. cbn. destruct v; try congruence; reflexivity.
Qed.

(** The level of the logger of the log function becomes [config.logLevel],
    and [log] filters by it. *)
Lemma new_logger_level (c : Config.Configuration) (lvl : string)
    (dl : option (gmap string value)) (w : W) :
  let s := new X R (Some c)
             (Some {| opt_logFn := Some {| logger_level := Some lvl |};
                      opt_downloadOptions := dl |}) w in
  lvl <> "" -> isLogLevel R lvl = true -> parseLogLevel X lvl <> VUndefined ->
  match c with
  | Config.PlainObject _ => True
  | Config.Proxied p =>
      Config.EnvConfigSource.getConfigValue X (Config.env p) "logLevel" = VUndefined
  end ->
  Config.read X (config s) "logLevel" = parseLogLevel X lvl /\
  forall message level,
    logged (snd (log X R message level s))
    = if truthy (parseLogLevel X lvl)
         && negb (isIgnoredLogMessage R (parseLogLevel X lvl) level)
      then [(message, level)] else [].
Proof.
  cbn zeta. intros Hl Hlog Hv Henv.
  assert (String.eqb lvl "" = false) as Hne by (by apply String.eqb_neq).
  assert (Config.read X
            (config (new X R (Some c)
                       (Some {| opt_logFn := Some {| logger_level := Some lvl |};
                                opt_downloadOptions := dl |}) w)) "logLevel"
          = parseLogLevel X lvl) as Hread.
  { unfold new. cbn [config default mbind option_bind opt_logFn logger_level].
    rewrite Hne, Hlog. cbn [negb andb]. by apply write_then_read. }
  split; [exact Hread |].
  intros message level. unfold log. rewrite Hread.
  unfold new at 1. cbn [logFn mbind option_bind opt_logFn].
  destruct (truthy (parseLogLevel X lvl)); cbn [negb andb]; [| reflexivity].
  by destruct (isIgnoredLogMessage R _ _).
Qed.

(** The path of the binary does not depend on a leading [v] of the
    configured version. *)
Lemma new_binPath_leading_v (c c' : Config.Configuration)
    (opts opts' : option ScoutOptions) (w w' : W) (rest : string) :
  Config.read X c "coreAgentVersion" = VStr (String "v" rest) ->
  Config.read X c' "coreAgentVersion" = VStr rest ->
  rest <> "" -> (forall r, rest <> String "v" r) ->
  binPath (new X R (Some c) opts w) = binPath (new X R (Some c') opts' w') /\
  binPath (new X R (Some c) opts w)
  = path_join R [DEFAULT_CORE_AGENT_DOWNLOAD_CACHE_DIR R;
                 "scout_apm_core-v" +:+ rest +:+ "-" +:+ Config.generateTriple X;
                 CORE_AGENT_BIN_FILE_NAME].
Proof.
  intros Hc Hc' Hne Hv. unfold new. cbn [binPath default id].
  rewrite Hc, Hc'. cbn [truthy String.eqb negb].
  destruct rest as [| a r]; [done |]. cbn [String.eqb negb].
  assert (a <> "v"%char) as Ha by (intros ->; by apply (Hv r)).
  split; [| reflexivity].
  destruct a as [[] [] [] [] [] [] [] []]; try reflexivity; by destruct Ha.
Qed.

End ConstructorFacts.

(** X23.  When the log function given to the constructor has a logger whose
    level is a log level, the constructor writes that level, parsed, to
    [config.logLevel]; unless the environment of a proxied configuration
    sets the log level, this is the level the instance reads from then on,
    and [log] passes exactly the lines that this level does not ignore. *)
Theorem constructor_adopts_logger_level {W : Type} (X : Externals)
    (R : Runtime W) (c : Config.Configuration) (lvl : string)
    (dl : option (gmap string value)) (w : W) :
  let s := Engine.new X R (Some c)
             (Some {| Engine.opt_logFn := Some {| Engine.logger_level := Some lvl |};
                      Engine.opt_downloadOptions := dl |}) w in
  lvl <> "" -> isLogLevel R lvl = true -> parseLogLevel X lvl <> VUndefined ->
  match c with
  | Config.PlainObject _ => True
  | Config.Proxied p =>
      Config.EnvConfigSource.getConfigValue X (Config.env p) "logLevel" = VUndefined
  end ->
  Config.read X (Engine.config s) "logLevel" = parseLogLevel X lvl /\
  forall message level,
    Engine.logged (snd (Engine.log X R message level s))
    = if truthy (parseLogLevel X lvl)
         && negb (isIgnoredLogMessage R (parseLogLevel X lvl) level)
      then [(message, level)] else [].
Proof. apply new_logger_level. Qed.

Lemma constructor_adopts_logger_level_witness :
  Config.read Sample.host
    (Engine.config
       (Engine.new Sample.host (Sample.runtime true)
          (Some (Config.buildScoutConfiguration Sample.host None None false))
          (Some {| Engine.opt_logFn := Some {| Engine.logger_level := Some "WARN" |};
                   Engine.opt_downloadOptions := None |}) 0))
    "logLevel"
  = VStr "warn".
Proof.
  refine (proj1 (constructor_adopts_logger_level Sample.host (Sample.runtime true)
                   (Config.buildScoutConfiguration Sample.host None None false)
                   "WARN" None 0 _ _ _ _));
    [discriminate | reflexivity | discriminate | vm_compute; reflexivity].
Defined.

(** X24.  The path of the agent binary that the constructor builds does not
    depend on a leading [v] of the configured version: a version given as
    [v] followed by [rest] and one given as [rest] alone (not empty, and not
    itself starting with [v]) give the same path, in the directory
    [scout_apm_core-v] followed by [rest] and the triple of the host. *)
Theorem binPath_ignores_leading_v {W : Type} (X : Externals) (R : Runtime W)
    (c c' : Config.Configuration) (opts opts' : option Engine.ScoutOptions)
    (w w' : W) (rest : string) :
  Config.read X c "coreAgentVersion" = VStr (String "v" rest) ->
  Config.read X c' "coreAgentVersion" = VStr rest ->
  rest <> "" -> (forall r, rest <> String "v" r) ->
  Engine.binPath (Engine.new X R (Some c) opts w)
  = Engine.binPath (Engine.new X R (Some c') opts' w') /\
  Engine.binPath (Engine.new X R (Some c) opts w)
  = path_join R [DEFAULT_CORE_AGENT_DOWNLOAD_CACHE_DIR R;
                 "scout_apm_core-v" +:+ rest +:+ "-" +:+ Config.generateTriple X;
                 CORE_AGENT_BIN_FILE_NAME].
Proof. apply new_binPath_leading_v. Qed.

Lemma binPath_ignores_leading_v_witness :
  Engine.binPath
    (Engine.new Sample.host (Sample.runtime true)
       (Some (Config.PlainObject {[ "coreAgentVersion" := VStr "v1.2.7" ]})) None 0)
  = Engine.binPath
      (Engine.new Sample.host (Sample.runtime true)
         (Some (Config.PlainObject {[ "coreAgentVersion" := VStr "1.2.7" ]})) None 0).
Proof.
  refine (proj1 (binPath_ignores_leading_v Sample.host (Sample.runtime true)
                   (Config.PlainObject {[ "coreAgentVersion" := VStr "v1.2.7" ]})
                   (Config.PlainObject {[ "coreAgentVersion" := VStr "1.2.7" ]})
                   None None 0 0 "1.2.7" _ _ _ _));
    [reflexivity | reflexivity | discriminate | intros r; discriminate].
Defined.

(** ** What holds of every instance a program can reach *)

Section Tidy.

Context {W : Type} (X : Externals) (R : Runtime W).

Import Engine.

#[local] Abbreviation Scout := (@Engine.Scout W).
#[local] Abbreviation E := (@Engine.E W).

Ltac run_logs :=
  repeat match goal with
         | |- context [log X R ?m ?l ?s] =>
             let ls := fresh "ls" in
             destruct (log_run X R m l s) as [ls ->]; cbn
         end.

Lemma settled_refl (s : Scout) : settled s s.
Proof. repeat split. by left. Qed.

Lemma settled_trans (s1 s2 s3 : Scout) :
  settled s1 s2 -> settled s2 s3 -> settled s1 s3.
Proof.
  unfold settled. intros (Hl & Hp & Ha & Hi & Ht) (Hl' & Hp' & Ha' & Hi' & Ht').
  repeat split; try congruence.
  destruct Ht' as [Ht' |]; [| by right]. destruct Ht; [left | right]; congruence.
Qed.

Lemma tidy_settled (s s' : Scout) : tidy s -> settled s s' -> tidy s'.
Proof.
  unfold tidy, settled, hasAgent.
  intros (H1 & H2 & H3) (Hl & Hp & Ha & Hi & Ht).
  rewrite Hl, Hp, Ha, Hi. repeat split; try assumption;
    destruct Ht as [Ht | Ht]; rewrite Ht in *; try discriminate; by apply H3.
Qed.

Ltac settled_steps :=
  respects_all settled_refl settled_trans
    (fun (s : Scout) (ls : list LogEntry) => settled_refl (set_logged ls s))
    (fun (s : Scout) (w : W) => settled_refl (set_world w s))
    fail ltac:(repeat split; first [by left | by right]).

Lemma keeps_tidy_bind {A B} (m : E A) (f : A -> E B) :
  keeps_tidy m -> (forall a, keeps_tidy (f a)) -> keeps_tidy (m ≫= f).
Proof.
  intros Hm Hf s Hs. unfold mbind, E_bind. specialize (Hm s Hs).
  destruct (m s) as [[a | e |] s1]; cbn in *; [by apply Hf | done | done].
Qed.

Lemma keeps_tidy_settled {A} (m : E A) : respects settled m -> keeps_tidy m.
Proof. intros Hm s Hs. by apply (tidy_settled s). Qed.

Lemma keeps_tidy_setup : keeps_tidy (setup X R).
Proof.
  intros s Hs. destruct (hasAgent s) eqn:Ha.
  { by rewrite (setup_with_agent X R s Ha). }
  destruct (settingUp s) as [p |] eqn:Hp.
  { by rewrite (setup_again X R s p Hp). }
  destruct (setup X R s) as [o s'] eqn:Hrun. cbn.
  destruct Hs as (H1 & H2 & H3). specialize (H2 Hp).
  assert (o = Done (Resolved tt) \/ o <> Done (Resolved tt)) as [-> | Ho].
  { destruct o as [[[] | e |] | e |]; (by left) || (by right). }
  - destruct (setup_resolved X R s s' Ha Hp Hrun) as (Hag & _ & Hl & Hi & _).
    pose proof (setup_stores X R s s' _ Ha Hp Hrun) as Hst.
    unfold tidy. rewrite Hl, H2, Hst, Hi, Hag. by repeat split.
  - destruct (setup_unresolved X R s s' o Hrun Ho) as (_ & Hl & _ & Ht).
    unfold tidy. rewrite Hl, Ht, H2. repeat split; try done; try lia;
      match goal with
      | Hon : timerRunning s = true |- _ =>
          destruct (H3 Hon) as [_ Hhas]; congruence
      end.
Qed.

(** The hooks after a [shutdown], whatever it came to. *)
Lemma shutdown_hooks (s : Scout) :
  let s' := snd (shutdown X R s) in
  processListeners s' <= processListeners s /\
  settingUp s' = settingUp s /\
  statsSendingInterval s' = statsSendingInterval s /\
  timerRunning s'
  = (if statsSendingInterval s then false else timerRunning s) /\
  (agent s' = agent s \/ agent s' = AgentNull).
Proof.
  cbn zeta. unfold shutdown, stopSendingStatistics, mbind, E_bind. cbn.
  destruct (statsSendingInterval s) eqn:Hst; cbn; rewrite ?Hst; cbn;
    run_logs;
    (destruct (agent s) as [| | a] eqn:Ha; cbn; run_logs;
     [ rewrite ?Hst, ?Ha; repeat split; (lia || by left)
     | rewrite ?Hst, ?Ha; repeat split; (lia || by left) |]);
    unfold call, settle, await, mbind, E_bind; cbn;
    destruct (uncaughtExceptionListenerFn s) eqn:Hl; cbn;
    destruct (agent_disconnect R a _) as [[[] | e |] w]; cbn; rewrite ?Ha; cbn;
    try destruct (truthy _); cbn;
    try destruct (agent_stopProcess R a w) as [[[] | e' |] w']; cbn;
    rewrite ?Hst, ?Ha; repeat split; first [lia | by left | by right].
Qed.

Lemma keeps_tidy_shutdown : keeps_tidy (shutdown X R).
Proof.
  intros s (H1 & H2 & H3).
  destruct (shutdown_hooks s) as (Hl & Hp & Hi & Ht & Ha).
  unfold tidy. rewrite Hp, Hi, Ht. split; [lia | split].
  - intros Hn. specialize (H2 Hn). lia.
  - destruct (statsSendingInterval s); [discriminate |].
    intros Hon. by destruct (H3 Hon).
Qed.

Lemma keeps_tidy_after (op : operation) : keeps_tidy (fun s => (Done tt, after X R op s)).
Proof.
  assert (forall cb, keeps_tidy (withAsyncRequestContext X R cb)) as Hctx
    by (intros cb; apply keeps_tidy_settled; settled_steps).
  intros s. cbn [snd].
  destruct op; cbn [after];
    match goal with
    | |- tidy s -> tidy (snd (?m s)) => revert s; change (keeps_tidy m)
    end;
    try (apply keeps_tidy_settled; settled_steps; fail).
  - apply keeps_tidy_setup.
  - apply keeps_tidy_shutdown.
  - unfold transaction.
    apply keeps_tidy_bind; [apply keeps_tidy_settled; settled_steps | intros _].
    apply keeps_tidy_bind; [apply keeps_tidy_setup | intros ready].
    apply keeps_tidy_settled.
    respects_all settled_refl settled_trans
      (fun (s : Scout) (ls : list LogEntry) => settled_refl (set_logged ls s))
      (fun (s : Scout) (w : W) => settled_refl (set_world w s))
      ltac:(apply Hctx) ltac:(repeat split; first [by left | by right]).
Qed.

Lemma reachable_tidy config opts w (s : Scout) :
  reachable X R config opts w s -> tidy s.
Proof.
  induction 1 as [| s op _ IH].
  - unfold tidy, new. cbn. repeat split; (lia || discriminate).
  - by apply (keeps_tidy_after op s).
Qed.

End Tidy.



(** X26.  With a list in [config.ignore], [ignoresPath] returns [true]
    exactly when some entry of the list is a prefix of the path, and it emits
    [IgnoredPathDetected] with the path, once, exactly when the first such
    entry is not the empty string. *)
Theorem ignoresPath_matches_prefixes {W : Type} (X : Externals) (R : Runtime W)
    (s : @Engine.Scout W) (path : string) (prefixes : list string) :
  Config.read X (Engine.config s) "ignore" = VArr prefixes ->
  exists b s',
    Engine.ignoresPath X R path s = (Engine.Done b, s') /\
    (b = true <->
     exists prefix, In prefix prefixes /\ String.prefix prefix path = true) /\
    Engine.emitted s'
    = match first_matching path prefixes with
      | Some (String _ _) => (Engine.emitted s ++ [IgnoredPathDetected path])%list
      | Some EmptyString | None => Engine.emitted s
      end.
Proof.
  intros Hig.
  destruct (ignoresPath_result X R s path prefixes Hig) as (b & s' & H & Hb).
  destruct (ignoresPath_event X R s path prefixes Hig) as (b' & s'' & H' & He).
  rewrite H in H'. inversion H'; subst. eauto.
Qed.

Lemma ignoresPath_matches_prefixes_witness :
  exists b s',
    Engine.ignoresPath Sample.host (Sample.runtime true) "/health/live"
      (Sample.engine (list_to_map [("ignore", VArr ["/api"; "/health"])]))
    = (Engine.Done b, s') /\
    Engine.emitted s' = [IgnoredPathDetected "/health/live"].
Proof.
  edestruct (ignoresPath_matches_prefixes Sample.host (Sample.runtime true)
               (Sample.engine (list_to_map [("ignore", VArr ["/api"; "/health"])]))
               "/health/live" ["/api"; "/health"])
    as (b & s' & H & _ & He); [vm_compute; reflexivity |].
  exists b, s'. split; [exact H | exact He].
Defined.

(** ** The agent field through the life of an instance *)

Section AgentLifecycle.

Context {W : Type} (X : Externals) (R : Runtime W).

Import Engine.

#[local] Abbreviation Scout := (@Engine.Scout W).
#[local] Abbreviation E := (@Engine.E W).

Lemma same_agent_refl (s : Scout) : same_agent s s.
Proof. reflexivity. Qed.

Lemma same_agent_trans (s1 s2 s3 : Scout) :
  same_agent s1 s2 -> same_agent s2 s3 -> same_agent s1 s3.
Proof. unfold same_agent. congruence. Qed.

Ltac same_agent_steps :=
  respects_all same_agent_refl same_agent_trans
    (fun (s : Scout) (ls : list LogEntry) => same_agent_refl (set_logged ls s))
    (fun (s : Scout) (w : W) => same_agent_refl (set_world w s))
    fail ltac:(reflexivity).

Lemma holds_agent_refl (s : Scout) : holds_agent s s.
Proof. by intros _. Qed.

Lemma holds_agent_trans (s1 s2 s3 : Scout) :
  holds_agent s1 s2 -> holds_agent s2 s3 -> holds_agent s1 s3.
Proof.
  unfold holds_agent, hasAgent. intros H1 H2 Hs. specialize (H1 Hs).
  rewrite H1 in H2. by rewrite (H2 Hs).
Qed.

(** With an agent present [setup] does nothing. *)
Lemma holds_agent_setup : respects holds_agent (setup X R).
Proof. intros s Hs. by rewrite (setup_with_agent X R s Hs). Qed.

Ltac holds_agent_steps known :=
  respects_all holds_agent_refl holds_agent_trans
    (fun (s : Scout) (ls : list LogEntry) => holds_agent_refl (set_logged ls s))
    (fun (s : Scout) (w : W) => holds_agent_refl (set_world w s))
    known ltac:(by intros _).

(** No call but [setup], made directly or by [transaction], brings an
    agent. *)
Lemma hasAgent_only_by_setup (op : operation) (s : Scout) :
  hasAgent s = false -> hasAgent (after X R op s) = true ->
  op = OpSetup \/ exists name cb, op = OpTransaction name cb.
Proof.
  intros Hno Hyes.
  destruct op; cbn [after] in Hyes;
    try (by left); try (right; by eauto); exfalso;
    try (match type of Hyes with
         | hasAgent (snd (?m s)) = true =>
             assert (respects same_agent m) as Hk by same_agent_steps;
             specialize (Hk s); unfold same_agent, hasAgent in *;
             rewrite Hk in Hyes; congruence
         end).
  destruct (shutdown_hooks X R s) as (_ & _ & _ & _ & [Ha | Ha]);
    unfold hasAgent in *; rewrite Ha in Hyes; congruence.
Qed.

(** An agent that is present stays until a [shutdown] resolves. *)
Lemma hasAgent_until_shutdown (op : operation) (s : Scout) :
  hasAgent s = true -> hasAgent (after X R op s) = false ->
  op = OpShutdown /\ fst (shutdown X R s) = Done (Resolved tt).
Proof.
  intros Hyes Hno.
  assert (forall cb, respects holds_agent (withAsyncRequestContext X R cb))
    as Hctx by (intros cb; holds_agent_steps fail).
  destruct op; cbn [after] in Hno;
    try (exfalso;
         match type of Hno with
         | hasAgent (snd (?m s)) = false =>
             assert (respects holds_agent m) as Hk
               by first [ apply holds_agent_setup
                        | unfold transaction;
                          holds_agent_steps
                            ltac:(first [apply holds_agent_setup | apply Hctx])
                        | holds_agent_steps fail ];
             specialize (Hk s Hyes); unfold hasAgent in *;
             rewrite Hk in Hno; congruence
         end).
  split; [reflexivity |].
  unfold hasAgent in Hyes. destruct (agent s) as [| | a] eqn:Ha;
    try discriminate Hyes.
  destruct (shutdown_present X R s a Ha) as (p & s' & Hrun & _ & _ & _ & _ & Hp).
  rewrite Hrun in *. cbn [fst snd] in *.
  destruct p as [[] | e |]; [reflexivity | |];
    destruct Hp as [Hp _]; unfold hasAgent in Hno; rewrite Hp, Ha in Hno;
    discriminate Hno.
Qed.

(** The end of [setup] keeps the agent that the chain leaves. *)
Lemma stored_keeps_agent (m : E unit) :
  respects same_agent m ->
  forall s,
    agent (snd ((p ← settle m; modify (set_settingUp (Some p));; mret p) s))
    = agent s.
Proof.
  intros Hm s. unfold settle, modify, mbind, E_bind. specialize (Hm s).
  by destruct (m s) as [[[] | e |] s1].
Qed.

(** Once the launch has resolved, the agent is present after [setup],
    whatever [setup] comes to. *)
Lemma setup_after_launch (s : Scout) (po : ProcessOptions) :
  hasAgent s = false -> settingUp s = None ->
  fst (launch_of_setup X R s) = Done (Resolved po) ->
  agent (snd (setup X R s)) = AgentPresent po.
Proof.
  intros Hno Hnone. unfold setup, launch_of_setup.
  match goal with
  | |- context [(if _ then _ else _) ≫= ?k] => set (K := k)
  end.
  unfold hasAgent in Hno. unfold gets, mbind, E_bind.
  destruct (log_run X R "[scout] setting up scout..." Debug s) as [ls Hl].
  rewrite Hl. cbn.
  assert (forall k : E (promise unit),
            match agent s with
            | AgentPresent _ => mret (Resolved tt)
            | _ => k
            end = k) as Hk
    by (intros k; destruct (agent s); [reflexivity.. | discriminate]).
  rewrite Hk, Hnone, Hl. cbn. clear Hk.
  destruct (truthy (Config.read X (config s) "coreAgentLaunch")).
  - destruct (downloadAndLaunchAgent X R (set_logged ls s))
      as [[d | e |] s2] eqn:Hrun; cbn; intros H; inversion H; subst d.
    apply downloadAndLaunchAgent_resolved in Hrun. subst K. cbn beta.
    rewrite stored_keeps_agent; [exact Hrun | same_agent_steps].
  - destruct (createAgentForExistingSocket X R (set_logged ls s))
      as [[d | e |] s2] eqn:Hrun; cbn; intros H; inversion H; subst d.
    apply createAgentForExistingSocket_resolved in Hrun. subst K. cbn beta.
    rewrite stored_keeps_agent; [exact Hrun | same_agent_steps].
Qed.

(** The first [setup] that resolves leaves an agent. *)
Lemma first_setup_resolved (s s' : Scout) :
  settingUp s = None -> setup X R s = (Done (Resolved tt), s') ->
  hasAgent s' = true.
Proof.
  intros Hnone Hrun. destruct (hasAgent s) eqn:Hs.
  - rewrite (setup_with_agent X R s Hs) in Hrun. inversion Hrun. by subst.
  - by destruct (setup_resolved X R s s' Hs Hnone Hrun).
Qed.

End AgentLifecycle.


